(** * unox: the Unison fswatch adapter (src/unox.py), embedded and verified

    The development follows the script top to bottom: the string helpers
    the script takes from Python's standard library, the protocol codec
    ([sendCmd], [recvCmd]), the change trigger tree ([pathTokenize],
    [triggerReplica], [reportRecursiveChanges]), the replica registry
    ([startReplicaMon], the [RESET] branch) and the command loop of [main]
    with the [finally] block that wraps it.

    Strings are byte strings ([string], one [ascii] per byte), the view
    Python 2 has of [str] and the UTF-8 view of a Python 3 [str]. The
    library functions are modelled on printable ASCII text, where the
    interpreters the script supports agree, but for the two points noted
    at [isspace] and [quote_safe]. *)

From Stdlib Require Import Ascii String.
From stdpp Require Import base option list strings gmap.


(** ** Python string primitives used by the script *)

Module Py.

(** [str.split(sep)] for a one-character separator: never returns the
    empty list, and two adjacent separators delimit an empty word. *)
Fixpoint split (sep : ascii) (s : string) : list string :=
  match s with
  | EmptyString => [EmptyString]
  | String c s' =>
      if Ascii.eqb c sep then EmptyString :: split sep s'
      else match split sep s' with
           | [] => [String c EmptyString]
           | w :: ws => String c w :: ws
           end
  end.

(** The characters [str.strip()] removes: space, \t, \n, \v, \f, \r.
    (Python 3 also strips the control characters 28 to 31 and the
    non-ASCII spaces.) *)
Definition isspace (c : ascii) : bool :=
  let n := nat_of_ascii c in
  (n =? 32)%nat || ((9 <=? n)%nat && (n <=? 13)%nat).

Fixpoint lstrip (s : string) : string :=
  match s with
  | EmptyString => EmptyString
  | String c s' => if isspace c then lstrip s' else s
  end.

Fixpoint rstrip (s : string) : string :=
  match s with
  | EmptyString => EmptyString
  | String c s' =>
      match rstrip s' with
      | EmptyString => if isspace c then EmptyString else String c EmptyString
      | r => String c r
      end
  end.

Definition strip (s : string) : string := rstrip (lstrip s).

(** [s.startswith(p)] *)
Fixpoint startswith (p s : string) : bool :=
  match p, s with
  | EmptyString, _ => true
  | String a p', String b s' => Ascii.eqb a b && startswith p' s'
  | String _ _, EmptyString => false
  end.

(** [s.endswith(c)] for a one-character suffix. *)
Fixpoint endswith_char (c : ascii) (s : string) : bool :=
  match s with
  | EmptyString => false
  | String a EmptyString => Ascii.eqb a c
  | String _ s' => endswith_char c s'
  end.

(** The slice [s[n:]]. *)
Fixpoint slice_from (n : nat) (s : string) : string :=
  match n, s with
  | O, _ => s
  | S n', String _ s' => slice_from n' s'
  | S _, EmptyString => EmptyString
  end.

(** Iterating over a [str] yields its characters as one-character
    strings. *)
Fixpoint chars (s : string) : list string :=
  match s with
  | EmptyString => []
  | String c s' => String c EmptyString :: chars s'
  end.

(** [posixpath.join(a, b)]: an absolute [b] replaces [a]; otherwise [b]
    is appended, after a separator unless [a] is empty or already ends in
    one. *)
Definition path_join (a b : string) : string :=
  if startswith "/" b then b
  else if (String.eqb a "" || endswith_char "/" a)%bool then a +:+ b
  else a +:+ "/" +:+ b.

(** *** urllib's [quote] and [unquote] *)

Definition hex_digit (n : nat) : ascii :=
  if (n <? 10)%nat then ascii_of_nat (48 + n) else ascii_of_nat (55 + n).

Definition hex_value (c : ascii) : option nat :=
  let n := nat_of_ascii c in
  if ((48 <=? n) && (n <=? 57))%nat then Some (n - 48)%nat
  else if ((65 <=? n) && (n <=? 70))%nat then Some (n - 55)%nat
  else if ((97 <=? n) && (n <=? 102))%nat then Some (n - 87)%nat
  else None.

(** Letters, digits and [_.-~] are never quoted; [/] is the default
    [safe] argument. (Before Python 3.7, [~] is quoted as well.) *)
Definition quote_safe (c : ascii) : bool :=
  let n := nat_of_ascii c in
  ((65 <=? n) && (n <=? 90))%nat || ((97 <=? n) && (n <=? 122))%nat
  || ((48 <=? n) && (n <=? 57))%nat
  || (n =? 95)%nat || (n =? 46)%nat || (n =? 45)%nat || (n =? 126)%nat
  || (n =? 47)%nat.

Fixpoint quote (s : string) : string :=
  match s with
  | EmptyString => EmptyString
  | String c s' =>
      if quote_safe c then String c (quote s')
      else
        let n := nat_of_ascii c in
        String "%" (String (hex_digit (n / 16)) (String (hex_digit (n mod 16)) (quote s')))
  end.

(** [unquote]: every [%XX] with two hexadecimal digits becomes the byte
    it names; a [%] that is not followed by two such digits is kept. *)
Fixpoint unquote (s : string) : string :=
  match s with
  | EmptyString => EmptyString
  | String c s' =>
      let keep := String c (unquote s') in
      if Ascii.eqb c "%" then
        match s' with
        | String h (String l rest) =>
            match hex_value h, hex_value l with
            | Some a, Some b => String (ascii_of_nat (16 * a + b)) (unquote rest)
            | _, _ => keep
            end
        | _ => keep
        end
      else keep
  end.

End Py.

(** ** The change trigger tree

    [triggered_reps[replica]] is either [True] (the whole subtree changed)
    or a [dict] from path token to such a value. A Python [dict] keeps its
    keys in insertion order and [items()] walks them in that order, so a
    level is an association list: assigning to a key that is present
    replaces its value in place, assigning to a new key appends it. *)

Unset Elimination Schemes.
Inductive node : Type :=
| Dirty : node
| Branch : list (string * node) -> node.
Set Elimination Schemes.

Abbreviation level := (list (string * node)).

(** [tok in cur_lvl] and [cur_lvl[tok]] *)
Fixpoint dict_get (tok : string) (d : level) : option node :=
  match d with
  | [] => None
  | (k, v) :: d' => if String.eqb k tok then Some v else dict_get tok d'
  end.

(** [cur_lvl[tok] = v] *)
Fixpoint dict_set (tok : string) (v : node) (d : level) : level :=
  match d with
  | [] => [(tok, v)]
  | (k, w) :: d' =>
      if String.eqb k tok then (k, v) :: d' else (k, w) :: dict_set tok v d'
  end.

(** src/unox.py, [pathTokenize] *)
Definition pathTokenize (path : string) : list string :=
  filter (fun path_tok => 0 < String.length path_tok) (Py.split "/" path).

(** The two loops of [triggerReplica] that follow the root test. [branches]
    is [local_path_toks[:len - 1]], [leaf] the last token. The script
    mutates the nested dicts in place; rebuilding the spine with [dict_set]
    gives the same tree, because re-assigning a present key keeps its
    position and a missing key is appended in both. *)
Fixpoint trigger_walk (branches : list string) (leaf : string) (cur_lvl : node) : node :=
  match cur_lvl with
  | Dirty => Dirty
  | Branch d =>
      match branches with
      | [] => Branch (dict_set leaf Dirty d)
      | branch_path_tok :: rest =>
          let new_lvl :=
            match dict_get branch_path_tok d with
            | None => Branch []
            | Some n => n
            end in
          Branch (dict_set branch_path_tok (trigger_walk rest leaf new_lvl) d)
      end
  end.

(** The value [triggered_reps[replica]] holds when [triggerReplica]
    returns, from the value it held on entry ([None]: key absent). *)
Definition trigger_tree (cur : option node) (local_path_toks : list string) : node :=
  match local_path_toks with
  | [] => Dirty
  | _ :: _ =>
      let cur_lvl := match cur with None => Branch [] | Some n => n end in
      trigger_walk (take (length local_path_toks - 1) local_path_toks)
                   (List.last local_path_toks "") cur_lvl
  end.

(** The arguments of the [RECURSIVE] commands that
    [reportRecursiveChanges(local_path, cur_lvl)] sends, in order. *)
Fixpoint reported (local_path : string) (cur_lvl : node) : list string :=
  match cur_lvl with
  | Dirty => [local_path]
  | Branch d =>
      (fix items (d : level) : list string :=
         match d with
         | [] => []
         | (path_tok, new_lvl) :: d' =>
             (reported (Py.path_join local_path path_tok) new_lvl ++ items d')%list
         end) d
  end.

(** ** Process state and effects *)

(** What the process does to its streams, in program order. *)
Inductive io_event : Type :=
| StdoutWrite (text : string)   (* sys.stdout.write(text) *)
| StdoutFlush                   (* sys.stdout.flush() *)
| StderrWrite (text : string)   (* sys.stderr.write(text) *)
| StdinRead (line : string).    (* sys.stdin.readline() returned line *)

(** [observer.schedule] returns an [ObservedWatch], a value keyed by the
    watched path (the script always asks for a recursive watch). *)
Abbreviation ObservedWatch := string (only parsing).

(** The value stored in [replicas[replica]]. *)
Record replica_entry : Type := ReplicaEntry {
  watch : ObservedWatch;
  fspath : string
}.

(** The globals of the script, the watches the global [observer] holds,
    and the I/O performed so far. [replicas] is a Python dict:
    [replicas_order] holds its keys in the order a [for] loop walks them,
    the order of insertion (Python 3.7 and later). *)
Record session : Type := Session {
  replicas : gmap string replica_entry;
  replicas_order : list string;
  pending_reps : gset string;
  triggered_reps : gmap string node;
  in_debug : bool;
  observer : gset ObservedWatch;
  trace : list io_event
}.

Definition set_replicas (f : gmap string replica_entry -> gmap string replica_entry) (s : session) : session :=
  Session (f (replicas s)) (replicas_order s) (pending_reps s) (triggered_reps s) (in_debug s) (observer s) (trace s).
Definition set_replicas_order (f : list string -> list string) (s : session) : session :=
  Session (replicas s) (f (replicas_order s)) (pending_reps s) (triggered_reps s) (in_debug s) (observer s) (trace s).
Definition set_pending_reps (p : gset string) (s : session) : session :=
  Session (replicas s) (replicas_order s) p (triggered_reps s) (in_debug s) (observer s) (trace s).
Definition set_triggered_reps (f : gmap string node -> gmap string node) (s : session) : session :=
  Session (replicas s) (replicas_order s) (pending_reps s) (f (triggered_reps s)) (in_debug s) (observer s) (trace s).
Definition set_in_debug (b : bool) (s : session) : session :=
  Session (replicas s) (replicas_order s) (pending_reps s) (triggered_reps s) b (observer s) (trace s).
Definition set_observer (f : gset ObservedWatch -> gset ObservedWatch) (s : session) : session :=
  Session (replicas s) (replicas_order s) (pending_reps s) (triggered_reps s) (in_debug s) (f (observer s)) (trace s).
Definition emit (e : io_event) (s : session) : session :=
  Session (replicas s) (replicas_order s) (pending_reps s) (triggered_reps s) (in_debug s) (observer s) (trace s ++ [e]).

(** The state of the script when [main] is entered. *)
Definition initial (debug_flag : bool) : session :=
  Session ∅ [] ∅ ∅ debug_flag ∅ [].

(** The ways the process ends. *)
Inductive exit_kind : Type :=
| SysExit (status : nat)   (* sys.exit: SystemExit unwinds the stack *)
| OsExit (status : nat)    (* os._exit: the process ends on the spot *)
| Raised (exc : string).   (* an exception nothing catches *)

Inductive result (A : Type) : Type :=
| Ret (a : A) (s : session)
| Exit (k : exit_kind) (s : session).
Arguments Ret {A} a s.
Arguments Exit {A} k s.

(** Code that reads and writes the globals and may end the process. *)
Definition M (A : Type) : Type := session -> result A.

#[global] Instance M_ret : MRet M := fun A a s => Ret a s.
#[global] Instance M_bind : MBind M := fun A B f m s =>
  match m s with
  | Ret a s' => f a s'
  | Exit k s' => Exit k s'
  end.

(** Code that cannot end the process is a plain state transformer. *)
Definition lift (f : session -> session) : M unit := fun s => Ret () (f s).
Definition raise {A} (exc : string) : M A := fun s => Exit (Raised exc) s.
Definition get {A} (f : session -> A) : M A := fun s => Ret (f s) s.
Definition when (b : bool) (f : session -> session) : session -> session :=
  fun s => if b then f s else s.

(** [key in d] for the global dicts. *)
Definition contains {V} (key : string) (d : gmap string V) : bool :=
  bool_decide (is_Some (d !! key)).

(** [replicas[replica] = e]: a key the dict does not hold yet goes last. *)
Definition replicas_setitem (replica : string) (e : replica_entry) : session -> session :=
  fun s =>
    set_replicas_order
      (fun keys => if contains replica (replicas s) then keys else keys ++ [replica])
      (set_replicas <[replica := e]> s).

(** [del replicas[replica]], for a key the dict holds. *)
Definition replicas_delitem (replica : string) : session -> session :=
  fun s =>
    set_replicas_order (filter (fun key => key <> replica))
      (set_replicas (delete replica) s).

(** [observer.schedule(handler, path, recursive=True)] returns the watch
    of the path, and adds it to the scheduled ones unless it is there
    already: two handlers on one path share one watch. *)
Definition schedule (w : ObservedWatch) : session -> session :=
  set_observer (fun o => {[w]} ∪ o).

(** [observer.unschedule(watch)] looks the watch up among the scheduled
    ones with a dict subscript, which raises [KeyError] for a watch that
    is not scheduled (any more); otherwise the watch goes, with every
    handler on it. *)
Definition unschedule (w : ObservedWatch) : M unit :=
  fun s =>
    if decide (w ∈ observer s)
    then Ret () (set_observer (fun o => o ∖ {[w]}) s)
    else Exit (Raised "KeyError") s.

(** ** Logging and the protocol codec *)

Definition my_log_prefix : string := "[unox]".
Definition nl : string := String (ascii_of_nat 10) EmptyString.

Definition _debug (msg : string) : session -> session :=
  emit (StderrWrite (my_log_prefix +:+ "[DEBUG]: " +:+ Py.strip msg +:+ nl)).

Definition warn (msg : string) : session -> session :=
  emit (StderrWrite (my_log_prefix +:+ "[WARN]: " +:+ Py.strip msg +:+ nl)).

(** [sendCmd] loops over [args] with [for arg in args]. Every call site but
    one passes a list of strings; the [WAIT] branch of [main] passes the
    string itself, which the loop then walks character by character. *)
Inductive pyargs : Type :=
| ArgList (l : list string)
| ArgStr (s : string).

Definition iterate (args : pyargs) : list string :=
  match args with
  | ArgList l => l
  | ArgStr s => Py.chars s
  end.

Definition raw_cmd_of (cmd : string) (args : pyargs) : string :=
  foldl (fun raw_cmd arg => raw_cmd +:+ " " +:+ Py.quote arg) cmd (iterate args).

Definition sendCmd (cmd : string) (args : pyargs) : session -> session :=
  fun s =>
    let raw_cmd := raw_cmd_of cmd args in
    let s := when (in_debug s) (_debug ("sendCmd: " +:+ raw_cmd)) s in
    emit (StdoutWrite (raw_cmd +:+ nl)) s.

Definition injectCmd (cmd : string) (args : pyargs) : session -> session :=
  fun s => emit StdoutFlush (sendCmd cmd args s).

Definition sendAck : session -> session := sendCmd "OK" (ArgList []).

Definition sendError {A} (msg : string) : M A :=
  fun s => Exit (OsExit 1) (sendCmd "ERROR" (ArgList [msg]) s).

(** [recvCmd], given what [readline] returns. A result that does not end
    in a newline is the end of the stream. *)
Definition recvCmd (line : string) : M (string * list string) :=
  fun s =>
    let s := emit StdoutFlush s in
    let s := emit (StdinRead line) s in
    if negb (Py.endswith_char (ascii_of_nat 10) line) then
      Exit (SysExit 0) (when (in_debug s) (_debug "stdin closed, exiting") s)
    else
      let s := when (in_debug s) (_debug ("recvCmd: " +:+ line)) s in
      let words := Py.split " " (Py.strip line) in
      Ret (hd "" words, map Py.unquote (tl words)) s.

(** ** Recording and reporting changes *)

(** [_debug_triggers] returns at once, [_in_debug_plus] being the constant
    [False]; its calls are left out. *)

Definition triggerReplica (replica : string) (local_path_toks : list string)
  : session -> session :=
  fun s =>
    let s :=
      if decide (replica ∈ pending_reps s)
      then set_pending_reps ∅ (injectCmd "CHANGES" (ArgList [replica]) s)
      else s in
    set_triggered_reps
      (fun trig => <[replica := trigger_tree (trig !! replica) local_path_toks]> trig) s.

(** [Handler.dispatch], for the handler built by [Handler(fspath, replica)]
    and an event whose [src_path] is [path]. This is the body of the
    [try]: nothing in it raises as long as the streams accept what is
    written, so the [except] clause, which ends the process by
    [os._exit(1)], is left out, as is the [SIGINT] handler. *)
Definition dispatch (self_fspath self_replica path : string) : session -> session :=
  fun s =>
    if negb (Py.startswith self_fspath path) then
      warn ("unexpected file event at path [" +:+ path +:+ "] for ["
            +:+ self_fspath +:+ "]") s
    else
      let local_path := Py.slice_from (String.length self_fspath) path in
      let local_path_toks := pathTokenize local_path in
      let s := when (in_debug s)
                 (_debug ("replica:[" +:+ self_replica +:+ "] file event @["
                          +:+ local_path +:+ "] (" +:+ path +:+ ")")) s in
      triggerReplica self_replica local_path_toks s.

Fixpoint reportRecursiveChanges (local_path : string) (cur_lvl : node)
  : session -> session :=
  fun s =>
    match cur_lvl with
    | Dirty => sendCmd "RECURSIVE" (ArgList [local_path]) s
    | Branch d =>
        (fix items (d : level) (s : session) : session :=
           match d with
           | [] => s
           | (path_tok, new_lvl) :: d' =>
               items d' (reportRecursiveChanges (Py.path_join local_path path_tok) new_lvl s)
           end) d s
    end.

(** ** The session controller *)

(** Where the main thread is blocked in [recvCmd]. *)
Inductive control : Type :=
| Handshaking     (* main, line 246 *)
| MainLoop        (* main, line 255 *)
| ReplicaStart.   (* startReplicaMon, line 223 *)

Section Controller.

(** The watch backend: [None] when [observer.schedule] returns a watch
    for the path, [Some msg] when it raises an exception [e] with
    [str(e) = msg]. *)
Variable schedule_raises : string -> option string.

(** [main] up to its first [recvCmd]. *)
Definition main_begin : session -> session :=
  sendCmd "VERSION" (ArgList ["1"]).

(** [main] from the return of its first [recvCmd] up to the loop. *)
Definition main_handshake (cmd : string) (args : list string) : M control :=
  if negb (String.eqb cmd "VERSION") then sendError ("unexpected version cmd: " +:+ cmd)
  else
    match args with
    | [v_no] =>
        lift (when (negb (String.eqb v_no "1")) (warn ("unexpected version: " +:+ v_no)));;
        mret MainLoop
    | _ => raise "ValueError"
    end.

(** [startReplicaMon] up to its first [recvCmd]. *)
Definition startReplicaMon (replica fspath path : string) : M control :=
  known ← get (fun s => contains replica (replicas s));
  (if negb known then
     let fspath := Py.path_join fspath "" in
     debug ← get in_debug;
     lift (when debug (_debug ("start monitoring of replica [" +:+ replica
                               +:+ "] [" +:+ fspath +:+ "]")));;
     debug ← get in_debug;
     lift (when debug (_debug ("replica:[" +:+ replica +:+ "] watching path ["
                               +:+ fspath +:+ "]")));;
     match schedule_raises fspath with
     | Some msg => sendError msg
     | None =>
         let watch := fspath in
         lift (schedule watch);;
         lift (replicas_setitem replica (ReplicaEntry watch fspath))
     end
   else mret ());;
  lift sendAck;;
  mret ReplicaStart.

(** The body of the [while True] of [startReplicaMon], after [recvCmd]. *)
Definition startReplicaMon_loop (cmd : string) (args : list string) : M control :=
  if String.eqb cmd "DIR" then lift sendAck;; mret ReplicaStart
  else if String.eqb cmd "LINK" then
    sendError "link following is not supported by unison-watchdog, please disable this option (-links)"
  else if String.eqb cmd "DONE" then mret MainLoop
  else sendError ("unexpected cmd in replica start: " +:+ cmd).

(** The body of the [while True] of [main], after [recvCmd]. The list
    patterns are Python's unpacking assignments, which raise [ValueError]
    on any other length. In the [RESET] branch the watch of a registered
    replica is the one [observer.schedule] returned, never [None], so
    [observer.unschedule] is called, and what it raises leaves [main]
    before [del replicas[replica]]. *)
Definition main_loop (cmd : string) (args : list string) : M control :=
  lift (when (negb (String.eqb cmd "WAIT")) (set_pending_reps ∅));;
  if String.eqb cmd "DEBUG" then
    lift (set_in_debug true);; mret MainLoop
  else if String.eqb cmd "START" then
    if (3 <=? length args)%nat then
      match args with
      | [replica; fspath; path] => startReplicaMon replica fspath path
      | _ => raise "ValueError"
      end
    else
      match args with
      | [replica; fspath] => startReplicaMon replica fspath ""
      | _ => raise "ValueError"
      end
  else if String.eqb cmd "WAIT" then
    match args with
    | [replica] =>
        known ← get (fun s => contains replica (replicas s));
        (if negb known then sendError ("unknown replica: " +:+ replica) else mret ());;
        triggered ← get (fun s => contains replica (triggered_reps s));
        (if (triggered : bool) then
           lift (sendCmd "CHANGES" (ArgStr replica));;
           lift (set_pending_reps ∅)
         else
           lift (fun s => set_pending_reps ({[replica]} ∪ pending_reps s) s));;
        mret MainLoop
    | _ => raise "ValueError"
    end
  else if String.eqb cmd "CHANGES" then
    match args with
    | [replica] =>
        known ← get (fun s => contains replica (replicas s));
        (if negb known then sendError ("unknown replica: " +:+ replica) else mret ());;
        tree ← get (fun s => triggered_reps s !! replica);
        match tree with
        | Some cur_lvl =>
            lift (reportRecursiveChanges "" cur_lvl);;
            lift (set_triggered_reps (delete replica))
        | None => mret ()
        end;;
        lift (sendCmd "DONE" (ArgList []));;
        mret MainLoop
    | _ => raise "ValueError"
    end
  else if String.eqb cmd "RESET" then
    match args with
    | [replica] =>
        entry ← get (fun s => replicas s !! replica);
        match entry with
        | None => lift (warn ("unknown replica: " +:+ replica));; mret MainLoop
        | Some e =>
            unschedule (watch e);;
            lift (replicas_delitem replica);;
            lift (set_triggered_reps (delete replica));;
            mret MainLoop
        end
    | _ => raise "ValueError"
    end
  else sendError ("unexpected root cmd: " +:+ cmd).

(** One [recvCmd] and the code that runs until the next one, from the
    place the main thread is blocked at. *)
Definition step (c : control) (line : string) : M control :=
  '(cmd, args) ← recvCmd line;
  match c with
  | Handshaking => main_handshake cmd args
  | MainLoop => main_loop cmd args
  | ReplicaStart => startReplicaMon_loop cmd args
  end.

(** What the environment does: hand a line (or the end of the stream) to
    [readline], or report a file event to the handler of a replica. The
    model delivers file events between two commands. *)
Inductive env_event : Type :=
| Readline (line : string)
| FileEvent (replica path : string).

Definition deliver (replica path : string) : session -> session :=
  fun s =>
    match replicas s !! replica with
    | Some e => dispatch (fspath e) replica path s
    | None => s
    end.

Fixpoint run (c : control) (evs : list env_event) : M control :=
  match evs with
  | [] => mret c
  | Readline line :: evs' => c' ← step c line; run c' evs'
  | FileEvent replica path :: evs' => lift (deliver replica path);; run c evs'
  end.

(** The [for] loop of the [finally] block under [__main__], over the
    keys of [replicas] in the order the dict yields them. The first
    [unschedule] that raises ends the loop. *)
Fixpoint unschedule_each (keys : list string) : M unit :=
  match keys with
  | [] => mret ()
  | replica :: keys' =>
      entry ← get (fun s => replicas s !! replica);
      match entry with
      | Some e => unschedule (watch e)
      | None => raise "KeyError"
      end;;
      unschedule_each keys'
  end.

Definition finally_block : M unit :=
  fun s => unschedule_each (replicas_order s) s.

(** [sys.exit] and uncaught exceptions unwind through the [try] around
    [main()], so the [finally] block runs; [os._exit] ends the process
    without unwinding. *)
Definition at_exit (k : exit_kind) : M unit :=
  match k with
  | OsExit _ => mret ()
  | SysExit _ | Raised _ => finally_block
  end.

(** The script from [main()] on, against a finite behaviour of the
    environment: [Ret] when the main thread is still blocked in
    [recvCmd] afterwards, [Exit] with the state the process ends in. An
    exception raised in the [finally] block replaces the [SystemExit] or
    the exception that was unwinding. *)
Definition program (debug_flag : bool) (evs : list env_event) : result control :=
  match run Handshaking evs (main_begin (initial debug_flag)) with
  | Ret c s => Ret c s
  | Exit k s =>
      match at_exit k s with
      | Ret _ s' => Exit k s'
      | Exit k' s' => Exit k' s'
      end
  end.

End Controller.

(** ** Reading a trigger tree *)

(** A route is the list of path tokens from the root of a tree to one of
    its nodes. *)
Fixpoint node_at (route : list string) (t : node) : option node :=
  match route with
  | [] => Some t
  | tok :: rest =>
      match t with
      | Dirty => None
      | Branch d =>
          match dict_get tok d with
          | Some n => node_at rest n
          | None => None
          end
      end
  end.

Definition dirty_at (route : list string) (t : node) : Prop :=
  node_at route t = Some Dirty.

(** [covered q t]: the tree holds a dirty marker at [q] or above it. *)
Fixpoint covered (q : list string) (t : node) : bool :=
  match t with
  | Dirty => true
  | Branch d =>
      match q with
      | [] => false
      | tok :: rest =>
          match dict_get tok d with
          | Some n => covered rest n
          | None => false
          end
      end
  end.

(** The routes of the dirty markers, in the order [items()] meets them. *)
Fixpoint routes (t : node) : list (list string) :=
  match t with
  | Dirty => [[]]
  | Branch d =>
      (fix items (d : level) : list (list string) :=
         match d with
         | [] => []
         | (tok, n) :: d' => (map (cons tok) (routes n) ++ items d')%list
         end) d
  end.

(** What Python guarantees of a [dict] (no key twice) together with what
    [triggerReplica] maintains: below a key there is a marker or a
    non-empty dict, so every branch leads to a marker. *)
Unset Elimination Schemes.
Inductive tree_ok : node -> Prop :=
| tree_ok_dirty : tree_ok Dirty
| tree_ok_branch d :
    NoDup (map fst d) ->
    Forall (fun kv => tree_ok kv.2 /\ kv.2 <> Branch []) d ->
    tree_ok (Branch d).
Set Elimination Schemes.

(** The invariant of an entry of [triggered_reps]; an absent key has
    nothing to maintain. *)
Definition entry_ok (cur : option node) : Prop :=
  match cur with
  | None => True
  | Some t => tree_ok t /\ t <> Branch []
  end.

Definition entry_dirty_at (route : list string) (cur : option node) : Prop :=
  match cur with
  | None => False
  | Some t => dirty_at route t
  end.

Definition entry_covered (q : list string) (cur : option node) : bool :=
  match cur with
  | None => false
  | Some t => covered q t
  end.

(** [trigger_tree] by recursion on the whole token list; [trigger_tree]
    is proved equal to it below. *)
Fixpoint record (toks : list string) (t : node) : node :=
  match toks with
  | [] => Dirty
  | tok :: rest =>
      match t with
      | Dirty => Dirty
      | Branch d =>
          Branch (dict_set tok (record rest (default (Branch []) (dict_get tok d))) d)
      end
  end.

(** A path token as [pathTokenize] produces it: not empty, no separator. *)
Fixpoint has_char (c : ascii) (s : string) : bool :=
  match s with
  | EmptyString => false
  | String a s' => Ascii.eqb a c || has_char c s'
  end.

Definition valid_tok (tok : string) : Prop :=
  tok <> "" /\ has_char "/" tok = false.

(** The relative paths the [CHANGES] branch of [main] reports for
    [replica]: the arguments of its [RECURSIVE] replies, in order. *)
Definition drain (replica : string) (s : session) : list string :=
  match triggered_reps s !! replica with
  | Some cur_lvl => reported "" cur_lvl
  | None => []
  end.

(** The entry of a replica after a run of [triggerReplica] calls for it,
    from the entry it had before. *)
Definition record_all (cur : option node) (recs : list (list string)) : option node :=
  foldl (fun cur toks => Some (trigger_tree cur toks)) cur recs.

(** A run of [triggerReplica] calls for one replica. *)
Definition trigger_all (replica : string) (recs : list (list string)) (s : session) : session :=
  foldl (fun s toks => triggerReplica replica toks s) s recs.

(** The texts written to standard output, in order. *)
Fixpoint stdout_writes (tr : list io_event) : list string :=
  match tr with
  | [] => []
  | StdoutWrite text :: tr' => text :: stdout_writes tr'
  | _ :: tr' => stdout_writes tr'
  end.

(** Standard output is a buffered stream: a text written to it leaves
    the process when the stream is flushed, which the script does by
    hand, in [recvCmd] and in [injectCmd] (the buffer is taken to be large
    enough for what is written between two flushes, as it is for the
    lines of this protocol on a pipe). [flushed_from buf tr] is what has
    left the process after [tr], from a buffer that held [buf]. *)
Fixpoint flushed_from (buf : list string) (tr : list io_event) : list string :=
  match tr with
  | [] => []
  | StdoutWrite text :: tr' => flushed_from (buf ++ [text]) tr'
  | StdoutFlush :: tr' => buf ++ flushed_from [] tr'
  | _ :: tr' => flushed_from buf tr'
  end.

(** What the other end of standard output has been sent. *)
Definition stdout_sent (s : session) : list string := flushed_from [] (trace s).

(** Two paths that differ only in doubled or trailing separators. *)
Inductive sep_variant : string -> string -> Prop :=
| sep_doubled a b : sep_variant (a +:+ "/" +:+ b) (a +:+ "//" +:+ b)
| sep_trailing a : sep_variant a (a +:+ "/")
| sep_refl a : sep_variant a a
| sep_sym a b : sep_variant a b -> sep_variant b a
| sep_trans a b c : sep_variant a b -> sep_variant b c -> sep_variant a c.

(** A string of separators only (the empty string included). *)
Fixpoint only_separators (s : string) : bool :=
  match s with
  | EmptyString => true
  | String c s' => Ascii.eqb c "/" && only_separators s'
  end.

(** A line as [readline] returns it. *)
Definition line_of (text : string) : env_event := Readline (text +:+ nl).

(** Every registered replica has had its watch unscheduled. *)
Definition watches_released (s : session) : Prop :=
  forall replica e, replicas s !! replica = Some e -> watch e ∉ observer s.

(** The reading of the specification's "Terminated" state: however the
    process ends, it ends with the watches released. *)
Definition released_at_exit (r : result control) : Prop :=
  match r with
  | Ret _ _ => True
  | Exit _ s => watches_released s
  end.

(** The reading of the specification's registration sub-loop: nothing is
    acknowledged when [START] is handled, and [DONE] is answered by the
    acknowledgment. *)
Definition ack_sent_upon_done (schedule_raises : string -> option string)
    (replica fspath path : string) (s : session) : Prop :=
  exists s1 s2,
    startReplicaMon schedule_raises replica fspath path s = Ret ReplicaStart s1
    /\ stdout_writes (trace s1) = stdout_writes (trace s)
    /\ startReplicaMon_loop "DONE" [] s1 = Ret MainLoop s2
    /\ stdout_writes (trace s2) = stdout_writes (trace s1) ++ ["OK" +:+ nl].

(** [str.split()] without argument: the maximal runs of non-whitespace
    characters. [word] is the run being read. *)
Fixpoint whitespace_split_from (word : string) (s : string) : list string :=
  let flush := if String.eqb word "" then [] else [word] in
  match s with
  | EmptyString => flush
  | String c s' =>
      if Py.isspace c then flush ++ whitespace_split_from "" s'
      else whitespace_split_from (word +:+ String c "") s'
  end.

(** The reading of the specification's [decode]: split on whitespace and
    percent-decode every token, the command included. *)
Definition decode_spec (line : string) : string * list string :=
  let tokens := map Py.unquote (whitespace_split_from "" line) in
  (hd "" tokens, tl tokens).

(** [sep.join(words)] *)
Fixpoint join (sep : string) (words : list string) : string :=
  match words with
  | [] => ""
  | [w] => w
  | w :: ws => w +:+ sep +:+ join sep ws
  end.

(** The state a computation leaves behind, whether it returned or ended
    the process. *)
Definition final {A} (r : result A) : session :=
  match r with
  | Ret _ s => s
  | Exit _ s => s
  end.

(** ** Vocabulary for the properties of the whole script *)

(** Every character of a string passes a test. *)
Fixpoint forall_chars (p : ascii -> bool) (s : string) : bool :=
  match s with
  | EmptyString => true
  | String c s' => p c && forall_chars p s'
  end.

(** A character [str.strip()] leaves alone. *)
Definition visible (c : ascii) : bool := negb (Py.isspace c).

(** What the main thread and the handlers rely on between two commands:
    every entry of [triggered_reps] is a well-formed tree, and only
    registered replicas are waited on. *)
Definition session_ok (s : session) : Prop :=
  (forall replica, entry_ok (triggered_reps s !! replica))
  /\ pending_reps s ⊆ dom (replicas s).

(** A recorded path with no other recorded path above it. *)
Definition topmost (recs : list (list string)) (r : list string) : Prop :=
  r ∈ recs /\ forall p, p ∈ recs -> p `prefix_of` r -> p = r.

(** A run of [triggerReplica] calls, each for its own replica. *)
Definition trigger_events (evs : list (string * list string)) (s : session) : session :=
  foldl (fun s ev => triggerReplica ev.1 ev.2 s) s evs.

(** A session with the replica [r1] registered at [/tmp/a/] and the
    change [x] recorded for it. *)
Definition session_r1 : session :=
  Session {["r1" := ReplicaEntry "/tmp/a/" "/tmp/a/"]} ["r1"] ∅
          {["r1" := Branch [("x", Dirty)]]} false {["/tmp/a/"]} [].

(** A trace without what was written to standard error. *)
Fixpoint without_log (tr : list io_event) : list io_event :=
  match tr with
  | [] => []
  | StderrWrite _ :: tr' => without_log tr'
  | e :: tr' => e :: without_log tr'
  end.

(** Two sessions that differ at most in [_in_debug] and in the log. *)
Definition same_but_log (s1 s2 : session) : Prop :=
  replicas s1 = replicas s2
  /\ replicas_order s1 = replicas_order s2
  /\ pending_reps s1 = pending_reps s2
  /\ triggered_reps s1 = triggered_reps s2
  /\ observer s1 = observer s2
  /\ without_log (trace s1) = without_log (trace s2).

Definition same_outcome {A} (r1 r2 : result A) : Prop :=
  match r1, r2 with
  | Ret a1 s1, Ret a2 s2 => a1 = a2 /\ same_but_log s1 s2
  | Exit k1 s1, Exit k2 s2 => k1 = k2 /\ same_but_log s1 s2
  | _, _ => False
  end.

(** The lines of a registration sub-loop: one [DIR] per path, then
    [DONE]. *)
Definition subloop_lines (paths : list string) : list env_event :=
  map (fun p => Readline (raw_cmd_of "DIR" (ArgList [p]) +:+ nl)) paths
  ++ [line_of "DONE"].

(** The reply words of the script. *)
Definition reply_words : list string :=
  ["VERSION"; "OK"; "ERROR"; "CHANGES"; "RECURSIVE"; "DONE"].

Definition not_newline (c : ascii) : bool := negb (Ascii.eqb c (ascii_of_nat 10)).

(** One complete line of the protocol: a reply word, its quoted
    arguments, and a newline that is the only one in the text. *)
Definition protocol_line (text : string) : Prop :=
  exists cmd args,
    cmd ∈ reply_words
    /\ text = raw_cmd_of cmd args +:+ nl
    /\ forall_chars not_newline (raw_cmd_of cmd args) = true.

Definition writes_ok (s : session) : Prop :=
  Forall protocol_line (stdout_writes (trace s)).

(** [replicas_order] lists the keys of [replicas], each once. *)
Definition dict_ok (s : session) : Prop :=
  NoDup (replicas_order s)
  /\ forall replica, replica ∈ replicas_order s <-> is_Some (replicas s !! replica).

(** Every registered replica has its watch scheduled. *)
Definition watches_scheduled (s : session) : Prop :=
  forall replica e, replicas s !! replica = Some e -> watch e ∈ observer s.

(** Two registered tokens hold one watch. *)
Definition watch_shared (s : session) : Prop :=
  exists r1 r2 e1 e2,
    r1 <> r2 /\ replicas s !! r1 = Some e1 /\ replicas s !! r2 = Some e2
    /\ watch e1 = watch e2.

(** * Properties *)

(** ** Strings *)

Lemma append_cons c (s t : string) : String c s +:+ t = String c (s +:+ t).
Proof. reflexivity. Qed.

Lemma append_nil_l (t : string) : "" +:+ t = t.
Proof. reflexivity. Qed.

Lemma append_nil_r (s : string) : s +:+ "" = s.
Proof. induction s as [|c s IH]; [done|]. by rewrite append_cons, IH. Qed.

Lemma append_assoc (a b c : string) : (a +:+ b) +:+ c = a +:+ (b +:+ c).
Proof. induction a as [|x a IH]; [done|]. by rewrite !append_cons, IH. Qed.

Lemma split_not_nil sep s : Py.split sep s <> [].
Proof.
  destruct s as [|c s]; simpl; [done|].
  destruct (Ascii.eqb c sep); [done|]. by destruct (Py.split sep s).
Qed.

(** Splitting at a separator splits the two sides independently. *)
Lemma split_app_sep sep a b :
  Py.split sep (a +:+ String sep b) = (Py.split sep a ++ Py.split sep b)%list.
Proof.
  induction a as [|c a IH]; [by rewrite append_nil_l; simpl; rewrite Ascii.eqb_refl|].
  rewrite append_cons. simpl.
  destruct (Ascii.eqb c sep); simpl; [by rewrite IH|].
  rewrite IH. destruct (Py.split sep a) eqn:E; [by apply split_not_nil in E|done].
Qed.

Lemma split_no_sep sep s : has_char sep s = false -> Py.split sep s = [s].
Proof.
  induction s as [|c s IH]; simpl; [done|].
  intros [Hc Hs]%orb_false_iff. rewrite Hc, (IH Hs). done.
Qed.

Lemma split_words_no_sep sep s : Forall (fun w => has_char sep w = false) (Py.split sep s).
Proof.
  induction s as [|c s IH]; simpl; [by repeat constructor|].
  destruct (Ascii.eqb c sep) eqn:E; [by constructor|].
  destruct (Py.split sep s) as [|w ws]; [by repeat constructor; simpl; rewrite E|].
  inversion IH; subst. constructor; [simpl; by rewrite E|done].
Qed.

Lemma join_split sep s : join (String sep "") (Py.split sep s) = s.
Proof.
  induction s as [|c s IH]; simpl; [done|].
  destruct (Ascii.eqb c sep) eqn:E.
  - apply Ascii.eqb_eq in E as ->.
    destruct (Py.split sep s) eqn:Es; [by apply split_not_nil in Es|].
    simpl in *. by rewrite IH.
  - destruct (Py.split sep s) as [|w ws] eqn:Es; [by apply split_not_nil in Es|].
    destruct ws; simpl in *; rewrite <- IH; by rewrite ?append_cons.
Qed.

Lemma split_join sep ws :
  ws <> [] -> Forall (fun w => has_char sep w = false) ws ->
  Py.split sep (join (String sep "") ws) = ws.
Proof.
  induction ws as [|w ws IH]; [done|]. intros _ Hall.
  inversion Hall as [|? ? Hw Hws]; subst.
  destruct ws as [|w' ws].
  - by apply split_no_sep.
  - change (join (String sep "") (w :: w' :: ws))
      with (w +:+ String sep "" +:+ join (String sep "") (w' :: ws)).
    rewrite append_cons, append_nil_l.
    rewrite split_app_sep, split_no_sep by done. rewrite IH by done. done.
Qed.

Lemma has_char_startswith c s : has_char c s = false -> Py.startswith (String c "") s = false.
Proof.
  destruct s as [|a s]; simpl; [done|].
  intros [Ha _]%orb_false_iff. rewrite Ascii.eqb_sym in Ha. by rewrite Ha.
Qed.

Lemma endswith_char_app c a t :
  t <> "" -> Py.endswith_char c (a +:+ t) = Py.endswith_char c t.
Proof.
  intros Ht. induction a as [|x a IH]; [done|].
  rewrite append_cons. simpl. rewrite IH.
  destruct (a +:+ t) eqn:E; [|done].
  destruct a; [by rewrite append_nil_l in E|by rewrite append_cons in E].
Qed.

Lemma endswith_char_has_char c s : has_char c s = false -> Py.endswith_char c s = false.
Proof.
  induction s as [|a s IH]; simpl; [done|].
  intros [Ha Hs]%orb_false_iff. destruct s; [done|]. by apply IH.
Qed.

Lemma eqb_empty_false (s : string) : s <> "" -> String.eqb s "" = false.
Proof. by destruct s. Qed.

(** ** [pathTokenize] *)

Lemma pathTokenize_empty : pathTokenize "" = [].
Proof. reflexivity. Qed.

Lemma pathTokenize_valid path : Forall valid_tok (pathTokenize path).
Proof.
  unfold pathTokenize. apply Forall_forall. intros tok [Hlen Hin]%list_elem_of_filter.
  split; [by destruct tok; simpl in Hlen; [lia|]|].
  by apply (proj1 (Forall_forall _ _) (split_words_no_sep "/" path)).
Qed.

Lemma pathTokenize_tok tok : valid_tok tok -> pathTokenize tok = [tok].
Proof.
  intros [Hne Hs]. unfold pathTokenize. rewrite split_no_sep by done.
  rewrite filter_cons_True; [done|]. destruct tok; simpl; [done|lia].
Qed.

Lemma pathTokenize_app_slash a b :
  pathTokenize (a +:+ "/" +:+ b) = pathTokenize a ++ pathTokenize b.
Proof.
  unfold pathTokenize.
  change ("/" +:+ b) with (String "/" b).
  by rewrite split_app_sep, filter_app.
Qed.

Lemma pathTokenize_slash_l b : pathTokenize ("/" +:+ b) = pathTokenize b.
Proof. apply (pathTokenize_app_slash "" b). Qed.

Lemma pathTokenize_slash_r a : pathTokenize (a +:+ "/") = pathTokenize a.
Proof.
  rewrite <- (append_nil_r "/"), pathTokenize_app_slash, pathTokenize_empty.
  apply app_nil_r.
Qed.

(** Joining valid tokens the way [reportRecursiveChanges] does and
    tokenizing the result gives the tokens back. *)
Lemma pathTokenize_path_join acc tok :
  acc = "" \/ Py.endswith_char "/" acc = false ->
  valid_tok tok ->
  pathTokenize (Py.path_join acc tok) = pathTokenize acc ++ [tok]
  /\ Py.endswith_char "/" (Py.path_join acc tok) = false.
Proof.
  intros Hacc Htok. pose proof Htok as [Hne Hs].
  unfold Py.path_join. rewrite (has_char_startswith _ _ Hs).
  destruct (decide (acc = "")) as [->|Hacc'].
  - simpl. rewrite append_nil_l, pathTokenize_tok by done.
    split; [done|]. by apply endswith_char_has_char.
  - destruct Hacc as [?|Hacc]; [done|].
    rewrite eqb_empty_false, Hacc by done. simpl. split.
    + by rewrite pathTokenize_app_slash, (pathTokenize_tok tok).
    + rewrite <- append_assoc, endswith_char_app by done.
      by apply endswith_char_has_char.
Qed.

Lemma pathTokenize_foldl_path_join route acc :
  acc = "" \/ Py.endswith_char "/" acc = false ->
  Forall valid_tok route ->
  pathTokenize (foldl Py.path_join acc route) = pathTokenize acc ++ route.
Proof.
  revert acc. induction route as [|tok route IH]; intros acc Hacc Hall; simpl.
  - by rewrite app_nil_r.
  - inversion Hall; subst.
    destruct (pathTokenize_path_join acc tok) as [Ht He]; [done..|].
    rewrite IH by auto. rewrite Ht. by rewrite <- app_assoc.
Qed.

Lemma pathTokenize_route route :
  Forall valid_tok route -> pathTokenize (foldl Py.path_join "" route) = route.
Proof. intros H. rewrite pathTokenize_foldl_path_join by auto. done. Qed.

(** ** Levels of the tree as Python dicts *)

Lemma dict_get_set_eq tok v d : dict_get tok (dict_set tok v d) = Some v.
Proof.
  induction d as [|[k w] d IH]; simpl.
  - by rewrite String.eqb_refl.
  - destruct (String.eqb k tok) eqn:E; simpl; by rewrite E.
Qed.

Lemma dict_get_set_ne tok tok' v d :
  tok <> tok' -> dict_get tok' (dict_set tok v d) = dict_get tok' d.
Proof.
  intros Hne. induction d as [|[k w] d IH]; simpl.
  - destruct (String.eqb tok tok') eqn:E; [by apply String.eqb_eq in E|done].
  - destruct (String.eqb k tok) eqn:E; simpl; [|by rewrite IH].
    apply String.eqb_eq in E as ->.
    destruct (String.eqb tok tok') eqn:E; [by apply String.eqb_eq in E|done].
Qed.

Lemma dict_get_Some tok n d : dict_get tok d = Some n -> (tok, n) ∈ d.
Proof.
  induction d as [|[k w] d IH]; simpl; [done|].
  destruct (String.eqb k tok) eqn:E.
  - apply String.eqb_eq in E as ->. intros [= ->]. left.
  - intros H. right. auto.
Qed.

Lemma dict_get_None tok d : dict_get tok d = None -> tok ∉ map fst d.
Proof.
  induction d as [|[k w] d IH]; simpl; [intros _; apply not_elem_of_nil|].
  destruct (String.eqb k tok) eqn:E; [done|]. intros H.
  apply String.eqb_neq in E. rewrite not_elem_of_cons. auto.
Qed.

Lemma dict_get_first tok n d :
  NoDup (map fst d) -> (tok, n) ∈ d -> dict_get tok d = Some n.
Proof.
  induction d as [|[k w] d IH]; simpl; [by intros _ ?%elem_of_nil|].
  intros [Hk Hd]%NoDup_cons [[= -> ->]|Hin]%elem_of_cons.
  - by rewrite String.eqb_refl.
  - destruct (String.eqb k tok) eqn:E; [|auto].
    apply String.eqb_eq in E as ->. exfalso. apply Hk.
    apply list_elem_of_fmap. by exists (tok, n).
Qed.

Lemma dict_set_keys tok v d :
  map fst (dict_set tok v d)
  = match dict_get tok d with
    | Some _ => map fst d
    | None => map fst d ++ [tok]
    end.
Proof.
  induction d as [|[k w] d IH]; simpl; [done|].
  destruct (String.eqb k tok) eqn:E; simpl; [done|].
  rewrite IH. by destruct (dict_get tok d).
Qed.

Lemma dict_set_NoDup tok v d : NoDup (map fst d) -> NoDup (map fst (dict_set tok v d)).
Proof.
  intros Hd. rewrite dict_set_keys. destruct (dict_get tok d) eqn:E; [done|].
  apply NoDup_app. split_and!; [done| |apply NoDup_singleton].
  intros k Hk ->%list_elem_of_singleton. by apply dict_get_None in E.
Qed.

Lemma dict_set_Forall (P : string * node -> Prop) tok v d :
  Forall P d -> P (tok, v) -> Forall P (dict_set tok v d).
Proof.
  intros Hd Hv. induction Hd as [|[k w] d Hw Hd IH]; simpl.
  - by constructor.
  - destruct (String.eqb k tok) eqn:E; constructor; auto.
    by apply String.eqb_eq in E as ->.
Qed.

Lemma dict_set_not_nil tok v d : dict_set tok v d <> [].
Proof. destruct d as [|[k w] d]; simpl; [done|]. by destruct (String.eqb k tok). Qed.

(** ** The trigger tree *)

(** Induction on trees, with the hypothesis for every value of a level. *)
Lemma node_ind (P : node -> Prop) :
  P Dirty ->
  (forall d, Forall (fun kv => P kv.2) d -> P (Branch d)) ->
  forall t, P t.
Proof.
  intros HD HB. fix IH 1. intros [|d]; [exact HD|].
  apply HB. induction d as [|[k n] d IHd]; constructor; [apply IH|exact IHd].
Qed.

Lemma take_last_snoc {A} (l : list A) (x d : A) :
  take (length (l ++ [x]) - 1) (l ++ [x]) = l /\ List.last (l ++ [x]) d = x.
Proof.
  split.
  - rewrite length_app. simpl. replace (length l + 1 - 1) with (length l) by lia.
    by rewrite take_app_length.
  - apply last_last.
Qed.

Lemma trigger_walk_record branches leaf t :
  trigger_walk branches leaf t = record (branches ++ [leaf]) t.
Proof.
  revert t. induction branches as [|tok rest IH]; intros [|d]; simpl; try done.
  rewrite IH. by destruct (dict_get tok d).
Qed.

(** [triggerReplica] computes [record], started from a fresh dict when
    the replica has no entry. *)
Lemma trigger_tree_record cur toks :
  trigger_tree cur toks = record toks (default (Branch []) cur).
Proof.
  destruct toks as [|tok toks _] using rev_ind; [done|].
  unfold trigger_tree.
  destruct (take_last_snoc toks tok "") as [-> ->].
  rewrite trigger_walk_record.
  destruct (toks ++ [tok]) eqn:E; [by destruct toks|done].
Qed.

Lemma record_Dirty toks : record toks Dirty = Dirty.
Proof. by destruct toks. Qed.

Lemma record_not_empty toks t : t <> Branch [] -> record toks t <> Branch [].
Proof.
  destruct toks as [|tok rest]; [done|]. destruct t as [|d]; [done|].
  simpl. intros _ [= H]. by apply dict_set_not_nil in H.
Qed.

Lemma record_fresh_not_empty toks : toks <> [] -> record toks (Branch []) <> Branch [].
Proof. destruct toks; [done|]. simpl. done. Qed.

Lemma tree_ok_empty : tree_ok (Branch []).
Proof. constructor; simpl; [apply NoDup_nil_2|constructor]. Qed.

Lemma tree_ok_child tok d :
  tree_ok (Branch d) ->
  tree_ok (default (Branch []) (dict_get tok d))
  /\ (dict_get tok d = None \/ default (Branch []) (dict_get tok d) <> Branch []).
Proof.
  inversion 1 as [|? Hnd Hall]; subst.
  destruct (dict_get tok d) as [n|] eqn:E; simpl; [|split; [apply tree_ok_empty|by left]].
  apply dict_get_Some in E. rewrite Forall_forall in Hall.
  destruct (Hall _ E) as [? ?]. split; [done|by right].
Qed.

(** Recording a change keeps every level a dict and leaves no branch
    without a marker below it. *)
Lemma record_ok toks : forall t, tree_ok t -> tree_ok (record toks t).
Proof.
  induction toks as [|tok rest IH]; intros t Ht; simpl; [constructor|].
  destruct t as [|d]; [constructor|].
  destruct (tree_ok_child tok d Ht) as [Hc Hne].
  inversion Ht as [|? Hnd Hall]; subst.
  constructor; [by apply dict_set_NoDup|].
  apply dict_set_Forall; [done|]. simpl. split; [by apply IH|].
  destruct rest as [|tok' rest']; [done|].
  destruct Hne as [->|Hne]; [by apply record_fresh_not_empty|by apply record_not_empty].
Qed.

(** *** Markers and what they cover *)

Lemma covered_fresh q : covered q (Branch []) = false.
Proof. by destruct q. Qed.

Lemma covered_Dirty q : covered q Dirty = true.
Proof. by destruct q. Qed.

Lemma dirty_at_fresh r : ~ dirty_at r (Branch []).
Proof. by destruct r. Qed.

Lemma dirty_at_Dirty r : dirty_at r Dirty -> r = [].
Proof. by destruct r. Qed.

(** After a change is recorded the tree covers what it covered before
    and the subtree of the recorded path, and nothing else. *)
Lemma covered_record toks : forall t q,
  covered q (record toks t) = covered q t || bool_decide (toks `prefix_of` q).
Proof.
  induction toks as [|tok rest IH]; intros t q.
  - rewrite bool_decide_eq_true_2 by apply prefix_nil.
    by rewrite orb_true_r, covered_Dirty.
  - destruct t as [|d]; [by rewrite record_Dirty, covered_Dirty|].
    destruct q as [|k q']; [done|]. simpl.
    destruct (decide (tok = k)) as [->|Hne].
    + rewrite dict_get_set_eq, IH.
      assert (bool_decide (rest `prefix_of` q') = bool_decide (k :: rest `prefix_of` k :: q')) as ->.
      { apply bool_decide_ext. split; [apply prefix_cons|apply prefix_cons_inv_2]. }
      destruct (dict_get k d); simpl; [done|by rewrite covered_fresh].
    + rewrite dict_get_set_ne by done.
      rewrite (bool_decide_eq_false_2 (_ `prefix_of` _)); [by rewrite orb_false_r|].
      by intros H%prefix_cons_inv_1.
Qed.

(** A marker stays where it is unless the recorded path is at or above
    it, in which case the marker of the recorded path takes over. *)
Lemma dirty_at_record_keep toks : forall t r,
  dirty_at r t ->
  dirty_at r (record toks t) \/ (toks `prefix_of` r /\ dirty_at toks (record toks t)).
Proof.
  unfold dirty_at. induction toks as [|tok rest IH]; intros t r Hr; simpl.
  - right. split; [apply prefix_nil|done].
  - destruct t as [|d]; [by left|]. destruct r as [|k r']; [done|]. simpl in *.
    destruct (decide (tok = k)) as [->|Hne].
    + rewrite dict_get_set_eq. destruct (dict_get k d) as [n|]; [|done]. simpl.
      destruct (IH n r' Hr) as [?|[? ?]]; [by left|right].
      split; [by apply prefix_cons|done].
    + left. by rewrite dict_get_set_ne.
Qed.

(** Recording creates no marker but the one at the recorded path. *)
Lemma dirty_at_record_inv toks : forall t r,
  dirty_at r (record toks t) -> dirty_at r t \/ r = toks.
Proof.
  unfold dirty_at. induction toks as [|tok rest IH]; intros t r; simpl.
  - intros ->%dirty_at_Dirty. by right.
  - destruct t as [|d]; [by left|]. destruct r as [|k r']; [done|]. simpl.
    destruct (decide (tok = k)) as [->|Hne].
    + rewrite dict_get_set_eq. intros [Hr| ->]%IH; [|by right].
      destruct (dict_get k d); simpl in *; [by left|by apply dirty_at_fresh in Hr].
    + rewrite dict_get_set_ne by done. by left.
Qed.

(** The recorded path carries a marker afterwards, unless a marker
    strictly above it was there already. *)
Lemma dirty_at_record_self toks : forall t,
  dirty_at toks (record toks t)
  \/ exists r, r `prefix_of` toks /\ r <> toks /\ dirty_at r t.
Proof.
  unfold dirty_at. induction toks as [|tok rest IH]; intros t; simpl; [by left|].
  destruct t as [|d].
  - right. exists []. split_and!; [apply prefix_nil|done|done].
  - rewrite dict_get_set_eq.
    destruct (IH (default (Branch []) (dict_get tok d))) as [?|(r & Hp & Hne & Hr)]; [by left|].
    destruct (dict_get tok d) as [n|] eqn:E; simpl in *; [|by apply dirty_at_fresh in Hr].
    right. exists (tok :: r). split_and!; [by apply prefix_cons|congruence|].
    simpl. by rewrite E.
Qed.

Lemma covered_dirty q : forall t,
  covered q t = true <-> exists r, r `prefix_of` q /\ dirty_at r t.
Proof.
  unfold dirty_at. induction q as [|k q' IH]; intros [|d]; simpl.
  - split; [|done]. intros _. exists []. done.
  - split; [done|]. by intros (r & ->%prefix_nil_inv & Hr).
  - split; [|done]. intros _. exists []. split; [apply prefix_nil|done].
  - destruct (dict_get k d) as [n|] eqn:E.
    + rewrite IH. split.
      * intros (r & Hp & Hr). exists (k :: r). split; [by apply prefix_cons|].
        simpl. by rewrite E.
      * intros ([|k' r] & Hp & Hr); [done|].
        pose proof (prefix_cons_inv_1 _ _ _ _ Hp) as ->.
        apply prefix_cons_inv_2 in Hp. simpl in Hr. rewrite E in Hr. eauto.
    + split; [done|]. intros ([|k' r] & Hp & Hr); [done|].
      pose proof (prefix_cons_inv_1 _ _ _ _ Hp) as ->.
      simpl in Hr. by rewrite E in Hr.
Qed.

(** No marker lies below another. *)
Lemma dirty_antichain r1 : forall t r2,
  dirty_at r1 t -> dirty_at r2 t -> r1 `prefix_of` r2 -> r1 = r2.
Proof.
  unfold dirty_at. induction r1 as [|k r1 IH]; intros t r2; simpl.
  - intros [= ->] H2 _. symmetry. by apply dirty_at_Dirty.
  - destruct t as [|d]; [done|]. destruct r2 as [|k2 r2]; [by intros _ _ ?%prefix_nil_not|].
    intros H1 H2 Hp. pose proof (prefix_cons_inv_1 _ _ _ _ Hp) as ->.
    apply prefix_cons_inv_2 in Hp. simpl in H2.
    destruct (dict_get k2 d) as [n|]; [|done]. f_equal. eauto.
Qed.

(** A path lies under at most one marker. *)
Lemma dirty_cover_unique t r1 r2 q :
  dirty_at r1 t -> dirty_at r2 t -> r1 `prefix_of` q -> r2 `prefix_of` q -> r1 = r2.
Proof.
  intros H1 H2 P1 P2.
  destruct (prefix_weak_total _ _ _ P1 P2); [|symmetry]; eauto using dirty_antichain.
Qed.

(** *** The routes [reportRecursiveChanges] walks *)

Lemma routes_cons tok n d :
  routes (Branch ((tok, n) :: d)) = map (cons tok) (routes n) ++ routes (Branch d).
Proof. reflexivity. Qed.

Lemma reported_cons local_path tok n d :
  reported local_path (Branch ((tok, n) :: d))
  = reported (Py.path_join local_path tok) n ++ reported local_path (Branch d).
Proof. reflexivity. Qed.

Lemma reported_routes t : forall local_path,
  reported local_path t = map (foldl Py.path_join local_path) (routes t).
Proof.
  induction t as [|d IH] using node_ind; intros local_path; [done|].
  induction IH as [|[tok n] d Hn _ IHd]; [done|].
  rewrite reported_cons, routes_cons, map_app, IHd. f_equal.
  simpl in Hn. rewrite Hn, map_map. done.
Qed.

Lemma tree_ok_tail tok n d : tree_ok (Branch ((tok, n) :: d)) ->
  tree_ok n /\ (tok ∉ map fst d) /\ tree_ok (Branch d).
Proof.
  inversion 1 as [|? Hnd Hall]; subst.
  simpl in Hnd. apply NoDup_cons in Hnd as [Hk Hnd].
  inversion Hall as [|? ? [Hn _] Hd]; subst. split_and!; [done..|by constructor].
Qed.

Lemma routes_head r d : r ∈ routes (Branch d) -> exists tok r', r = tok :: r' /\ tok ∈ map fst d.
Proof.
  induction d as [|[tok n] d IH]; [by intros ?%elem_of_nil|].
  rewrite routes_cons. intros [Hr|Hr]%elem_of_app.
  - apply list_elem_of_fmap in Hr as (r' & -> & _). exists tok, r'. split; [done|left].
  - destruct (IH Hr) as (k & r' & -> & Hk). exists k, r'. split; [done|by right].
Qed.

(** The routes walked are the routes of the markers. *)
Lemma routes_dirty t : forall r, tree_ok t -> r ∈ routes t <-> dirty_at r t.
Proof.
  unfold dirty_at. induction t as [|d IH] using node_ind; intros r Hok.
  - simpl. rewrite list_elem_of_singleton. split; [by intros ->|apply dirty_at_Dirty].
  - induction IH as [|[tok n] d Hn _ IHd].
    + split; [by intros ?%elem_of_nil|by intros ?%dirty_at_fresh].
    + apply tree_ok_tail in Hok as (Hokn & Hk & Hokd).
      rewrite routes_cons, elem_of_app, (IHd Hokd). simpl in Hn.
      destruct r as [|k r']; simpl.
      * split; [|done]. intros [(? & ? & _)%list_elem_of_fmap|?]; done.
      * destruct (String.eqb tok k) eqn:E.
        -- apply String.eqb_eq in E as ->. rewrite <- (Hn r' Hokn). split.
           ++ intros [(r0 & [= ->] & ?)%list_elem_of_fmap|Hd]; [done|].
              destruct (dict_get k d) eqn:Eg; [|done].
              apply dict_get_Some in Eg. exfalso. apply Hk.
              apply list_elem_of_fmap. by eexists (k, _).
           ++ intros ?. left. by apply list_elem_of_fmap_2.
        -- apply String.eqb_neq in E. split; [|by right].
           intros [(r0 & [= ? ?] & ?)%list_elem_of_fmap|Hd]; done.
Qed.

Lemma routes_NoDup t : tree_ok t -> NoDup (routes t).
Proof.
  induction t as [|d IH] using node_ind; intros Hok; [apply NoDup_singleton|].
  induction IH as [|[tok n] d Hn _ IHd]; [apply NoDup_nil_2|].
  apply tree_ok_tail in Hok as (Hokn & Hk & Hokd).
  rewrite routes_cons. apply NoDup_app. split_and!; [|  |by apply IHd].
  - apply (NoDup_fmap_2 _). by apply Hn.
  - intros r (r' & -> & _)%list_elem_of_fmap (k & r0 & [= <- _] & Hin)%routes_head. done.
Qed.

Lemma node_at_below_dirty r : forall t r',
  dirty_at r t -> r `prefix_of` r' -> r <> r' -> node_at r' t = None.
Proof.
  unfold dirty_at. induction r as [|k r IH]; intros t r'; simpl.
  - intros [= ->] _ Hne. by destruct r'.
  - destruct t as [|d]; [done|]. destruct r' as [|k' r']; [by intros _ ?%prefix_nil_not|].
    intros Hr Hp Hne. pose proof (prefix_cons_inv_1 _ _ _ _ Hp) as ->.
    apply prefix_cons_inv_2 in Hp. simpl.
    destruct (dict_get k' d) as [n|]; [|done]. apply IH; [done..|congruence].
Qed.

(** *** One call of [triggerReplica] on the entry of its replica *)

Lemma trigger_tree_ok cur toks : entry_ok cur -> entry_ok (Some (trigger_tree cur toks)).
Proof.
  rewrite trigger_tree_record. destruct cur as [t|]; simpl.
  - intros [Hok Hne]. split; [by apply record_ok|by apply record_not_empty].
  - intros _. split; [apply record_ok, tree_ok_empty|].
    destruct toks; [done|by apply record_fresh_not_empty].
Qed.

Lemma trigger_tree_covered cur toks q :
  covered q (trigger_tree cur toks) = entry_covered q cur || bool_decide (toks `prefix_of` q).
Proof.
  rewrite trigger_tree_record, covered_record.
  destruct cur; simpl; [done|by rewrite covered_fresh].
Qed.

Lemma trigger_tree_dirty_inv cur toks r :
  dirty_at r (trigger_tree cur toks) -> entry_dirty_at r cur \/ r = toks.
Proof.
  rewrite trigger_tree_record. intros [H|H]%dirty_at_record_inv; [|by right].
  destruct cur; simpl in *; [by left|by apply dirty_at_fresh in H].
Qed.

Lemma trigger_tree_dirty_keep cur toks r :
  entry_dirty_at r cur ->
  dirty_at r (trigger_tree cur toks)
  \/ (toks `prefix_of` r /\ dirty_at toks (trigger_tree cur toks)).
Proof.
  rewrite trigger_tree_record. destruct cur; simpl; [|done]. apply dirty_at_record_keep.
Qed.

Lemma trigger_tree_dirty_self cur toks :
  dirty_at toks (trigger_tree cur toks)
  \/ exists r, r `prefix_of` toks /\ r <> toks /\ entry_dirty_at r cur.
Proof.
  rewrite trigger_tree_record.
  destruct (dirty_at_record_self toks (default (Branch []) cur)) as [?|(r & ? & ? & Hr)]; [by left|].
  right. exists r. destruct cur; simpl in *; [done|by apply dirty_at_fresh in Hr].
Qed.

(** *** A run of calls *)

Lemma record_all_snoc cur recs toks :
  record_all cur (recs ++ [toks]) = Some (trigger_tree (record_all cur recs) toks).
Proof. unfold record_all. by rewrite foldl_app. Qed.

Lemma record_all_ok recs : entry_ok (record_all None recs).
Proof.
  induction recs as [|toks recs IH] using rev_ind; [done|].
  rewrite record_all_snoc. by apply trigger_tree_ok.
Qed.

(** Every marker sits at a recorded path. *)
Lemma record_all_dirty recs r :
  entry_dirty_at r (record_all None recs) -> r ∈ recs.
Proof.
  induction recs as [|toks recs IH] using rev_ind; [done|].
  rewrite record_all_snoc. simpl. rewrite elem_of_app, list_elem_of_singleton.
  intros [?| ->]%trigger_tree_dirty_inv; auto.
Qed.

(** The tree covers the subtrees of the recorded paths and nothing else. *)
Lemma record_all_covered recs q :
  entry_covered q (record_all None recs) = true <-> exists toks, toks ∈ recs /\ toks `prefix_of` q.
Proof.
  induction recs as [|toks recs IH] using rev_ind.
  - split; [done|]. by intros (? & ?%elem_of_nil & _).
  - rewrite record_all_snoc. simpl. rewrite trigger_tree_covered, orb_true_iff, IH.
    rewrite bool_decide_eq_true. split.
    + intros [(p & ? & ?)|?]; [exists p|exists toks]; rewrite elem_of_app, list_elem_of_singleton; auto.
    + intros (p & [?| ->%list_elem_of_singleton]%elem_of_app & ?); eauto.
Qed.

Lemma record_all_Dirty recs : record_all (Some Dirty) recs = Some Dirty.
Proof.
  induction recs as [|toks recs IH] using rev_ind; [done|].
  by rewrite record_all_snoc, IH, trigger_tree_record, record_Dirty.
Qed.

(** ** Effects of the codec on the session *)

Lemma stdout_writes_app tr1 tr2 :
  stdout_writes (tr1 ++ tr2) = stdout_writes tr1 ++ stdout_writes tr2.
Proof.
  induction tr1 as [|e tr1 IH]; [done|]. destruct e; simpl; by rewrite ?IH.
Qed.

Ltac unfold_io :=
  unfold sendAck, injectCmd, sendCmd, warn, _debug, when, emit, schedule,
    replicas_setitem, replicas_delitem,
    set_pending_reps, set_triggered_reps, set_replicas, set_replicas_order,
    set_observer, set_in_debug.

Lemma sendCmd_globals cmd args s :
  replicas (sendCmd cmd args s) = replicas s
  /\ pending_reps (sendCmd cmd args s) = pending_reps s
  /\ triggered_reps (sendCmd cmd args s) = triggered_reps s
  /\ in_debug (sendCmd cmd args s) = in_debug s
  /\ observer (sendCmd cmd args s) = observer s.
Proof. unfold_io. destruct (in_debug s) eqn:E; simpl; by rewrite ?E. Qed.

Lemma sendCmd_stdout cmd args s :
  stdout_writes (trace (sendCmd cmd args s))
  = stdout_writes (trace s) ++ [raw_cmd_of cmd args +:+ nl].
Proof.
  unfold_io. destruct (in_debug s); simpl; rewrite !stdout_writes_app; simpl;
    by rewrite ?app_nil_r.
Qed.

Lemma sendCmd_last cmd args s :
  last (trace (sendCmd cmd args s)) = Some (StdoutWrite (raw_cmd_of cmd args +:+ nl)).
Proof. unfold_io. destruct (in_debug s); simpl; by rewrite last_snoc. Qed.

Lemma triggerReplica_tree replica toks s :
  triggered_reps (triggerReplica replica toks s) !! replica
  = Some (trigger_tree (triggered_reps s !! replica) toks).
Proof.
  unfold triggerReplica. destruct (decide _); unfold_io; [destruct (in_debug s)|];
    simpl; by rewrite lookup_insert_eq.
Qed.

Lemma trigger_all_tree replica recs : forall s,
  triggered_reps (trigger_all replica recs s) !! replica
  = record_all (triggered_reps s !! replica) recs.
Proof.
  unfold trigger_all, record_all.
  induction recs as [|toks recs IH]; intros s; simpl; [done|].
  by rewrite IH, triggerReplica_tree.
Qed.

(** ** Claims about the trigger tree *)

(** C1. After any run of [triggerReplica] calls for a replica that had no
    pending entry, the paths reported for it are free of duplicates; each
    recorded path lies under exactly one reported path; each reported
    path is one of the recorded paths; and no reported path lies under
    another. Recorded paths are lists of path tokens, and the reported
    strings are read back as token lists by [pathTokenize]. *)
Theorem drain_minimal_cover replica (recs : list (list string)) s :
  triggered_reps s !! replica = None ->
  Forall (Forall valid_tok) recs ->
  let out := drain replica (trigger_all replica recs s) in
  NoDup out
  /\ (forall toks, toks ∈ recs ->
        exists e, e ∈ out /\ pathTokenize e `prefix_of` toks
                  /\ forall e', e' ∈ out -> pathTokenize e' `prefix_of` toks -> e' = e)
  /\ (forall e, e ∈ out -> pathTokenize e ∈ recs)
  /\ (forall e1 e2, e1 ∈ out -> e2 ∈ out ->
        pathTokenize e1 `prefix_of` pathTokenize e2 -> e1 = e2).
Proof.
  intros Hnone Hvalid. unfold drain. rewrite trigger_all_tree, Hnone.
  pose proof (record_all_ok recs) as Hok.
  pose proof (record_all_dirty recs) as Hdirty.
  pose proof (record_all_covered recs) as Hcov.
  destruct (record_all None recs) as [t|] eqn:Et; simpl in *.
  2:{ split_and!; [apply NoDup_nil_2| |by intros ? ?%elem_of_nil|by intros ? ? ?%elem_of_nil].
      intros toks Hin. exfalso.
      assert (false = true) as [=]. apply (Hcov toks). by exists toks. }
  destruct Hok as [Hok _]. rewrite reported_routes.
  set (J := foldl Py.path_join "").
  assert (Hroute : forall r, r ∈ routes t -> dirty_at r t /\ r ∈ recs /\ pathTokenize (J r) = r).
  { intros r Hr. apply routes_dirty in Hr; [|done]. split_and!; [done|by apply Hdirty|].
    apply pathTokenize_route. rewrite Forall_forall in Hvalid. by apply Hvalid, Hdirty. }
  assert (Hout : forall e, e ∈ map J (routes t) ->
                   exists r, e = J r /\ dirty_at r t /\ r ∈ recs /\ pathTokenize e = r).
  { intros e (r & -> & Hr)%list_elem_of_fmap. exists r.
    destruct (Hroute r Hr) as (? & ? & ?). done. }
  split_and!.
  - apply NoDup_fmap_2_strong; [|by apply routes_NoDup].
    intros r1 r2 H1 H2 HJ.
    destruct (Hroute r1 H1) as (_ & _ & <-), (Hroute r2 H2) as (_ & _ & <-).
    by rewrite HJ.
  - intros toks Hin.
    assert (covered toks t = true) as (r & Hp & Hr)%covered_dirty.
    { apply (Hcov toks). by exists toks. }
    pose proof Hr as Hr'. apply routes_dirty in Hr'; [|done].
    destruct (Hroute r Hr') as (_ & _ & HJ).
    exists (J r). split_and!; [by apply list_elem_of_fmap_2|by rewrite HJ|].
    intros e' (r' & -> & Hd' & _ & HJ')%Hout Hp'. rewrite HJ' in Hp'.
    f_equal. eauto using dirty_cover_unique.
  - intros e (r & -> & _ & Hin & ->)%Hout. done.
  - intros e1 e2 (r1 & -> & Hd1 & _ & ->)%Hout (r2 & -> & Hd2 & _ & ->)%Hout Hp.
    f_equal. eauto using dirty_antichain.
Qed.

Lemma drain_minimal_cover_witness :
  let recs := [["x"; "y"]; ["a"; "b"]; ["x"]] in
  let out := drain "r1" (trigger_all "r1" recs (initial false)) in
  triggered_reps (initial false) !! "r1" = None
  /\ Forall (Forall valid_tok) recs
  /\ out = ["x"; "a/b"]
  /\ NoDup out
  /\ (forall toks, toks ∈ recs ->
        exists e, e ∈ out /\ pathTokenize e `prefix_of` toks
                  /\ forall e', e' ∈ out -> pathTokenize e' `prefix_of` toks -> e' = e)
  /\ (forall e, e ∈ out -> pathTokenize e ∈ recs)
  /\ (forall e1 e2, e1 ∈ out -> e2 ∈ out ->
        pathTokenize e1 `prefix_of` pathTokenize e2 -> e1 = e2).
Proof.
  assert (H0 : triggered_reps (initial false) !! "r1" = None) by reflexivity.
  assert (Hv : Forall (Forall valid_tok) [["x"; "y"]; ["a"; "b"]; ["x"]]).
  { repeat constructor; discriminate. }
  split; [exact H0|]. split; [exact Hv|]. split; [reflexivity|].
  exact (drain_minimal_cover "r1" _ (initial false) H0 Hv).
Defined.

(** C5. One call of [triggerReplica] keeps the entry of its replica a
    well-formed, minimal tree: every level stays a dict and every branch
    leads to a marker; the recorded path carries a marker unless a marker
    above it was there already; a marker that was there stays, or gives
    way to the marker of the recorded path at or above it, and never turns
    into a branch; nothing is left below a marker; no marker lies under
    another; and the tree covers what it covered before together with the
    subtree of the recorded path, and nothing else. The entries of other
    replicas are not touched. *)
Theorem triggerReplica_keeps_tree_minimal replica toks s :
  entry_ok (triggered_reps s !! replica) ->
  let cur := triggered_reps s !! replica in
  let s' := triggerReplica replica toks s in
  exists t',
    triggered_reps s' !! replica = Some t'
    /\ entry_ok (Some t')
    /\ (dirty_at toks t'
        \/ exists r, r `prefix_of` toks /\ r <> toks /\ entry_dirty_at r cur)
    /\ (forall r, entry_dirty_at r cur ->
          dirty_at r t' \/ (toks `prefix_of` r /\ dirty_at toks t'))
    /\ (forall r r', dirty_at r t' -> r `prefix_of` r' -> r <> r' -> node_at r' t' = None)
    /\ (forall r1 r2, dirty_at r1 t' -> dirty_at r2 t' -> r1 `prefix_of` r2 -> r1 = r2)
    /\ (forall q, covered q t' = true <-> entry_covered q cur = true \/ toks `prefix_of` q)
    /\ (forall other, other <> replica ->
          triggered_reps s' !! other = triggered_reps s !! other).
Proof.
  intros Hok cur s'. exists (trigger_tree cur toks). split_and!.
  - apply triggerReplica_tree.
  - by apply trigger_tree_ok.
  - apply trigger_tree_dirty_self.
  - intros r. apply trigger_tree_dirty_keep.
  - intros r r' Hr Hp Hne. by apply (node_at_below_dirty r).
  - intros r1 r2 H1 H2 Hp. by apply (dirty_antichain r1 (trigger_tree cur toks)).
  - intros q. by rewrite trigger_tree_covered, orb_true_iff, bool_decide_eq_true.
  - intros other Hne. unfold s', triggerReplica.
    destruct (decide _); unfold_io; [destruct (in_debug s)|]; simpl;
      by rewrite lookup_insert_ne.
Qed.

Lemma triggerReplica_keeps_tree_minimal_witness :
  let s := trigger_all "r1" [["x"; "y"]; ["x"; "z"]] (initial false) in
  let s' := triggerReplica "r1" ["x"] s in
  entry_ok (triggered_reps s !! "r1")
  /\ triggered_reps s !! "r1" = Some (Branch [("x", Branch [("y", Dirty); ("z", Dirty)])])
  /\ triggered_reps s' !! "r1" = Some (Branch [("x", Dirty)])
  /\ exists t', triggered_reps s' !! "r1" = Some t' /\ entry_ok (Some t').
Proof.
  assert (Hok : entry_ok (triggered_reps
                  (trigger_all "r1" [["x"; "y"]; ["x"; "z"]] (initial false)) !! "r1")).
  { rewrite trigger_all_tree. apply record_all_ok. }
  split; [exact Hok|]. split; [reflexivity|]. split; [reflexivity|].
  destruct (triggerReplica_keeps_tree_minimal "r1" ["x"] _ Hok) as (t' & Ht & Hok' & _).
  exists t'. split; [exact Ht|exact Hok'].
Defined.

(** C6. If the empty path is among the paths recorded for a replica,
    wherever it stands in the run, the paths then reported for the replica
    are exactly one entry, the empty path. *)
Theorem root_change_reports_whole_replica replica before after s :
  drain replica (trigger_all replica (before ++ [] :: after) s) = [""].
Proof.
  unfold drain. rewrite trigger_all_tree. unfold record_all.
  rewrite foldl_app. simpl. fold (record_all (Some Dirty) after).
  by rewrite record_all_Dirty.
Qed.

(** ** Claims about [pathTokenize] and [Handler.dispatch] *)

Lemma startswith_app p s : Py.startswith p (p +:+ s) = true.
Proof.
  induction p as [|c p IH]; [done|]. rewrite append_cons. simpl.
  by rewrite Ascii.eqb_refl, IH.
Qed.

Lemma slice_from_app p s : Py.slice_from (String.length p) (p +:+ s) = s.
Proof.
  induction p as [|c p IH]; [by destruct s|]. rewrite append_cons. simpl. done.
Qed.

Lemma pathTokenize_join segs :
  Forall (fun w => has_char "/" w = false) segs ->
  pathTokenize (join "/" segs) = filter (fun w => w <> "") segs.
Proof.
  destruct segs as [|w segs]; [done|]. intros Hall.
  unfold pathTokenize. rewrite split_join by done.
  apply list_filter_iff. intros [|c x]; simpl; [split; [lia|done]|split; [done|lia]].
Qed.

Lemma pathTokenize_sep_variant l1 l2 :
  sep_variant l1 l2 -> pathTokenize l1 = pathTokenize l2.
Proof.
  induction 1 as [a b|a| | |]; try congruence.
  - change ("//" +:+ b) with ("/" +:+ "/" +:+ b).
    by rewrite !pathTokenize_app_slash, pathTokenize_slash_l.
  - by rewrite pathTokenize_slash_r.
Qed.

Lemma pathTokenize_only_separators l :
  only_separators l = true -> pathTokenize l = [].
Proof.
  induction l as [|c l IH]; [done|]. simpl.
  intros [->%Ascii.eqb_eq Hl]%andb_true_iff.
  change (String "/" l) with ("/" +:+ l). rewrite pathTokenize_slash_l. auto.
Qed.

(** What [triggerReplica] leaves in the globals and on standard output. *)
Lemma triggerReplica_effect replica toks s :
  let s' := triggerReplica replica toks s in
  triggered_reps s'
  = <[replica := trigger_tree (triggered_reps s !! replica) toks]> (triggered_reps s)
  /\ pending_reps s' = (if decide (replica ∈ pending_reps s) then ∅ else pending_reps s)
  /\ stdout_writes (trace s')
     = stdout_writes (trace s)
       ++ (if decide (replica ∈ pending_reps s)
           then ["CHANGES " +:+ Py.quote replica +:+ nl] else [])
  /\ replicas s' = replicas s /\ observer s' = observer s /\ in_debug s' = in_debug s.
Proof.
  unfold triggerReplica. destruct (decide _).
  - unfold_io. destruct (in_debug s) eqn:E; simpl;
      rewrite !stdout_writes_app; simpl; rewrite ?app_nil_r, ?E; done.
  - simpl. by rewrite app_nil_r.
Qed.

(** An event at [self_fspath] followed by [local_path] is recorded as the
    tokens of [local_path]. *)
Lemma dispatch_under_root self_fspath self_replica local_path s :
  let s' := dispatch self_fspath self_replica (self_fspath +:+ local_path) s in
  let toks := pathTokenize local_path in
  triggered_reps s'
  = <[self_replica := trigger_tree (triggered_reps s !! self_replica) toks]> (triggered_reps s)
  /\ pending_reps s' = (if decide (self_replica ∈ pending_reps s) then ∅ else pending_reps s)
  /\ stdout_writes (trace s')
     = stdout_writes (trace s)
       ++ (if decide (self_replica ∈ pending_reps s)
           then ["CHANGES " +:+ Py.quote self_replica +:+ nl] else [])
  /\ (in_debug s = false -> s' = triggerReplica self_replica toks s).
Proof.
  intros s' toks. subst s'. subst toks. unfold dispatch.
  rewrite startswith_app, slice_from_app. cbn [negb]. unfold when.
  destruct (in_debug s) eqn:E.
  - set (s0 := _debug _ s).
    destruct (triggerReplica_effect self_replica (pathTokenize local_path) s0)
      as (-> & -> & -> & _).
    subst s0. unfold_io. cbn [triggered_reps pending_reps trace].
    rewrite stdout_writes_app. cbn [stdout_writes]. by rewrite app_nil_r.
  - destruct (triggerReplica_effect self_replica (pathTokenize local_path) s)
      as (-> & -> & -> & _). done.
Qed.

(** C10. [pathTokenize] returns the non-empty segments of a path in order:
    for all separator-free segments, tokenizing their join keeps exactly
    the non-empty ones, every path is such a join, and every token is
    non-empty and separator-free. So two events under a replica root
    whose paths differ only in doubled or trailing separators leave the
    same tree, the same pending set and the same output; and an event whose
    path relative to the root is empty or made of separators only marks
    the whole replica dirty. *)
Theorem pathTokenize_segments :
  (forall segs, Forall (fun w => has_char "/" w = false) segs ->
     pathTokenize (join "/" segs) = filter (fun w => w <> "") segs)
  /\ (forall path, exists segs,
        Forall (fun w => has_char "/" w = false) segs /\ path = join "/" segs)
  /\ (forall path, Forall valid_tok (pathTokenize path))
  /\ (forall l1 l2 self_fspath self_replica s,
        sep_variant l1 l2 ->
        let s1 := dispatch self_fspath self_replica (self_fspath +:+ l1) s in
        let s2 := dispatch self_fspath self_replica (self_fspath +:+ l2) s in
        pathTokenize l1 = pathTokenize l2
        /\ triggered_reps s1 = triggered_reps s2
        /\ pending_reps s1 = pending_reps s2
        /\ stdout_writes (trace s1) = stdout_writes (trace s2))
  /\ (forall l self_fspath self_replica s,
        only_separators l = true ->
        pathTokenize l = []
        /\ triggered_reps (dispatch self_fspath self_replica (self_fspath +:+ l) s)
             !! self_replica = Some Dirty).
Proof.
  split_and!.
  - apply pathTokenize_join.
  - intros path. exists (Py.split "/" path).
    split; [apply split_words_no_sep|symmetry; apply join_split].
  - apply pathTokenize_valid.
  - intros l1 l2 f r s Hv s1 s2.
    destruct (dispatch_under_root f r l1 s) as (H1 & H2 & H3 & _).
    destruct (dispatch_under_root f r l2 s) as (H1' & H2' & H3' & _).
    pose proof (pathTokenize_sep_variant _ _ Hv) as E.
    unfold s1, s2. rewrite H1, H2, H3, H1', H2', H3', E. done.
  - intros l f r s Hl. pose proof (pathTokenize_only_separators l Hl) as E.
    split; [done|].
    destruct (dispatch_under_root f r l s) as (-> & _).
    by rewrite E, lookup_insert_eq.
Qed.

(** ** The controller *)

Ltac unfold_M :=
  unfold mbind, M_bind, mret, M_ret, lift, get, raise, sendError.

Lemma reportRecursiveChanges_cons local_path tok n d s :
  reportRecursiveChanges local_path (Branch ((tok, n) :: d)) s
  = reportRecursiveChanges local_path (Branch d)
      (reportRecursiveChanges (Py.path_join local_path tok) n s).
Proof. reflexivity. Qed.

(** [reportRecursiveChanges] sends one [RECURSIVE] per reported path and
    leaves the globals alone. *)
Lemma reportRecursiveChanges_effect t : forall local_path s,
  let s' := reportRecursiveChanges local_path t s in
  stdout_writes (trace s')
  = stdout_writes (trace s)
    ++ map (fun p => "RECURSIVE " +:+ Py.quote p +:+ nl) (reported local_path t)
  /\ replicas s' = replicas s /\ pending_reps s' = pending_reps s
  /\ triggered_reps s' = triggered_reps s /\ in_debug s' = in_debug s
  /\ observer s' = observer s.
Proof.
  induction t as [|d IH] using node_ind; intros local_path s.
  - cbn zeta. simpl reportRecursiveChanges.
    destruct (sendCmd_globals "RECURSIVE" (ArgList [local_path]) s) as (-> & -> & -> & -> & ->).
    by rewrite sendCmd_stdout.
  - revert s. induction IH as [|[tok n] d Hn _ IHd]; intros s.
    + simpl. by rewrite app_nil_r.
    + cbn zeta in *. rewrite reportRecursiveChanges_cons, reported_cons, map_app.
      simpl in Hn.
      destruct (IHd (reportRecursiveChanges (Py.path_join local_path tok) n s))
        as (-> & -> & -> & -> & -> & ->).
      destruct (Hn (Py.path_join local_path tok) s) as (-> & -> & -> & -> & -> & ->).
      by rewrite app_assoc.
Qed.

(** The codec and the loggers touch the streams only. *)
Section Globals.
Context (b : bool) (e : io_event) (cmd msg : string) (args : pyargs) (s : session).

Lemma replicas_emit : replicas (emit e s) = replicas s.
Proof. reflexivity. Qed.
Lemma replicas_when_debug : replicas (when b (_debug msg) s) = replicas s.
Proof. by destruct b. Qed.
Lemma replicas_warn : replicas (warn msg s) = replicas s.
Proof. reflexivity. Qed.
Lemma replicas_sendCmd : replicas (sendCmd cmd args s) = replicas s.
Proof. by destruct (sendCmd_globals cmd args s) as (? & ? & ? & ? & ?). Qed.
Lemma replicas_sendAck : replicas (sendAck s) = replicas s.
Proof. by destruct (sendCmd_globals "OK" (ArgList []) s) as (? & ? & ? & ? & ?). Qed.
Lemma pending_reps_emit : pending_reps (emit e s) = pending_reps s.
Proof. reflexivity. Qed.
Lemma pending_reps_when_debug : pending_reps (when b (_debug msg) s) = pending_reps s.
Proof. by destruct b. Qed.
Lemma pending_reps_warn : pending_reps (warn msg s) = pending_reps s.
Proof. reflexivity. Qed.
Lemma pending_reps_sendCmd : pending_reps (sendCmd cmd args s) = pending_reps s.
Proof. by destruct (sendCmd_globals cmd args s) as (? & ? & ? & ? & ?). Qed.
Lemma pending_reps_sendAck : pending_reps (sendAck s) = pending_reps s.
Proof. by destruct (sendCmd_globals "OK" (ArgList []) s) as (? & ? & ? & ? & ?). Qed.
Lemma triggered_reps_emit : triggered_reps (emit e s) = triggered_reps s.
Proof. reflexivity. Qed.
Lemma triggered_reps_when_debug : triggered_reps (when b (_debug msg) s) = triggered_reps s.
Proof. by destruct b. Qed.
Lemma triggered_reps_warn : triggered_reps (warn msg s) = triggered_reps s.
Proof. reflexivity. Qed.
Lemma triggered_reps_sendCmd : triggered_reps (sendCmd cmd args s) = triggered_reps s.
Proof. by destruct (sendCmd_globals cmd args s) as (? & ? & ? & ? & ?). Qed.
Lemma triggered_reps_sendAck : triggered_reps (sendAck s) = triggered_reps s.
Proof. by destruct (sendCmd_globals "OK" (ArgList []) s) as (? & ? & ? & ? & ?). Qed.
Lemma in_debug_emit : in_debug (emit e s) = in_debug s.
Proof. reflexivity. Qed.
Lemma in_debug_when_debug : in_debug (when b (_debug msg) s) = in_debug s.
Proof. by destruct b. Qed.
Lemma in_debug_warn : in_debug (warn msg s) = in_debug s.
Proof. reflexivity. Qed.
Lemma in_debug_sendCmd : in_debug (sendCmd cmd args s) = in_debug s.
Proof. by destruct (sendCmd_globals cmd args s) as (? & ? & ? & ? & ?). Qed.
Lemma in_debug_sendAck : in_debug (sendAck s) = in_debug s.
Proof. by destruct (sendCmd_globals "OK" (ArgList []) s) as (? & ? & ? & ? & ?). Qed.
Lemma observer_emit : observer (emit e s) = observer s.
Proof. reflexivity. Qed.
Lemma observer_when_debug : observer (when b (_debug msg) s) = observer s.
Proof. by destruct b. Qed.
Lemma observer_warn : observer (warn msg s) = observer s.
Proof. reflexivity. Qed.
Lemma observer_sendCmd : observer (sendCmd cmd args s) = observer s.
Proof. by destruct (sendCmd_globals cmd args s) as (? & ? & ? & ? & ?). Qed.
Lemma observer_sendAck : observer (sendAck s) = observer s.
Proof. by destruct (sendCmd_globals "OK" (ArgList []) s) as (? & ? & ? & ? & ?). Qed.
Lemma replicas_order_emit : replicas_order (emit e s) = replicas_order s.
Proof. reflexivity. Qed.
Lemma replicas_order_when_debug : replicas_order (when b (_debug msg) s) = replicas_order s.
Proof. by destruct b. Qed.
Lemma replicas_order_warn : replicas_order (warn msg s) = replicas_order s.
Proof. reflexivity. Qed.
Lemma replicas_order_sendCmd : replicas_order (sendCmd cmd args s) = replicas_order s.
Proof. unfold sendCmd, when, _debug, emit. by destruct (in_debug s). Qed.
Lemma replicas_order_sendAck : replicas_order (sendAck s) = replicas_order s.
Proof. unfold sendAck, sendCmd, when, _debug, emit. by destruct (in_debug s). Qed.
End Globals.

Lemma stdout_when_debug b msg s :
  stdout_writes (trace (when b (_debug msg) s)) = stdout_writes (trace s).
Proof.
  destruct b; [|done]. unfold when, _debug, emit. simpl.
  rewrite stdout_writes_app. simpl. by rewrite app_nil_r.
Qed.

Lemma stdout_warn msg s : stdout_writes (trace (warn msg s)) = stdout_writes (trace s).
Proof.
  unfold warn, emit. simpl. rewrite stdout_writes_app. simpl. by rewrite app_nil_r.
Qed.

Create Rewrite HintDb globals.
#[local] Hint Rewrite
  replicas_emit replicas_when_debug replicas_warn replicas_sendCmd replicas_sendAck
  pending_reps_emit pending_reps_when_debug pending_reps_warn pending_reps_sendCmd pending_reps_sendAck
  triggered_reps_emit triggered_reps_when_debug triggered_reps_warn triggered_reps_sendCmd triggered_reps_sendAck
  in_debug_emit in_debug_when_debug in_debug_warn in_debug_sendCmd in_debug_sendAck
  observer_emit observer_when_debug observer_warn observer_sendCmd observer_sendAck
  replicas_order_emit replicas_order_when_debug replicas_order_warn
  replicas_order_sendCmd replicas_order_sendAck
  : globals.

#[local] Arguments sendCmd : simpl never.
#[local] Arguments sendAck : simpl never.
#[local] Arguments when : simpl never.
#[local] Arguments emit : simpl never.
#[local] Arguments warn : simpl never.
#[local] Arguments _debug : simpl never.
#[local] Arguments reportRecursiveChanges : simpl never.

Ltac globals := repeat (progress (simpl; autorewrite with globals)); try done.

Lemma startReplicaMon_pending schedule_raises replica fspath path s :
  pending_reps (final (startReplicaMon schedule_raises replica fspath path s))
  = pending_reps s.
Proof.
  unfold startReplicaMon. unfold_M.
  destruct (contains replica (replicas s)); simpl.
  - globals.
  - destruct (schedule_raises _); simpl; globals.
Qed.

(** C7. A command of the main loop other than [WAIT] leaves the pending
    set empty, whatever the set held and however the command ends; the
    set is emptied first, so the command runs as it would on a session
    whose pending set was empty already. *)
Theorem non_wait_command_clears_pending schedule_raises cmd args s :
  cmd <> "WAIT" ->
  pending_reps (final (main_loop schedule_raises cmd args s)) = ∅
  /\ main_loop schedule_raises cmd args s
     = main_loop schedule_raises cmd args (set_pending_reps ∅ s).
Proof.
  intros Hcmd. apply String.eqb_neq in Hcmd.
  unfold main_loop. unfold_M. rewrite Hcmd. simpl.
  change (when true (set_pending_reps ∅) ?s1) with (set_pending_reps ∅ s1).
  split; [|done].
  set (s0 := set_pending_reps ∅ s).
  assert (H0 : pending_reps s0 = ∅) by done. clearbody s0.
  repeat match goal with
         | |- context [String.eqb cmd ?c] => destruct (String.eqb cmd c)
         end; simpl; try done.
  - destruct args as [|a [|b [|c [|? ?]]]]; simpl; try done;
      by rewrite startReplicaMon_pending.
  - destruct args as [|replica [|? ?]]; simpl; try done.
    destruct (contains replica (replicas s0)); simpl.
    + destruct (triggered_reps s0 !! replica) as [t|]; simpl;
        globals.
      by destruct (reportRecursiveChanges_effect t "" s0) as (_ & _ & -> & _).
    + globals.
  - destruct args as [|replica [|? ?]]; simpl; try done.
    destruct (replicas s0 !! replica) as [e|]; simpl; [|globals].
    unfold unschedule. destruct (decide (watch e ∈ observer s0)); simpl; globals.
  - globals.
Qed.

Lemma non_wait_command_clears_pending_witness :
  let s := set_pending_reps {["r1"; "r2"]} (initial false) in
  "RESET" <> "WAIT"
  /\ pending_reps s = {["r1"; "r2"]}
  /\ pending_reps (final (main_loop (fun _ => None) "RESET" ["r1"] s)) = ∅
  /\ main_loop (fun _ => None) "RESET" ["r1"] s
     = main_loop (fun _ => None) "RESET" ["r1"] (set_pending_reps ∅ s).
Proof.
  assert (H : "RESET" <> "WAIT") by discriminate.
  split; [exact H|]. split; [reflexivity|].
  exact (non_wait_command_clears_pending (fun _ => None) "RESET" ["r1"] _ H).
Defined.

Lemma contains_lookup {V} key (d : gmap string V) :
  contains key d = true <-> is_Some (d !! key).
Proof. unfold contains. apply bool_decide_eq_true. Qed.

Lemma contains_None {V} key (d : gmap string V) :
  d !! key = None -> contains key d = false.
Proof.
  intros H. unfold contains. apply bool_decide_eq_false. rewrite H. by intros [? ?].
Qed.

Lemma contains_Some {V} key (d : gmap string V) v :
  d !! key = Some v -> contains key d = true.
Proof. intros H. apply contains_lookup. eauto. Qed.

Lemma flushed_from_quiet added : forall buf,
  Forall (fun e => e <> StdoutFlush) added -> flushed_from buf added = [].
Proof.
  induction added as [|e added IH]; intros buf Hq; [done|].
  apply Forall_cons in Hq as [He Hq].
  destruct e; simpl; auto. done.
Qed.

Lemma flushed_from_app_quiet tr added : forall buf,
  Forall (fun e => e <> StdoutFlush) added ->
  flushed_from buf (tr ++ added) = flushed_from buf tr.
Proof.
  induction tr as [|e tr IH]; intros buf Hq; simpl.
  - by apply flushed_from_quiet.
  - destruct e; by rewrite IH.
Qed.

Lemma sendCmd_not_sent cmd args s :
  stdout_sent (sendCmd cmd args s) = stdout_sent s.
Proof.
  unfold stdout_sent, sendCmd, when, _debug, emit.
  destruct (in_debug s); cbn [trace].
  - rewrite <- app_assoc. apply flushed_from_app_quiet.
    repeat constructor; discriminate.
  - apply flushed_from_app_quiet. repeat constructor; discriminate.
Qed.

(** C9. A token that is not registered. [RESET] writes one line to
    standard error, [[unox][WARN]: unknown replica: ] and the token, does
    nothing else to the streams and returns to the main loop, the
    registry, the trees and the watches as they were. [WAIT] and
    [CHANGES] write the [ERROR] line to standard output and end the
    process by [os._exit(1)] at once: the line is the last thing done to
    the streams, no flush comes after it and [os._exit] runs no cleanup,
    so the other end has been sent what it had been sent before the
    command, without the [ERROR] line. So it is for a session of the
    handshake and a [WAIT] for a token never registered: the [VERSION]
    line is all that is sent. *)
Theorem unknown_replica_handling schedule_raises replica s :
  replicas s !! replica = None ->
  (exists s',
     main_loop schedule_raises "RESET" [replica] s = Ret MainLoop s'
     /\ trace s'
        = trace s
          ++ [StderrWrite ("[unox][WARN]: "
                           +:+ Py.strip ("unknown replica: " +:+ replica) +:+ nl)]
     /\ replicas s' = replicas s
     /\ triggered_reps s' = triggered_reps s
     /\ observer s' = observer s
     /\ pending_reps s' = ∅)
  /\ (forall cmd, cmd = "WAIT" \/ cmd = "CHANGES" ->
        exists s',
          main_loop schedule_raises cmd [replica] s = Exit (OsExit 1) s'
          /\ stdout_writes (trace s')
             = stdout_writes (trace s)
               ++ ["ERROR " +:+ Py.quote ("unknown replica: " +:+ replica) +:+ nl]
          /\ last (trace s')
             = Some (StdoutWrite
                       ("ERROR " +:+ Py.quote ("unknown replica: " +:+ replica) +:+ nl))
          /\ at_exit (OsExit 1) s' = Ret () s'
          /\ stdout_sent s' = stdout_sent s)
  /\ (exists s',
        program (fun _ => None) false [line_of "VERSION 1"; line_of "WAIT r2"]
        = Exit (OsExit 1) s'
        /\ stdout_writes (trace s')
           = ["VERSION 1" +:+ nl; "ERROR unknown%20replica%3A%20r2" +:+ nl]
        /\ stdout_sent s' = ["VERSION 1" +:+ nl]).
Proof.
  intros Hnone. split; [|split].
  - eexists. split.
    + unfold main_loop. unfold_M. simpl.
      change (when true (set_pending_reps ∅) s) with (set_pending_reps ∅ s).
      simpl. rewrite Hnone. reflexivity.
    + unfold warn, emit. cbn [trace replicas triggered_reps observer pending_reps].
      split_and!; try done.
  - intros cmd [-> | ->]; eexists; split_and!;
      try (unfold main_loop; unfold_M; simpl;
           unfold when at 1; cbn [negb]; simpl;
           rewrite (contains_None _ _ Hnone); simpl; reflexivity).
    + by rewrite sendCmd_stdout.
    + by rewrite sendCmd_last.
    + done.
    + by rewrite sendCmd_not_sent.
    + rewrite sendCmd_stdout. simpl. done.
    + by rewrite sendCmd_last.
    + done.
    + by rewrite sendCmd_not_sent.
  - eexists. split; [vm_compute; reflexivity|]. split; reflexivity.
Qed.

Lemma unknown_replica_handling_witness :
  let s := initial false in
  replicas s !! "r2" = None
  /\ (exists s',
        main_loop (fun _ => None) "RESET" ["r2"] s = Ret MainLoop s'
        /\ trace s' = [StderrWrite ("[unox][WARN]: unknown replica: r2" +:+ nl)])
  /\ exists s',
       main_loop (fun _ => None) "WAIT" ["r2"] s = Exit (OsExit 1) s'
       /\ stdout_writes (trace s') = ["ERROR unknown%20replica%3A%20r2" +:+ nl]
       /\ stdout_sent s' = [].
Proof.
  assert (H : replicas (initial false) !! "r2" = None) by reflexivity.
  destruct (unknown_replica_handling (fun _ => None) "r2" (initial false) H)
    as ((s1 & Hreset & Hlog & _) & Hfatal & _).
  split; [exact H|]. split.
  - exists s1. split; [exact Hreset|exact Hlog].
  - destruct (Hfatal "WAIT" (or_introl eq_refl)) as (s' & Hs' & Hout & _ & _ & Hsent).
    exists s'. split; [exact Hs'|]. split; [exact Hout|exact Hsent].
Defined.

(** C2. A run in which [WAIT] finds the replica triggered already: the
    reply written is [CHANGES r 1], the token walked character by
    character by [sendCmd], and the pending set is empty afterwards. The
    push from [triggerReplica] names the same token as [CHANGES r1]. *)
Theorem WAIT_pretriggered_splits_token :
  (exists s',
     program (fun _ => None) false
       [line_of "VERSION 1"; line_of "START r1 /tmp/a"; line_of "DONE";
        FileEvent "r1" "/tmp/a/x"; line_of "WAIT r1"]
     = Ret MainLoop s'
     /\ stdout_writes (trace s')
        = ["VERSION 1" +:+ nl; "OK" +:+ nl; "CHANGES r 1" +:+ nl]
     /\ pending_reps s' = ∅)
  /\ (exists s',
        program (fun _ => None) false
          [line_of "VERSION 1"; line_of "START r1 /tmp/a"; line_of "DONE";
           line_of "WAIT r1"; FileEvent "r1" "/tmp/a/x"]
        = Ret MainLoop s'
        /\ stdout_writes (trace s')
           = ["VERSION 1" +:+ nl; "OK" +:+ nl; "CHANGES r1" +:+ nl]
        /\ pending_reps s' = ∅).
Proof.
  split.
  - eexists. split; [vm_compute; reflexivity|]. split; reflexivity.
  - eexists. split; [vm_compute; reflexivity|]. split; reflexivity.
Qed.

(** Whenever [WAIT] finds the replica registered and triggered, the line
    it writes is [CHANGES] followed by one argument per character of the
    token. *)
Lemma WAIT_pretriggered schedule_raises replica s :
  contains replica (replicas s) = true ->
  contains replica (triggered_reps s) = true ->
  exists s',
    main_loop schedule_raises "WAIT" [replica] s = Ret MainLoop s'
    /\ pending_reps s' = ∅
    /\ stdout_writes (trace s')
       = stdout_writes (trace s)
         ++ [foldl (fun raw c => raw +:+ " " +:+ Py.quote c) "CHANGES" (Py.chars replica)
             +:+ nl].
Proof.
  intros Hr Ht. eexists. split_and!.
  - unfold main_loop. unfold_M. simpl.
    change (when false (set_pending_reps ∅) s) with s.
    rewrite Hr. simpl. rewrite Ht. reflexivity.
  - done.
  - unfold set_pending_reps. cbn [trace]. by rewrite sendCmd_stdout.
Qed.

(** ** Registration *)

(** C3, as the specification has it, fails on the first registration of a
    session: [OK] is written while [START] is handled, and [DONE] is
    answered by nothing. *)
Lemma START_ack_not_upon_done :
  ~ ack_sent_upon_done (fun _ => None) "r1" "/tmp/a" "" (initial false).
Proof.
  intros (s1 & s2 & H1 & H2 & _). vm_compute in H1.
  injection H1 as <-. vm_compute in H2. discriminate H2.
Qed.

(** C3, amended. When the replica is registered already or the backend
    accepts the watch, [startReplicaMon] writes [OK] as the last thing it
    does before it waits for the first command of the sub-loop; in the
    sub-loop [DONE] returns to the main loop without any effect, and
    [DIR] is answered by [OK]. *)
Theorem START_acknowledged_before_subloop schedule_raises replica fspath path s :
  contains replica (replicas s) = true
  \/ schedule_raises (Py.path_join fspath "") = None ->
  (exists s1,
     startReplicaMon schedule_raises replica fspath path s = Ret ReplicaStart s1
     /\ stdout_writes (trace s1) = stdout_writes (trace s) ++ ["OK" +:+ nl]
     /\ last (trace s1) = Some (StdoutWrite ("OK" +:+ nl))
     /\ contains replica (replicas s1) = true)
  /\ (forall args s1, startReplicaMon_loop "DONE" args s1 = Ret MainLoop s1)
  /\ (forall args s1, exists s2,
        startReplicaMon_loop "DIR" args s1 = Ret ReplicaStart s2
        /\ stdout_writes (trace s2) = stdout_writes (trace s1) ++ ["OK" +:+ nl]).
Proof.
  intros Hok. split_and!.
  - unfold startReplicaMon. unfold_M.
    destruct (contains replica (replicas s)) eqn:Hc; simpl.
    + eexists. split_and!; [reflexivity| | |].
      * unfold sendAck. by rewrite sendCmd_stdout.
      * unfold sendAck. by rewrite sendCmd_last.
      * by globals.
    + destruct Hok as [? | ->]; [done|]. simpl. eexists. split_and!; [reflexivity| | |].
      * unfold sendAck. rewrite sendCmd_stdout.
        unfold replicas_setitem, schedule.
        cbn [trace set_replicas set_replicas_order set_observer].
        by rewrite !stdout_when_debug.
      * unfold sendAck. by rewrite sendCmd_last.
      * globals. eapply contains_Some. apply lookup_insert_eq.
  - done.
  - intros args s1. eexists. split; [reflexivity|].
    unfold sendAck. by rewrite sendCmd_stdout.
Qed.

Lemma START_acknowledged_before_subloop_witness :
  let s := initial false in
  (contains "r1" (replicas s) = true \/ (fun _ : string => @None string) (Py.path_join "/tmp/a" "") = None)
  /\ exists s1,
       startReplicaMon (fun _ => None) "r1" "/tmp/a" "" s = Ret ReplicaStart s1
       /\ stdout_writes (trace s1) = stdout_writes (trace s) ++ ["OK" +:+ nl].
Proof.
  assert (H : contains "r1" (replicas (initial false)) = true
              \/ (fun _ : string => @None string) (Py.path_join "/tmp/a" "") = None)
    by (right; reflexivity).
  split; [exact H|].
  destruct (START_acknowledged_before_subloop (fun _ => None) "r1" "/tmp/a" "" _ H)
    as ((s1 & H1 & H2 & _) & _).
  exists s1. split; [exact H1|exact H2].
Defined.

(** ** Termination *)

Lemma run_app schedule_raises evs1 evs2 : forall c s,
  run schedule_raises c (evs1 ++ evs2) s
  = match run schedule_raises c evs1 s with
    | Ret c' s' => run schedule_raises c' evs2 s'
    | Exit k s' => Exit k s'
    end.
Proof.
  induction evs1 as [|[line|replica path] evs1 IH]; intros c s; simpl; [done| |].
  - unfold_M. destruct (step schedule_raises c line s); [apply IH|done].
  - unfold_M. apply IH.
Qed.

(** The loop of the [finally] block touches the scheduled watches only,
    and schedules none. *)
Lemma unschedule_each_frame keys : forall s,
  let s' := final (unschedule_each keys s) in
  replicas s' = replicas s /\ replicas_order s' = replicas_order s
  /\ pending_reps s' = pending_reps s /\ triggered_reps s' = triggered_reps s
  /\ in_debug s' = in_debug s /\ trace s' = trace s
  /\ observer s' ⊆ observer s.
Proof.
  induction keys as [|replica keys IH]; intros s; [done|].
  cbn zeta. simpl. unfold_M.
  destruct (replicas s !! replica) as [e|]; simpl; [|done].
  unfold unschedule. destruct (decide (watch e ∈ observer s)); simpl; [|done].
  destruct (IH (set_observer (fun o => o ∖ {[watch e]}) s))
    as (-> & -> & -> & -> & -> & -> & Ho).
  split_and!; try done.
  etrans; [exact Ho|]. simpl. apply subseteq_difference_l. done.
Qed.

Lemma at_exit_frame k s :
  let s' := final (at_exit k s) in
  replicas s' = replicas s /\ replicas_order s' = replicas_order s
  /\ pending_reps s' = pending_reps s /\ triggered_reps s' = triggered_reps s
  /\ in_debug s' = in_debug s /\ trace s' = trace s
  /\ observer s' ⊆ observer s.
Proof.
  destruct k; simpl; try done; apply unschedule_each_frame.
Qed.

(** The state [program] ends in is the one [run] ends in, some watches
    less. *)
Lemma program_final schedule_raises debug_flag evs :
  let s := final (run schedule_raises Handshaking evs (main_begin (initial debug_flag))) in
  let s' := final (program schedule_raises debug_flag evs) in
  replicas s' = replicas s /\ replicas_order s' = replicas_order s
  /\ pending_reps s' = pending_reps s /\ triggered_reps s' = triggered_reps s
  /\ in_debug s' = in_debug s /\ trace s' = trace s
  /\ observer s' ⊆ observer s.
Proof.
  unfold program. destruct (run _ _ _ _) as [c s|k s]; [done|].
  pose proof (at_exit_frame k s) as H. by destruct (at_exit k s).
Qed.

Lemma step_end_of_stream schedule_raises c line s :
  Py.endswith_char (ascii_of_nat 10) line = false ->
  exists s', step schedule_raises c line s = Exit (SysExit 0) s'
             /\ replicas s' = replicas s /\ replicas_order s' = replicas_order s
             /\ observer s' = observer s.
Proof.
  intros Hl. unfold step, recvCmd. unfold_M. rewrite Hl. cbn [negb].
  eexists. split; [reflexivity|]. by globals.
Qed.

(** C4. Three ways out of a session. The end of the input stream: the
    process ends by [sys.exit(0)], the [finally] block runs and the watch
    of the registered replica is unscheduled. An [ERROR] reply: the
    process ends by [os._exit(1)], the [finally] block does not run, and
    the replica is still registered with its watch scheduled. The end of
    the input stream with two tokens registered on one root, which share
    one watch: the second [unschedule] of that watch raises [KeyError] in
    the [finally] block, the process ends by that exception instead of
    [sys.exit(0)], and the watch of a replica registered after the two is
    still scheduled. *)
Theorem exit_paths_and_watches :
  (exists s,
     program (fun _ => None) false
       [line_of "VERSION 1"; line_of "START r1 /tmp/a"; line_of "DONE"; Readline ""]
     = Exit (SysExit 0) s
     /\ replicas s !! "r1" = Some (ReplicaEntry "/tmp/a/" "/tmp/a/")
     /\ observer s = ∅
     /\ watches_released s)
  /\ (exists s,
        program (fun _ => None) false
          [line_of "VERSION 1"; line_of "START r1 /tmp/a"; line_of "DONE";
           line_of "BOGUS"]
        = Exit (OsExit 1) s
        /\ replicas s !! "r1" = Some (ReplicaEntry "/tmp/a/" "/tmp/a/")
        /\ "/tmp/a/" ∈ observer s
        /\ ~ watches_released s)
  /\ (exists s,
        program (fun _ => None) false
          [line_of "VERSION 1"; line_of "START r1 /tmp/a"; line_of "DONE";
           line_of "START r2 /tmp/a"; line_of "DONE";
           line_of "START r3 /tmp/b"; line_of "DONE"; Readline ""]
        = Exit (Raised "KeyError") s
        /\ replicas s !! "r3" = Some (ReplicaEntry "/tmp/b/" "/tmp/b/")
        /\ "/tmp/b/" ∈ observer s
        /\ ~ watches_released s).
Proof.
  split_and!.
  - eexists. split; [vm_compute; reflexivity|].
    split; [reflexivity|]. split; [reflexivity|].
    intros replica e _. apply not_elem_of_empty.
  - eexists. split; [vm_compute; reflexivity|].
    assert (Hin : "/tmp/a/" ∈ ({["/tmp/a/"]} : gset string))
      by (apply (bool_decide_unpack _); vm_compute; exact I).
    split; [reflexivity|]. split; [exact Hin|].
    intros H. by apply (H "r1" (ReplicaEntry "/tmp/a/" "/tmp/a/")).
  - eexists. split; [vm_compute; reflexivity|].
    assert (Hin : "/tmp/b/" ∈ ({["/tmp/b/"]} : gset string))
      by (apply (bool_decide_unpack _); vm_compute; exact I).
    split; [reflexivity|]. split; [exact Hin|].
    intros H. by apply (H "r3" (ReplicaEntry "/tmp/b/" "/tmp/b/")).
Qed.

(** ** Decoding a line *)

(** C8, as the specification has it, fails on a line whose command word
    is percent-encoded: [recvCmd] returns the word as it stands. *)
Lemma recvCmd_command_not_decoded :
  let line := "%57AIT r1" +:+ nl in
  decode_spec line = ("WAIT", ["r1"])
  /\ (exists s', recvCmd line (initial false) = Ret ("%57AIT", ["r1"]) s')
  /\ ~ (exists s', recvCmd line (initial false) = Ret (decode_spec line) s').
Proof.
  split_and!; [reflexivity|eexists; reflexivity|].
  intros (s' & H). vm_compute in H. discriminate H.
Qed.

(** C8, amended. For a line that ends in a newline and whose text, once
    stripped of surrounding whitespace, is a list of words free of spaces
    joined by single spaces, [recvCmd] returns the first word as it stands
    as the command and the percent-decoding of each following word as the
    arguments; a word may be empty, which is what two adjacent spaces
    delimit. Standard output is flushed before the line is read and
    nothing is written to it. *)
Theorem recvCmd_words line w0 ws s :
  Py.endswith_char (ascii_of_nat 10) line = true ->
  Forall (fun w => has_char " " w = false) (w0 :: ws) ->
  Py.strip line = join " " (w0 :: ws) ->
  exists s',
    recvCmd line s = Ret (w0, map Py.unquote ws) s'
    /\ stdout_writes (trace s') = stdout_writes (trace s)
    /\ exists log, trace s' = trace s ++ [StdoutFlush; StdinRead line] ++ log.
Proof.
  intros Hnl Hwords Hstrip. unfold recvCmd. rewrite Hnl. cbn [negb].
  rewrite Hstrip, (split_join " ") by done. simpl hd. simpl tl.
  eexists. split; [reflexivity|]. split.
  - rewrite stdout_when_debug. unfold emit. simpl.
    rewrite !stdout_writes_app. simpl. by rewrite !app_nil_r.
  - unfold when, _debug, emit. simpl. destruct (in_debug s); simpl.
    + eexists. rewrite <- !app_assoc. simpl. reflexivity.
    + exists []. rewrite <- !app_assoc. simpl. reflexivity.
Qed.

Lemma recvCmd_words_witness :
  let line := "WAIT  r%201" +:+ nl in
  Py.endswith_char (ascii_of_nat 10) line = true
  /\ Forall (fun w => has_char " " w = false) ["WAIT"; ""; "r%201"]
  /\ Py.strip line = join " " ["WAIT"; ""; "r%201"]
  /\ exists s', recvCmd line (initial false) = Ret ("WAIT", [""; "r 1"]) s'.
Proof.
  assert (H1 : Py.endswith_char (ascii_of_nat 10) ("WAIT  r%201" +:+ nl) = true)
    by reflexivity.
  assert (H2 : Forall (fun w => has_char " " w = false) ["WAIT"; ""; "r%201"])
    by (repeat constructor).
  assert (H3 : Py.strip ("WAIT  r%201" +:+ nl) = join " " ["WAIT"; ""; "r%201"])
    by reflexivity.
  split; [exact H1|]. split; [exact H2|]. split; [exact H3|].
  destruct (recvCmd_words _ "WAIT" [""; "r%201"] (initial false) H1 H2 H3)
    as (s' & Hs' & _).
  exists s'. exact Hs'.
Defined.

(** ** The [CHANGES] command and [drain] *)

(** For a registered replica the [CHANGES] branch writes one [RECURSIVE]
    line per path of [drain], then [DONE], and removes the entry of the
    replica, so that a second [CHANGES] reports nothing. *)
Lemma CHANGES_reports_drain schedule_raises replica s :
  contains replica (replicas s) = true ->
  exists s',
    main_loop schedule_raises "CHANGES" [replica] s = Ret MainLoop s'
    /\ stdout_writes (trace s')
       = stdout_writes (trace s)
         ++ map (fun p => "RECURSIVE " +:+ Py.quote p +:+ nl) (drain replica s)
         ++ ["DONE" +:+ nl]
    /\ triggered_reps s' !! replica = None
    /\ drain replica s' = [].
Proof.
  intros Hr. unfold main_loop, drain. unfold_M. simpl.
  change (when true (set_pending_reps ∅) s) with (set_pending_reps ∅ s).
  cbn [replicas triggered_reps set_pending_reps]. rewrite Hr. simpl.
  destruct (triggered_reps s !! replica) as [t|] eqn:Et; simpl.
  - eexists. split; [reflexivity|].
    match goal with |- context [reportRecursiveChanges "" t ?s0] =>
      destruct (reportRecursiveChanges_effect t "" s0) as (Hout & _ & _ & Htrig & _) end.
    rewrite sendCmd_stdout. cbn [trace set_triggered_reps]. rewrite Hout.
    rewrite triggered_reps_sendCmd. unfold set_triggered_reps.
    cbn [triggered_reps]. rewrite lookup_delete_eq.
    by rewrite <- app_assoc.
  - eexists. split; [reflexivity|].
    rewrite sendCmd_stdout, triggered_reps_sendCmd. unfold set_pending_reps.
    cbn [triggered_reps trace]. by rewrite Et.
Qed.

(** * Further properties of the script *)

(** ** The codec: what [sendCmd] writes, [recvCmd] reads back *)

Lemma unquote_safe c t :
  Py.quote_safe c = true -> Py.unquote (String c t) = String c (Py.unquote t).
Proof. destruct c as [[] [] [] [] [] [] [] []]; (discriminate || reflexivity). Qed.

Lemma unquote_escape c t :
  Py.quote_safe c = false ->
  Py.unquote (String "%" (String (Py.hex_digit (nat_of_ascii c / 16))
                            (String (Py.hex_digit (nat_of_ascii c mod 16)) t)))
  = String c (Py.unquote t).
Proof. destruct c as [[] [] [] [] [] [] [] []]; (discriminate || reflexivity). Qed.

Lemma unquote_quote s : Py.unquote (Py.quote s) = s.
Proof.
  induction s as [|c s IH]; [done|]. cbn [Py.quote].
  destruct (Py.quote_safe c) eqn:E.
  - by rewrite unquote_safe, IH.
  - by rewrite unquote_escape, IH.
Qed.

Lemma quote_visible s : forall_chars visible (Py.quote s) = true.
Proof.
  induction s as [|c s IH]; [done|]. cbn [Py.quote].
  destruct (Py.quote_safe c) eqn:E; cbn [forall_chars]; rewrite IH;
    revert E; destruct c as [[] [] [] [] [] [] [] []]; (discriminate || reflexivity).
Qed.

Lemma visible_no_space w : forall_chars visible w = true -> has_char " " w = false.
Proof.
  induction w as [|c w IH]; [done|]. simpl.
  intros [Hc Hw]%andb_true_iff. rewrite (IH Hw), orb_false_r.
  revert Hc. destruct c as [[] [] [] [] [] [] [] []]; (discriminate || reflexivity).
Qed.

Lemma join_cons sep w w' ws :
  join sep (w :: w' :: ws) = w +:+ sep +:+ join sep (w' :: ws).
Proof. reflexivity. Qed.

Lemma join_merge sep x y ws :
  join sep ((x +:+ sep +:+ y) :: ws) = join sep (x :: y :: ws).
Proof.
  destruct ws as [|z ws]; [done|]. by rewrite !join_cons, !append_assoc.
Qed.

(** The raw command of [sendCmd] is the command word and the quoted
    arguments joined by single spaces. *)
Lemma raw_cmd_of_join args : forall cmd,
  raw_cmd_of cmd (ArgList args) = join " " (cmd :: map Py.quote args).
Proof.
  unfold raw_cmd_of. simpl.
  induction args as [|a args IH]; intros cmd; [done|].
  simpl. rewrite IH. apply join_merge.
Qed.

Lemma join_snoc sep ws w : exists pre, join sep (ws ++ [w]) = pre +:+ w.
Proof.
  induction ws as [|x ws [pre IH]]; [by exists ""|].
  destruct ws as [|y ws].
  - exists (x +:+ sep). simpl. by rewrite append_assoc.
  - exists (x +:+ sep +:+ pre).
    change ((x :: y :: ws) ++ [w]) with (x :: (y :: ws) ++ [w]).
    change ((y :: ws) ++ [w]) with (y :: (ws ++ [w])) in *.
    by rewrite join_cons, IH, !append_assoc.
Qed.

Lemma rstrip_visible w : forall_chars visible w = true -> Py.rstrip w = w.
Proof.
  induction w as [|c w IH]; [done|]. simpl.
  intros [Hc Hw]%andb_true_iff. rewrite (IH Hw).
  unfold visible in Hc. apply negb_true_iff in Hc. rewrite Hc. by destruct w.
Qed.

Lemma rstrip_app_kept a b : Py.rstrip b <> "" -> Py.rstrip (a +:+ b) = a +:+ Py.rstrip b.
Proof.
  intros Hb. induction a as [|c a IH]; [done|].
  rewrite !append_cons. simpl. rewrite IH.
  destruct (a +:+ Py.rstrip b) eqn:E; [|done].
  destruct a; [by rewrite append_nil_l in E|by rewrite append_cons in E].
Qed.

Lemma rstrip_app_blank a b : Py.rstrip b = "" -> Py.rstrip (a +:+ b) = Py.rstrip a.
Proof.
  intros Hb. induction a as [|c a IH]; [done|].
  rewrite append_cons. simpl. by rewrite IH.
Qed.

(** A text that starts with a visible character and ends with a
    non-empty visible word comes out of [strip] as it went in, whatever
    blank text follows it. *)
Lemma strip_framed c body pre w blank :
  visible c = true ->
  String c body = pre +:+ w -> w <> "" -> forall_chars visible w = true ->
  Py.rstrip blank = "" ->
  Py.strip (String c body +:+ blank) = String c body.
Proof.
  intros Hc Hsplit Hw Hvis Hblank. unfold Py.strip.
  rewrite append_cons. cbn [Py.lstrip].
  unfold visible in Hc. apply negb_true_iff in Hc. rewrite Hc.
  rewrite <- append_cons, rstrip_app_blank by done.
  rewrite Hsplit, rstrip_app_kept; rewrite rstrip_visible; done.
Qed.

Lemma endswith_nl text : Py.endswith_char (ascii_of_nat 10) (text +:+ nl) = true.
Proof. by rewrite endswith_char_app. Qed.

Lemma last_snoc_inv {A} (l : list A) :
  l = [] \/ exists l' x, l = l' ++ [x].
Proof. destruct l as [|x l _] using rev_ind; [by left|right; eauto]. Qed.

(** The stripped text of a raw command followed by blank text is the raw
    command, when the command word is visible text and the last argument
    is not the empty string. *)
Lemma strip_raw_cmd cmd args blank :
  cmd <> "" -> forall_chars visible cmd = true -> last args <> Some "" ->
  Py.rstrip blank = "" ->
  Py.strip (raw_cmd_of cmd (ArgList args) +:+ blank) = raw_cmd_of cmd (ArgList args).
Proof.
  intros Hne Hvis Hlast Hblank. rewrite raw_cmd_of_join.
  destruct cmd as [|c cmd']; [done|].
  assert (Hc : visible c = true) by (simpl in Hvis; by apply andb_true_iff in Hvis as [? _]).
  destruct (last_snoc_inv args) as [->|(args' & a & ->)].
  - simpl join. by apply (strip_framed c cmd' "" (String c cmd')).
  - rewrite last_snoc in Hlast. rewrite map_app. simpl map.
    change (String c cmd' :: (map Py.quote args' ++ [Py.quote a]))
      with ((String c cmd' :: map Py.quote args') ++ [Py.quote a]).
    destruct (join_snoc " " (String c cmd' :: map Py.quote args') (Py.quote a))
      as [pre Hpre].
    assert (Hhead : exists body, join " " ((String c cmd' :: map Py.quote args') ++ [Py.quote a])
                                 = String c body).
    { simpl. destruct (map Py.quote args' ++ [Py.quote a]) eqn:E; [by eexists|].
      rewrite append_cons. by eexists. }
    destruct Hhead as [body Hbody]. rewrite Hbody in *.
    apply (strip_framed c body pre (Py.quote a)); [done|done| |apply quote_visible|done].
    destruct a; [congruence|]. cbn [Py.quote]. by destruct (Py.quote_safe _).
Qed.

(** What [recvCmd] returns for a raw command followed by blank text that
    ends in a newline. *)
Lemma recvCmd_raw_cmd cmd args blank s :
  cmd <> "" -> forall_chars visible cmd = true -> last args <> Some "" ->
  Py.rstrip blank = "" -> Py.endswith_char (ascii_of_nat 10) blank = true ->
  exists s', recvCmd (raw_cmd_of cmd (ArgList args) +:+ blank) s = Ret (cmd, args) s'.
Proof.
  intros Hne Hvis Hlast Hblank Hnl. eexists.
  unfold recvCmd. rewrite endswith_char_app, Hnl by (by destruct blank). cbn [negb].
  rewrite strip_raw_cmd by done. rewrite raw_cmd_of_join, (split_join " ").
  - simpl hd. simpl tl. rewrite map_map.
    rewrite (map_ext _ id), map_id; [reflexivity|]. intros a. apply unquote_quote.
  - done.
  - constructor; [by apply visible_no_space|].
    apply Forall_forall. intros w (a & -> & _)%list_elem_of_fmap.
    apply visible_no_space, quote_visible.
Qed.

(** X1. A line written by [sendCmd] and read by [recvCmd] gives back the
    command word and the arguments, byte for byte, when the command word
    is non-empty visible text and the last argument is not empty. *)
Theorem recvCmd_reads_back_sendCmd cmd args s0 s :
  cmd <> "" -> forall_chars visible cmd = true -> last args <> Some "" ->
  exists line s',
    last (trace (sendCmd cmd (ArgList args) s0)) = Some (StdoutWrite line)
    /\ recvCmd line s = Ret (cmd, args) s'.
Proof.
  intros Hne Hvis Hlast.
  destruct (recvCmd_raw_cmd cmd args nl s Hne Hvis Hlast eq_refl eq_refl) as [s' Hs'].
  exists (raw_cmd_of cmd (ArgList args) +:+ nl), s'. split; [apply sendCmd_last|done].
Qed.

Lemma recvCmd_reads_back_sendCmd_witness :
  "RECURSIVE" <> ""
  /\ forall_chars visible "RECURSIVE" = true
  /\ last ["a dir/50% done"] <> Some ""
  /\ exists s',
       recvCmd ("RECURSIVE a%20dir/50%25%20done" +:+ nl) (initial false)
       = Ret ("RECURSIVE", ["a dir/50% done"]) s'.
Proof.
  assert (H1 : "RECURSIVE" <> "") by discriminate.
  assert (H2 : forall_chars visible "RECURSIVE" = true) by reflexivity.
  assert (H3 : last ["a dir/50% done"] <> Some "") by discriminate.
  split; [exact H1|]. split; [exact H2|]. split; [exact H3|].
  destruct (recvCmd_reads_back_sendCmd "RECURSIVE" ["a dir/50% done"]
              (initial false) (initial false) H1 H2 H3) as (line & s' & Hl & Hr).
  exists s'. vm_compute in Hl. injection Hl as <-. exact Hr.
Defined.

(** X2. An empty last argument does not survive the round trip: the
    line ends in a space that [strip] removes, and [recvCmd] returns the
    arguments without it. This is the shape of the report of a whole
    replica, [RECURSIVE] with the empty path. *)
Theorem recvCmd_drops_empty_last_argument cmd args s0 s :
  cmd <> "" -> forall_chars visible cmd = true -> last args <> Some "" ->
  exists line s',
    last (trace (sendCmd cmd (ArgList (args ++ [""])) s0)) = Some (StdoutWrite line)
    /\ recvCmd line s = Ret (cmd, args) s'.
Proof.
  intros Hne Hvis Hlast.
  destruct (recvCmd_raw_cmd cmd args (" " +:+ nl) s Hne Hvis Hlast eq_refl eq_refl)
    as [s' Hs'].
  exists (raw_cmd_of cmd (ArgList (args ++ [""])) +:+ nl), s'.
  split; [apply sendCmd_last|].
  assert (raw_cmd_of cmd (ArgList (args ++ [""])) +:+ nl
          = raw_cmd_of cmd (ArgList args) +:+ " " +:+ nl) as ->; [|done].
  unfold raw_cmd_of. simpl. rewrite foldl_app. simpl. by rewrite append_assoc.
Qed.

Lemma recvCmd_drops_empty_last_argument_witness :
  "RECURSIVE" <> ""
  /\ forall_chars visible "RECURSIVE" = true
  /\ last (@nil string) <> Some ""
  /\ last (trace (sendCmd "RECURSIVE" (ArgList [""]) (initial false)))
     = Some (StdoutWrite ("RECURSIVE " +:+ nl))
  /\ exists s', recvCmd ("RECURSIVE " +:+ nl) (initial false) = Ret ("RECURSIVE", []) s'.
Proof.
  assert (H1 : "RECURSIVE" <> "") by discriminate.
  assert (H2 : forall_chars visible "RECURSIVE" = true) by reflexivity.
  assert (H3 : last (@nil string) <> Some "") by discriminate.
  split; [exact H1|]. split; [exact H2|]. split; [exact H3|]. split; [reflexivity|].
  destruct (recvCmd_drops_empty_last_argument "RECURSIVE" [] (initial false)
              (initial false) H1 H2 H3) as (line & s' & Hl & Hr).
  exists s'. vm_compute in Hl. injection Hl as <-. exact Hr.
Defined.

(** ** The trigger tree: which paths a drain reports *)

Lemma dict_set_set tok v w d : dict_set tok v (dict_set tok w d) = dict_set tok v d.
Proof.
  induction d as [|[k x] d IH]; simpl.
  - by rewrite String.eqb_refl.
  - destruct (String.eqb k tok) eqn:E; simpl; rewrite E; [done|by rewrite IH].
Qed.

(** Recording below a path that was just recorded changes nothing. *)
Lemma record_absorb q : forall p t, q `prefix_of` p -> record p (record q t) = record q t.
Proof.
  induction q as [|tok q IH]; intros p t Hp; [by rewrite record_Dirty|].
  destruct p as [|tok' p]; [by apply prefix_nil_not in Hp|].
  pose proof (prefix_cons_inv_1 _ _ _ _ Hp) as <-. apply prefix_cons_inv_2 in Hp.
  destruct t as [|d]; [done|]. simpl.
  rewrite dict_get_set_eq. simpl. by rewrite dict_set_set, IH.
Qed.

(** Recording a path erases what was recorded below it. *)
Lemma record_subsume q : forall p t, q `prefix_of` p -> record q (record p t) = record q t.
Proof.
  induction q as [|tok q IH]; intros p t Hp; [done|].
  destruct p as [|tok' p]; [by apply prefix_nil_not in Hp|].
  pose proof (prefix_cons_inv_1 _ _ _ _ Hp) as <-. apply prefix_cons_inv_2 in Hp.
  destruct t as [|d]; [done|]. simpl.
  rewrite dict_get_set_eq. simpl. by rewrite dict_set_set, IH.
Qed.

Lemma record_all_topmost recs r :
  entry_dirty_at r (record_all None recs) <-> topmost recs r.
Proof.
  pose proof (record_all_covered recs) as Hcov.
  pose proof (record_all_dirty recs) as Hdirty.
  destruct (record_all None recs) as [t|] eqn:Et; simpl in *.
  - split.
    + intros Hr. split; [by apply Hdirty|]. intros p Hp Hpr.
      assert (covered p t = true) as (r' & Hr'p & Hr')%covered_dirty.
      { apply (Hcov p). by exists p. }
      assert (r' = r) as -> by (eapply dirty_antichain; [done..|by etrans]).
      by apply (anti_symm prefix).
    + intros [Hin Htop].
      assert (covered r t = true) as (r' & Hr'r & Hr')%covered_dirty.
      { apply (Hcov r). by exists r. }
      by rewrite <- (Htop r' (Hdirty _ Hr') Hr'r).
  - split; [done|]. intros [Hin _].
    assert (false = true) as [=]. apply (Hcov r). by exists r.
Qed.

Lemma drain_elements replica recs s e :
  triggered_reps s !! replica = None ->
  e ∈ drain replica (trigger_all replica recs s)
  <-> exists r, topmost recs r /\ e = foldl Py.path_join "" r.
Proof.
  intros Hnone. unfold drain. rewrite trigger_all_tree, Hnone.
  pose proof (record_all_ok recs) as Hok.
  pose proof (fun r => record_all_topmost recs r) as Htop.
  destruct (record_all None recs) as [t|]; simpl in *.
  - destruct Hok as [Hok _]. rewrite reported_routes, list_elem_of_fmap.
    split.
    + intros (r & -> & Hr). exists r. split; [|done]. by apply Htop, routes_dirty.
    + intros (r & Hr & ->). exists r. split; [done|]. by apply routes_dirty, Htop.
  - split; [by intros ?%elem_of_nil|]. intros (r & Hr%Htop & _). done.
Qed.

(** X3. The paths reported for a replica are the joins of the recorded
    paths that have no other recorded path above them, and only those. *)
Theorem drain_reports_topmost_records replica recs s :
  triggered_reps s !! replica = None ->
  forall e,
    e ∈ drain replica (trigger_all replica recs s)
    <-> exists r, topmost recs r /\ e = foldl Py.path_join "" r.
Proof. intros Hnone e. by apply drain_elements. Qed.

(** X4. Which paths are reported depends on the set of recorded paths
    only: neither the order of the file events nor their repetition
    changes it. *)
Theorem drain_ignores_order_and_repetition replica recs1 recs2 s1 s2 :
  triggered_reps s1 !! replica = None ->
  triggered_reps s2 !! replica = None ->
  (forall p, p ∈ recs1 <-> p ∈ recs2) ->
  forall e,
    e ∈ drain replica (trigger_all replica recs1 s1)
    <-> e ∈ drain replica (trigger_all replica recs2 s2).
Proof.
  intros H1 H2 Hsame e. rewrite !drain_elements by done.
  assert (Htop : forall r, topmost recs1 r <-> topmost recs2 r).
  { intros r. unfold topmost. rewrite Hsame. by setoid_rewrite Hsame. }
  by setoid_rewrite Htop.
Qed.

(** X5. A change below a path recorded by the call before it leaves the
    session as it is: same tree, same pending set; in particular an
    event that repeats the one before it. *)
Theorem triggerReplica_absorbs_finer_change replica coarse fine s :
  coarse `prefix_of` fine ->
  let s1 := triggerReplica replica coarse s in
  let s2 := triggerReplica replica fine s1 in
  triggered_reps s2 = triggered_reps s1
  /\ pending_reps s2 = pending_reps s1
  /\ stdout_writes (trace s2) = stdout_writes (trace s1).
Proof.
  intros Hp s1 s2.
  destruct (triggerReplica_effect replica fine s1) as (Ht & Hpend & Hout & _).
  destruct (triggerReplica_effect replica coarse s) as (Ht1 & Hpend1 & _).
  fold s1 in Ht1, Hpend1. fold s2 in Ht, Hpend, Hout.
  assert (Hno : replica ∉ pending_reps s1).
  { rewrite Hpend1. destruct (decide (replica ∈ pending_reps s)); [apply not_elem_of_empty|done]. }
  rewrite Ht, Hpend, Hout. rewrite !decide_False by done.
  split_and!; [|done|by rewrite app_nil_r].
  apply insert_id. rewrite Ht1, lookup_insert_eq. f_equal.
  rewrite !trigger_tree_record. simpl. symmetry. by apply record_absorb.
Qed.

(** X6. A change at a path erases the finer change recorded by the call
    before it: the tree is the one the coarser change alone leaves. *)
Theorem triggerReplica_subsumes_finer_change replica coarse fine s :
  coarse `prefix_of` fine ->
  triggered_reps (triggerReplica replica coarse (triggerReplica replica fine s))
  = triggered_reps (triggerReplica replica coarse s).
Proof.
  intros Hp.
  destruct (triggerReplica_effect replica coarse (triggerReplica replica fine s)) as (-> & _).
  destruct (triggerReplica_effect replica fine s) as (-> & _).
  destruct (triggerReplica_effect replica coarse s) as (-> & _).
  rewrite lookup_insert_eq, insert_insert_eq. f_equal.
  rewrite !trigger_tree_record. simpl. by apply record_subsume.
Qed.

Lemma drain_reports_topmost_records_witness :
  let recs := [["x"; "y"]; ["a"]; ["x"]; ["a"; "b"]] in
  triggered_reps (initial false) !! "r1" = None
  /\ drain "r1" (trigger_all "r1" recs (initial false)) = ["x"; "a"]
  /\ forall e,
       e ∈ drain "r1" (trigger_all "r1" recs (initial false))
       <-> exists r, topmost recs r /\ e = foldl Py.path_join "" r.
Proof.
  assert (H : triggered_reps (initial false) !! "r1" = None) by reflexivity.
  split; [exact H|]. split; [reflexivity|].
  exact (drain_reports_topmost_records "r1" _ (initial false) H).
Defined.

Lemma drain_ignores_order_and_repetition_witness :
  let recs1 := [["x"; "y"]; ["x"]] in
  let recs2 := [["x"]; ["x"; "y"]; ["x"]] in
  triggered_reps (initial false) !! "r1" = None
  /\ (forall p, p ∈ recs1 <-> p ∈ recs2)
  /\ forall e,
       e ∈ drain "r1" (trigger_all "r1" recs1 (initial false))
       <-> e ∈ drain "r1" (trigger_all "r1" recs2 (initial false)).
Proof.
  assert (H : triggered_reps (initial false) !! "r1" = None) by reflexivity.
  assert (Hsame : forall p : list string,
            p ∈ [["x"; "y"]; ["x"]] <-> p ∈ [["x"]; ["x"; "y"]; ["x"]]).
  { intros p. rewrite !elem_of_cons. pose proof (elem_of_nil p). tauto. }
  split; [exact H|]. split; [exact Hsame|].
  exact (drain_ignores_order_and_repetition "r1" _ _ _ _ H H Hsame).
Defined.

Lemma triggerReplica_absorbs_finer_change_witness :
  let s1 := triggerReplica "r1" ["x"] (initial false) in
  ["x"] `prefix_of` ["x"; "y"]
  /\ triggered_reps (triggerReplica "r1" ["x"; "y"] s1) = triggered_reps s1
  /\ pending_reps (triggerReplica "r1" ["x"; "y"] s1) = pending_reps s1
  /\ stdout_writes (trace (triggerReplica "r1" ["x"; "y"] s1)) = stdout_writes (trace s1).
Proof.
  assert (H : ["x"] `prefix_of` ["x"; "y"]) by (by exists ["y"]).
  split; [exact H|].
  exact (triggerReplica_absorbs_finer_change "r1" ["x"] ["x"; "y"] (initial false) H).
Defined.

Lemma triggerReplica_subsumes_finer_change_witness :
  ["x"] `prefix_of` ["x"; "y"]
  /\ triggered_reps (triggerReplica "r1" ["x"] (triggerReplica "r1" ["x"; "y"] (initial false)))
     = triggered_reps (triggerReplica "r1" ["x"] (initial false)).
Proof.
  assert (H : ["x"] `prefix_of` ["x"; "y"]) by (by exists ["y"]).
  split; [exact H|].
  exact (triggerReplica_subsumes_finer_change "r1" ["x"] ["x"; "y"] (initial false) H).
Defined.

(** ** Registration *)

Lemma path_join_empty f :
  Py.path_join f ""
  = if (String.eqb f "" || Py.endswith_char "/" f)%bool then f else f +:+ "/".
Proof.
  unfold Py.path_join. simpl.
  destruct (_ || _)%bool; by rewrite ?append_nil_r.
Qed.

Lemma sendAck_stdout s :
  stdout_writes (trace (sendAck s)) = stdout_writes (trace s) ++ ["OK" +:+ nl].
Proof. unfold sendAck. by rewrite sendCmd_stdout. Qed.

(** What [startReplicaMon] does before its loop, case by case. *)
Lemma startReplicaMon_cases schedule_raises replica fspath path s :
  let root := Py.path_join fspath "" in
  match replicas s !! replica, schedule_raises root with
  | Some _, _ =>
      startReplicaMon schedule_raises replica fspath path s = Ret ReplicaStart (sendAck s)
  | None, None =>
      exists s1,
        startReplicaMon schedule_raises replica fspath path s = Ret ReplicaStart (sendAck s1)
        /\ replicas s1 = <[replica := ReplicaEntry root root]> (replicas s)
        /\ observer s1 = {[root]} ∪ observer s
        /\ pending_reps s1 = pending_reps s /\ triggered_reps s1 = triggered_reps s
        /\ in_debug s1 = in_debug s
        /\ stdout_writes (trace s1) = stdout_writes (trace s)
  | None, Some msg =>
      exists s1,
        startReplicaMon schedule_raises replica fspath path s
        = Exit (OsExit 1) (sendCmd "ERROR" (ArgList [msg]) s1)
        /\ replicas s1 = replicas s /\ observer s1 = observer s
        /\ pending_reps s1 = pending_reps s /\ triggered_reps s1 = triggered_reps s
        /\ stdout_writes (trace s1) = stdout_writes (trace s)
  end.
Proof.
  intros root. unfold startReplicaMon. unfold_M.
  destruct (replicas s !! replica) as [e|] eqn:E.
  - by rewrite (contains_Some _ _ _ E).
  - rewrite (contains_None _ _ E). simpl. fold root.
    destruct (schedule_raises root) as [msg|]; simpl.
    + eexists. split; [reflexivity|]. globals. split_and!; try done.
      by rewrite !stdout_when_debug.
    + eexists. split; [reflexivity|]. globals. split_and!; try done.
      cbn [trace set_replicas set_observer]. by rewrite !stdout_when_debug.
Qed.

Lemma fspath_ReplicaEntry w f : fspath (ReplicaEntry w f) = f.
Proof. reflexivity. Qed.

(** X7. [START] for a token that is registered already only sends [OK]:
    the registry and the watches are not touched, the backend is not
    asked, and a root path that differs from the registered one is
    ignored. *)
Theorem START_again_is_a_noop schedule_raises replica fspath path s :
  is_Some (replicas s !! replica) ->
  exists s',
    startReplicaMon schedule_raises replica fspath path s = Ret ReplicaStart s'
    /\ replicas s' = replicas s /\ observer s' = observer s
    /\ triggered_reps s' = triggered_reps s
    /\ stdout_writes (trace s') = stdout_writes (trace s) ++ ["OK" +:+ nl].
Proof.
  intros [e He].
  pose proof (startReplicaMon_cases schedule_raises replica fspath path s) as H.
  cbn zeta in H. rewrite He in H. exists (sendAck s). split; [done|].
  rewrite sendAck_stdout. by globals.
Qed.

(** X8. [START] for a new token whose watch the backend accepts stores
    the root path with a trailing separator (an empty path stays empty),
    schedules the watch and sends [OK]; other replicas keep their
    entries; and a file event below the stored root is then recorded under
    the tokens of the rest of its path. *)
Theorem START_registers_normalized_root schedule_raises replica fspath path s :
  replicas s !! replica = None ->
  schedule_raises (Py.path_join fspath "") = None ->
  exists root s',
    startReplicaMon schedule_raises replica fspath path s = Ret ReplicaStart s'
    /\ (root = fspath /\ (fspath = "" \/ Py.endswith_char "/" fspath = true)
        \/ root = fspath +:+ "/" /\ fspath <> "" /\ Py.endswith_char "/" fspath = false)
    /\ replicas s' !! replica = Some (ReplicaEntry root root)
    /\ (forall other, other <> replica -> replicas s' !! other = replicas s !! other)
    /\ root ∈ observer s'
    /\ stdout_writes (trace s') = stdout_writes (trace s) ++ ["OK" +:+ nl]
    /\ (forall local_path,
          triggered_reps (deliver replica (root +:+ local_path) s') !! replica
          = Some (trigger_tree (triggered_reps s !! replica) (pathTokenize local_path))).
Proof.
  intros Hnone Hsched.
  pose proof (startReplicaMon_cases schedule_raises replica fspath path s) as H.
  cbn zeta in H. rewrite Hnone, Hsched in H.
  destruct H as (s1 & Hrun & Hrep & Hobs & Hpend & Htrig & Hdbg & Hout).
  exists (Py.path_join fspath ""), (sendAck s1). split; [done|]. split_and!.
  - rewrite path_join_empty. destruct (String.eqb fspath "") eqn:E1; simpl.
    + left. apply String.eqb_eq in E1. by auto.
    + apply String.eqb_neq in E1.
      destruct (Py.endswith_char "/" fspath); [left|right]; auto.
  - globals. by rewrite Hrep, lookup_insert_eq.
  - intros other Hne. globals. by rewrite Hrep, lookup_insert_ne.
  - globals. rewrite Hobs. apply elem_of_union_l, elem_of_singleton. done.
  - by rewrite sendAck_stdout, Hout.
  - intros local_path. unfold deliver. rewrite replicas_sendAck, Hrep, lookup_insert_eq.
    rewrite fspath_ReplicaEntry.
    destruct (dispatch_under_root (Py.path_join fspath "") replica local_path (sendAck s1))
      as (-> & _).
    by rewrite lookup_insert_eq, triggered_reps_sendAck, Htrig.
Qed.

(** X9. [START] for a new token whose watch the backend refuses sends
    [ERROR] with the message of the exception, sends no [OK], leaves the
    token unregistered and ends the process with status 1. *)
Theorem START_refused_is_fatal schedule_raises replica fspath path msg s :
  replicas s !! replica = None ->
  schedule_raises (Py.path_join fspath "") = Some msg ->
  exists s',
    startReplicaMon schedule_raises replica fspath path s = Exit (OsExit 1) s'
    /\ replicas s' = replicas s /\ observer s' = observer s
    /\ stdout_writes (trace s')
       = stdout_writes (trace s) ++ ["ERROR " +:+ Py.quote msg +:+ nl].
Proof.
  intros Hnone Hsched.
  pose proof (startReplicaMon_cases schedule_raises replica fspath path s) as H.
  cbn zeta in H. rewrite Hnone, Hsched in H.
  destruct H as (s1 & Hrun & Hrep & Hobs & _ & _ & Hout).
  eexists. split; [exact Hrun|]. rewrite sendCmd_stdout, Hout. by globals.
Qed.

(** ** File events *)

Lemma startswith_longer f c : Py.startswith (f +:+ String c "") f = false.
Proof.
  induction f as [|a f IH]; [done|]. rewrite append_cons. simpl.
  by rewrite Ascii.eqb_refl, IH.
Qed.

(** X10. An event whose path does not start with the root stored for the
    handler only writes a warning to the log. This is the fate of an event
    at the watched directory itself when its path comes without the
    trailing separator that registration added to the root. *)
Theorem event_outside_root_is_dropped replica root path s :
  Py.startswith root path = false ->
  dispatch root replica path s
  = warn ("unexpected file event at path [" +:+ path +:+ "] for [" +:+ root +:+ "]") s
  /\ (forall fspath, root = fspath +:+ "/" ->
        triggered_reps (dispatch root replica fspath s) = triggered_reps s
        /\ pending_reps (dispatch root replica fspath s) = pending_reps s
        /\ stdout_writes (trace (dispatch root replica fspath s)) = stdout_writes (trace s)).
Proof.
  intros Hout. unfold dispatch. rewrite Hout. split; [done|].
  intros fspath ->. rewrite startswith_longer. cbn [negb].
  by rewrite stdout_warn.
Qed.

Lemma triggerReplica_no_wait replica toks s :
  replica ∉ pending_reps s ->
  trace (triggerReplica replica toks s) = trace s
  /\ pending_reps (triggerReplica replica toks s) = pending_reps s.
Proof. intros Hno. unfold triggerReplica. by rewrite decide_False. Qed.

(** [triggerReplica] for a replica that is not waited on writes
    nothing at all, neither to standard output nor to the log, and leaves
    the pending set as it is. *)
Theorem triggerReplica_is_silent_without_wait replica toks s :
  replica ∉ pending_reps s ->
  trace (triggerReplica replica toks s) = trace s
  /\ pending_reps (triggerReplica replica toks s) = pending_reps s.
Proof. apply triggerReplica_no_wait. Qed.

(** X11. [triggerReplica] for a replica that is waited on writes one
    [CHANGES] line naming the token as a single quoted argument, flushes
    standard output, and empties the whole pending set, the waits on
    other replicas included. *)
Theorem triggerReplica_pushes_and_clears_waits replica toks s :
  replica ∈ pending_reps s ->
  let s' := triggerReplica replica toks s in
  stdout_writes (trace s')
  = stdout_writes (trace s) ++ [join " " ["CHANGES"; Py.quote replica] +:+ nl]
  /\ last (trace s') = Some StdoutFlush
  /\ pending_reps s' = ∅
  /\ Py.unquote (Py.quote replica) = replica.
Proof.
  intros Hin s'.
  destruct (triggerReplica_effect replica toks s) as (_ & Hp & Hout & _).
  fold s' in Hp, Hout. rewrite decide_True in Hp by done.
  rewrite decide_True in Hout by done.
  split_and!; [done| |done|apply unquote_quote].
  unfold s', triggerReplica. rewrite decide_True by done.
  unfold injectCmd, emit, set_triggered_reps, set_pending_reps. cbn [trace].
  by rewrite last_snoc.
Qed.

Lemma trigger_events_no_wait evs : forall s,
  pending_reps s = ∅ ->
  stdout_writes (trace (trigger_events evs s)) = stdout_writes (trace s).
Proof.
  induction evs as [|[r t] evs IH]; intros s Hp; [done|].
  unfold trigger_events. simpl. fold (trigger_events evs (triggerReplica r t s)).
  destruct (triggerReplica_no_wait r t s) as [Htr Hpend].
  { rewrite Hp. apply not_elem_of_empty. }
  rewrite IH; [by rewrite Htr|by rewrite Hpend].
Qed.

(** X12. However many file events are handled between two commands, at
    most one [CHANGES] line is pushed: for the first event whose replica
    is waited on. *)
Theorem at_most_one_push evs : forall s,
  stdout_writes (trace (trigger_events evs s))
  = stdout_writes (trace s)
    ++ match list_find (fun ev => ev.1 ∈ pending_reps s) evs with
       | Some (_, ev) => ["CHANGES " +:+ Py.quote ev.1 +:+ nl]
       | None => []
       end.
Proof.
  induction evs as [|[r t] evs IH]; intros s; [by rewrite app_nil_r|].
  unfold trigger_events. simpl foldl. fold (trigger_events evs (triggerReplica r t s)).
  cbn [list_find]. simpl fst. destruct (decide (r ∈ pending_reps s)) as [Hin|Hno].
  - destruct (triggerReplica_effect r t s) as (_ & Hp & Hout & _).
    rewrite decide_True in Hp by done. rewrite decide_True in Hout by done.
    by rewrite trigger_events_no_wait, Hout.
  - destruct (triggerReplica_no_wait r t s Hno) as [Htr Hpend].
    rewrite IH, Htr, Hpend.
    by destruct (list_find _ evs) as [[? ?]|].
Qed.

(** ** Commands of the main loop *)

Ltac enter_main_loop :=
  unfold main_loop; unfold_M; simpl;
  try change (when true (set_pending_reps ∅) ?s1) with (set_pending_reps ∅ s1);
  try change (when false (set_pending_reps ∅) ?s1) with s1.

(** X13. A command with the wrong number of arguments raises
    [ValueError] from the unpacking assignment: nothing is written, no
    [ERROR] is sent, and the exception leaves [main] through the
    [finally] block. This holds for [WAIT], [CHANGES] and [RESET] with
    other than one argument and for [START] with fewer than two or more
    than three. *)
Theorem wrong_arity_raises_ValueError schedule_raises cmd args s :
  (cmd ∈ ["WAIT"; "CHANGES"; "RESET"] /\ length args <> 1)
  \/ (cmd = "START" /\ (length args < 2 \/ 3 < length args)) ->
  exists s',
    main_loop schedule_raises cmd args s = Exit (Raised "ValueError") s'
    /\ trace s' = trace s
    /\ replicas s' = replicas s /\ triggered_reps s' = triggered_reps s
    /\ at_exit (Raised "ValueError") s' = finally_block s'.
Proof.
  intros [[Hcmd Hlen]|[-> Hlen]].
  - repeat (apply elem_of_cons in Hcmd as [->|Hcmd]); [| | |by apply elem_of_nil in Hcmd];
      destruct args as [|a [|b args]]; try done;
      eexists; (split; [enter_main_loop; reflexivity|done]).
  - destruct args as [|a [|b [|c [|d args]]]]; simpl in Hlen; try lia;
      eexists; (split; [enter_main_loop; reflexivity|done]).
Qed.

(** What the [RESET] branch does for a registered token. *)
Lemma main_loop_RESET schedule_raises replica e s :
  replicas s !! replica = Some e ->
  main_loop schedule_raises "RESET" [replica] s
  = if decide (watch e ∈ observer s)
    then Ret MainLoop
           (set_triggered_reps (delete replica)
              (replicas_delitem replica
                 (set_observer (fun o => o ∖ {[watch e]}) (set_pending_reps ∅ s))))
    else Exit (Raised "KeyError") (set_pending_reps ∅ s).
Proof.
  intros He. enter_main_loop. rewrite He. simpl. unfold unschedule.
  change (observer (set_pending_reps ∅ s)) with (observer s).
  by destruct (decide (watch e ∈ observer s)).
Qed.

(** X14. [RESET] for a registered token sends no reply at all. When the
    watch of the token is still scheduled, it unschedules the watch,
    forgets the token and its recorded changes, empties the pending set
    and leaves the other replicas as they are; a [CHANGES] or [WAIT] for
    the token is then a fatal error. When the watch is not scheduled any
    more (a [RESET] of another token on the same root has unscheduled
    it), [observer.unschedule] raises [KeyError]: the main loop is left
    by the exception, with the token still registered and only the
    pending set emptied. *)
Theorem RESET_forgets_replica schedule_raises replica e s :
  replicas s !! replica = Some e ->
  (watch e ∈ observer s ->
   exists s',
     main_loop schedule_raises "RESET" [replica] s = Ret MainLoop s'
     /\ trace s' = trace s
     /\ replicas s' !! replica = None /\ triggered_reps s' !! replica = None
     /\ (watch e ∉ observer s') /\ pending_reps s' = ∅
     /\ (forall other, other <> replica ->
           replicas s' !! other = replicas s !! other
           /\ triggered_reps s' !! other = triggered_reps s !! other)
     /\ (forall cmd, cmd = "WAIT" \/ cmd = "CHANGES" ->
           exists s'', main_loop schedule_raises cmd [replica] s' = Exit (OsExit 1) s''))
  /\ (watch e ∉ observer s ->
      exists s',
        main_loop schedule_raises "RESET" [replica] s = Exit (Raised "KeyError") s'
        /\ trace s' = trace s
        /\ replicas s' = replicas s /\ triggered_reps s' = triggered_reps s
        /\ observer s' = observer s /\ pending_reps s' = ∅).
Proof.
  intros He. rewrite (main_loop_RESET _ _ _ _ He). split; intros Hw.
  - rewrite decide_True by done. eexists. split; [reflexivity|].
    unfold set_triggered_reps, replicas_delitem, set_replicas_order, set_replicas,
      set_observer, set_pending_reps.
    cbn [trace replicas triggered_reps observer pending_reps].
    split_and!; try done.
    + apply lookup_delete_eq.
    + apply lookup_delete_eq.
    + rewrite elem_of_difference, elem_of_singleton. by intros [_ ?].
    + intros other Hne. by rewrite !lookup_delete_ne.
    + intros cmd [-> | ->]; eexists; enter_main_loop;
        cbn [replicas]; rewrite (contains_None replica (delete replica (replicas s)))
          by apply lookup_delete_eq; reflexivity.
  - rewrite decide_False by done. eexists. split; [reflexivity|done].
Qed.

(** What the [WAIT] branch does for a registered token without recorded
    changes. *)
Lemma main_loop_WAIT_idle schedule_raises replica s :
  is_Some (replicas s !! replica) -> triggered_reps s !! replica = None ->
  main_loop schedule_raises "WAIT" [replica] s
  = Ret MainLoop (set_pending_reps ({[replica]} ∪ pending_reps s) s).
Proof.
  intros [e He] Hnone. enter_main_loop.
  rewrite (contains_Some _ _ _ He). simpl. by rewrite (contains_None _ _ Hnone).
Qed.

(** X15. [WAIT] for a registered token without recorded changes writes
    nothing and adds the token to the pending set, keeping the tokens
    that were waited on before. The first file event below the root of
    the replica then pushes one [CHANGES] line for the token, empties the
    pending set and starts the tree of the replica. *)
Theorem WAIT_then_event_pushes_CHANGES schedule_raises replica e local_path s :
  replicas s !! replica = Some e -> triggered_reps s !! replica = None ->
  exists s1,
    main_loop schedule_raises "WAIT" [replica] s = Ret MainLoop s1
    /\ trace s1 = trace s
    /\ pending_reps s1 = {[replica]} ∪ pending_reps s
    /\ let s2 := deliver replica (fspath e +:+ local_path) s1 in
       stdout_writes (trace s2)
       = stdout_writes (trace s) ++ ["CHANGES " +:+ Py.quote replica +:+ nl]
       /\ pending_reps s2 = ∅
       /\ triggered_reps s2 !! replica = Some (trigger_tree None (pathTokenize local_path)).
Proof.
  intros He Hnone. eexists. split; [by apply main_loop_WAIT_idle|].
  split_and!; [done..|]. unfold deliver. cbn [replicas set_pending_reps]. rewrite He.
  match goal with |- context [dispatch _ _ _ ?s1] =>
    destruct (dispatch_under_root (fspath e) replica local_path s1) as (-> & -> & -> & _) end.
  cbn [pending_reps triggered_reps trace set_pending_reps].
  rewrite !decide_True by (apply elem_of_union_l, elem_of_singleton; done).
  by rewrite lookup_insert_eq, Hnone.
Qed.

(** What the [CHANGES] branch does for a registered token. *)
Lemma main_loop_CHANGES schedule_raises replica s :
  is_Some (replicas s !! replica) ->
  exists s',
    main_loop schedule_raises "CHANGES" [replica] s = Ret MainLoop s'
    /\ stdout_writes (trace s')
       = stdout_writes (trace s)
         ++ map (fun p => "RECURSIVE " +:+ Py.quote p +:+ nl) (drain replica s)
         ++ ["DONE" +:+ nl]
    /\ replicas s' = replicas s
    /\ triggered_reps s' = delete replica (triggered_reps s)
    /\ pending_reps s' = ∅.
Proof.
  intros [e He]. unfold drain. enter_main_loop.
  cbn [replicas triggered_reps set_pending_reps]. rewrite (contains_Some _ _ _ He). simpl.
  destruct (triggered_reps s !! replica) as [t|] eqn:Et; simpl.
  - eexists. split; [reflexivity|].
    match goal with |- context [reportRecursiveChanges "" t ?s0] =>
      destruct (reportRecursiveChanges_effect t "" s0)
        as (Hout & Hrep & Hpend & Htrig & _) end.
    rewrite sendCmd_stdout. globals. unfold set_triggered_reps.
    cbn [trace replicas triggered_reps pending_reps].
    rewrite Hout, Hrep, Htrig, Hpend. by rewrite <- app_assoc.
  - eexists. split; [reflexivity|]. rewrite sendCmd_stdout. globals.
    split_and!; try done. symmetry. by apply delete_id.
Qed.

(** X16. [CHANGES] for a registered token writes one [RECURSIVE] line
    per marker of its tree, the path quoted, then [DONE]; it removes the
    tree and keeps the registration. *)
Theorem CHANGES_reports_markers_then_DONE schedule_raises replica s :
  is_Some (replicas s !! replica) ->
  exists s',
    main_loop schedule_raises "CHANGES" [replica] s = Ret MainLoop s'
    /\ stdout_writes (trace s')
       = stdout_writes (trace s)
         ++ map (fun p => "RECURSIVE " +:+ Py.quote p +:+ nl) (drain replica s)
         ++ ["DONE" +:+ nl]
    /\ triggered_reps s' !! replica = None
    /\ is_Some (replicas s' !! replica).
Proof.
  intros Hr. destruct (main_loop_CHANGES schedule_raises replica s Hr)
    as (s' & Hrun & Hout & Hrep & Htrig & _).
  exists s'. split_and!; [done..| |by rewrite Hrep].
  rewrite Htrig. apply lookup_delete_eq.
Qed.

(** X17. A second [CHANGES] for the token, with no file event in between,
    reports nothing: it writes [DONE] only. *)
Theorem CHANGES_twice_reports_nothing schedule_raises replica s :
  is_Some (replicas s !! replica) ->
  exists s1 s2,
    main_loop schedule_raises "CHANGES" [replica] s = Ret MainLoop s1
    /\ main_loop schedule_raises "CHANGES" [replica] s1 = Ret MainLoop s2
    /\ stdout_writes (trace s2) = stdout_writes (trace s1) ++ ["DONE" +:+ nl].
Proof.
  intros Hr. destruct (main_loop_CHANGES schedule_raises replica s Hr)
    as (s1 & Hrun1 & _ & Hrep1 & Htrig1 & _).
  assert (Hr1 : is_Some (replicas s1 !! replica)) by (by rewrite Hrep1).
  destruct (main_loop_CHANGES schedule_raises replica s1 Hr1)
    as (s2 & Hrun2 & Hout2 & _).
  exists s1, s2. split_and!; [done..|].
  rewrite Hout2. unfold drain. by rewrite Htrig1, lookup_delete_eq.
Qed.

Lemma START_again_is_a_noop_witness :
  is_Some (replicas session_r1 !! "r1")
  /\ exists s',
       startReplicaMon (fun _ => Some "no such directory") "r1" "/elsewhere" "" session_r1
       = Ret ReplicaStart s'
       /\ replicas s' = replicas session_r1 /\ observer s' = observer session_r1.
Proof.
  assert (H : is_Some (replicas session_r1 !! "r1")) by (eexists; reflexivity).
  split; [exact H|].
  destruct (START_again_is_a_noop (fun _ => Some "no such directory") "r1" "/elsewhere" ""
              session_r1 H) as (s' & H1 & H2 & H3 & _).
  exists s'. split; [exact H1|]. split; [exact H2|exact H3].
Defined.

Lemma START_registers_normalized_root_witness :
  replicas (initial false) !! "r1" = None
  /\ (fun _ : string => @None string) (Py.path_join "/tmp/a" "") = None
  /\ exists s',
       startReplicaMon (fun _ => None) "r1" "/tmp/a" "" (initial false) = Ret ReplicaStart s'
       /\ replicas s' !! "r1" = Some (ReplicaEntry "/tmp/a/" "/tmp/a/").
Proof.
  assert (H1 : replicas (initial false) !! "r1" = None) by reflexivity.
  assert (H2 : (fun _ : string => @None string) (Py.path_join "/tmp/a" "") = None)
    by reflexivity.
  split; [exact H1|]. split; [exact H2|].
  destruct (START_registers_normalized_root (fun _ => None) "r1" "/tmp/a" ""
              (initial false) H1 H2) as (root & s' & Hrun & Hroot & Hrep & _).
  exists s'. split; [exact Hrun|].
  destruct Hroot as [[_ [Hf|Hf]]|[-> _]]; [discriminate Hf|discriminate Hf|exact Hrep].
Defined.

Lemma START_refused_is_fatal_witness :
  replicas (initial false) !! "r1" = None
  /\ (fun _ : string => Some "no such directory") (Py.path_join "/tmp/a" "")
     = Some "no such directory"
  /\ exists s',
       startReplicaMon (fun _ => Some "no such directory") "r1" "/tmp/a" "" (initial false)
       = Exit (OsExit 1) s'
       /\ stdout_writes (trace s') = ["ERROR no%20such%20directory" +:+ nl].
Proof.
  assert (H1 : replicas (initial false) !! "r1" = None) by reflexivity.
  assert (H2 : (fun _ : string => Some "no such directory") (Py.path_join "/tmp/a" "")
               = Some "no such directory") by reflexivity.
  split; [exact H1|]. split; [exact H2|].
  destruct (START_refused_is_fatal (fun _ => Some "no such directory") "r1" "/tmp/a" ""
              "no such directory" (initial false) H1 H2) as (s' & Hrun & _ & _ & Hout).
  exists s'. split; [exact Hrun|exact Hout].
Defined.

Lemma event_outside_root_is_dropped_witness :
  Py.startswith "/tmp/a/" "/tmp/a" = false
  /\ triggered_reps (dispatch "/tmp/a/" "r1" "/tmp/a" session_r1) = triggered_reps session_r1
  /\ stdout_writes (trace (dispatch "/tmp/a/" "r1" "/tmp/a" session_r1)) = [].
Proof.
  assert (H : Py.startswith "/tmp/a/" "/tmp/a" = false) by reflexivity.
  split; [exact H|].
  destruct (event_outside_root_is_dropped "r1" "/tmp/a/" "/tmp/a" session_r1 H) as [_ Hroot].
  destruct (Hroot "/tmp/a" eq_refl) as (Ht & _ & Hout).
  split; [exact Ht|exact Hout].
Defined.

Lemma triggerReplica_is_silent_without_wait_witness :
  ("r1" ∉ pending_reps session_r1)
  /\ trace (triggerReplica "r1" ["y"] session_r1) = trace session_r1
  /\ pending_reps (triggerReplica "r1" ["y"] session_r1) = pending_reps session_r1.
Proof.
  assert (H : "r1" ∉ pending_reps session_r1) by apply not_elem_of_empty.
  split; [exact H|].
  exact (triggerReplica_is_silent_without_wait "r1" ["y"] session_r1 H).
Defined.

Lemma triggerReplica_pushes_and_clears_waits_witness :
  let s := set_pending_reps {["r1"; "r2"]} session_r1 in
  "r1" ∈ pending_reps s
  /\ stdout_writes (trace (triggerReplica "r1" ["y"] s)) = ["CHANGES r1" +:+ nl]
  /\ last (trace (triggerReplica "r1" ["y"] s)) = Some StdoutFlush
  /\ pending_reps (triggerReplica "r1" ["y"] s) = ∅.
Proof.
  assert (H : "r1" ∈ pending_reps (set_pending_reps {["r1"; "r2"]} session_r1)).
  { apply elem_of_union_l, elem_of_singleton. reflexivity. }
  split; [exact H|].
  destruct (triggerReplica_pushes_and_clears_waits "r1" ["y"] _ H) as (H1 & H2 & H3 & _).
  split; [exact H1|]. split; [exact H2|exact H3].
Defined.

Lemma wrong_arity_raises_ValueError_witness :
  (("WAIT" ∈ ["WAIT"; "CHANGES"; "RESET"] /\ length ["r1"; "r2"] <> 1)
   \/ ("WAIT" = "START" /\ (length ["r1"; "r2"] < 2 \/ 3 < length ["r1"; "r2"])))
  /\ exists s',
       main_loop (fun _ => None) "WAIT" ["r1"; "r2"] session_r1 = Exit (Raised "ValueError") s'
       /\ trace s' = trace session_r1.
Proof.
  assert (H : ("WAIT" ∈ ["WAIT"; "CHANGES"; "RESET"] /\ length ["r1"; "r2"] <> 1)
              \/ ("WAIT" = "START" /\ (length ["r1"; "r2"] < 2 \/ 3 < length ["r1"; "r2"]))).
  { left. split; [left|discriminate]. }
  split; [exact H|].
  destruct (wrong_arity_raises_ValueError (fun _ => None) "WAIT" ["r1"; "r2"] session_r1 H)
    as (s' & Hrun & Htr & _).
  exists s'. split; [exact Hrun|exact Htr].
Defined.

Lemma RESET_forgets_replica_witness :
  let gone := set_observer (fun _ => ∅) session_r1 in
  replicas session_r1 !! "r1" = Some (ReplicaEntry "/tmp/a/" "/tmp/a/")
  /\ ("/tmp/a/" ∈ observer session_r1)
  /\ (exists s',
        main_loop (fun _ => None) "RESET" ["r1"] session_r1 = Ret MainLoop s'
        /\ trace s' = []
        /\ replicas s' !! "r1" = None /\ triggered_reps s' !! "r1" = None)
  /\ replicas gone !! "r1" = Some (ReplicaEntry "/tmp/a/" "/tmp/a/")
  /\ ("/tmp/a/" ∉ observer gone)
  /\ (exists s',
        main_loop (fun _ => None) "RESET" ["r1"] gone = Exit (Raised "KeyError") s'
        /\ replicas s' = replicas session_r1).
Proof.
  assert (H : replicas session_r1 !! "r1" = Some (ReplicaEntry "/tmp/a/" "/tmp/a/"))
    by reflexivity.
  assert (Hin : "/tmp/a/" ∈ observer session_r1)
    by (apply (bool_decide_unpack _); vm_compute; exact I).
  assert (Hout : "/tmp/a/" ∉ observer (set_observer (fun _ => ∅) session_r1))
    by (apply (bool_decide_unpack _); vm_compute; exact I).
  split; [exact H|]. split; [exact Hin|]. split.
  - destruct (proj1 (RESET_forgets_replica (fun _ => None) "r1" _ session_r1 H) Hin)
      as (s' & Hrun & Htr & Hrep & Htrig & _).
    exists s'. split; [exact Hrun|]. split; [exact Htr|]. split; [exact Hrep|exact Htrig].
  - assert (H' : replicas (set_observer (fun _ => ∅) session_r1) !! "r1"
                  = Some (ReplicaEntry "/tmp/a/" "/tmp/a/")) by reflexivity.
    split; [exact H'|]. split; [exact Hout|].
    destruct (proj2 (RESET_forgets_replica (fun _ => None) "r1" _
                       (set_observer (fun _ => ∅) session_r1) H') Hout)
      as (s' & Hrun & _ & Hrep & _).
    exists s'. split; [exact Hrun|exact Hrep].
Defined.

Lemma WAIT_then_event_pushes_CHANGES_witness :
  let s := set_triggered_reps (delete "r1") session_r1 in
  replicas s !! "r1" = Some (ReplicaEntry "/tmp/a/" "/tmp/a/")
  /\ triggered_reps s !! "r1" = None
  /\ exists s1,
       main_loop (fun _ => None) "WAIT" ["r1"] s = Ret MainLoop s1
       /\ stdout_writes (trace (deliver "r1" "/tmp/a/x/y" s1)) = ["CHANGES r1" +:+ nl]
       /\ triggered_reps (deliver "r1" "/tmp/a/x/y" s1) !! "r1"
          = Some (Branch [("x", Branch [("y", Dirty)])]).
Proof.
  assert (H1 : replicas (set_triggered_reps (delete "r1") session_r1) !! "r1"
               = Some (ReplicaEntry "/tmp/a/" "/tmp/a/")) by reflexivity.
  assert (H2 : triggered_reps (set_triggered_reps (delete "r1") session_r1) !! "r1" = None)
    by reflexivity.
  split; [exact H1|]. split; [exact H2|].
  destruct (WAIT_then_event_pushes_CHANGES (fun _ => None) "r1" _ "x/y" _ H1 H2)
    as (s1 & Hrun & _ & _ & Hout & _ & Htrig).
  exists s1. split; [exact Hrun|]. split; [exact Hout|exact Htrig].
Defined.

Lemma CHANGES_reports_markers_then_DONE_witness :
  is_Some (replicas session_r1 !! "r1")
  /\ exists s',
       main_loop (fun _ => None) "CHANGES" ["r1"] session_r1 = Ret MainLoop s'
       /\ stdout_writes (trace s') = ["RECURSIVE x" +:+ nl; "DONE" +:+ nl]
       /\ triggered_reps s' !! "r1" = None.
Proof.
  assert (H : is_Some (replicas session_r1 !! "r1")) by (eexists; reflexivity).
  split; [exact H|].
  destruct (CHANGES_reports_markers_then_DONE (fun _ => None) "r1" session_r1 H)
    as (s' & Hrun & Hout & Htrig & _).
  exists s'. split; [exact Hrun|]. split; [exact Hout|exact Htrig].
Defined.

Lemma CHANGES_twice_reports_nothing_witness :
  is_Some (replicas session_r1 !! "r1")
  /\ exists s1 s2,
       main_loop (fun _ => None) "CHANGES" ["r1"] session_r1 = Ret MainLoop s1
       /\ main_loop (fun _ => None) "CHANGES" ["r1"] s1 = Ret MainLoop s2
       /\ stdout_writes (trace s2) = stdout_writes (trace s1) ++ ["DONE" +:+ nl].
Proof.
  assert (H : is_Some (replicas session_r1 !! "r1")) by (eexists; reflexivity).
  split; [exact H|].
  exact (CHANGES_twice_reports_nothing (fun _ => None) "r1" session_r1 H).
Defined.

(** ** What holds along every run *)

Lemma session_ok_fields s s' :
  session_ok s ->
  triggered_reps s' = triggered_reps s ->
  pending_reps s' ⊆ pending_reps s ->
  dom (replicas s) ⊆ dom (replicas s') ->
  session_ok s'.
Proof.
  intros [Ht Hp] Et Ep Er. split; [by rewrite Et|]. by etrans; [|etrans].
Qed.

Lemma triggerReplica_ok replica toks s : session_ok s -> session_ok (triggerReplica replica toks s).
Proof.
  intros [Ht Hp]. destruct (triggerReplica_effect replica toks s) as (Et & Ep & _ & Er & _).
  split.
  - intros r. rewrite Et. destruct (decide (replica = r)) as [->|Hne].
    + rewrite lookup_insert_eq. by apply trigger_tree_ok.
    + by rewrite lookup_insert_ne.
  - rewrite Ep, Er. destruct (decide _); [apply empty_subseteq|done].
Qed.

Lemma dispatch_ok root replica path s : session_ok s -> session_ok (dispatch root replica path s).
Proof.
  intros Hok. unfold dispatch. destruct (negb _).
  - apply (session_ok_fields s); by globals.
  - apply triggerReplica_ok. apply (session_ok_fields s); by globals.
Qed.

Lemma deliver_ok replica path s : session_ok s -> session_ok (deliver replica path s).
Proof. intros Hok. unfold deliver. destruct (_ !! _); [by apply dispatch_ok|done]. Qed.

Lemma startReplicaMon_ok schedule_raises replica fspath path s :
  session_ok s -> session_ok (final (startReplicaMon schedule_raises replica fspath path s)).
Proof.
  intros Hok.
  pose proof (startReplicaMon_cases schedule_raises replica fspath path s) as H.
  cbn zeta in H. destruct (replicas s !! replica) as [e|].
  - rewrite H. simpl. apply (session_ok_fields s); by globals.
  - destruct (schedule_raises _) as [msg|].
    + destruct H as (s1 & -> & Hr & _ & Hp & Ht & _). simpl.
      apply (session_ok_fields s); globals; by rewrite ?Hr, ?Hp, ?Ht.
    + destruct H as (s1 & -> & Hr & _ & Hp & Ht & _). simpl.
      apply (session_ok_fields s); globals; rewrite ?Hr, ?Hp, ?Ht; try done.
      rewrite dom_insert. apply union_subseteq_r.
Qed.

Lemma session_ok_clear s : session_ok s -> session_ok (set_pending_reps ∅ s).
Proof. intros [Ht _]. split; [done|apply empty_subseteq]. Qed.

Lemma main_loop_ok schedule_raises cmd args s :
  session_ok s -> session_ok (final (main_loop schedule_raises cmd args s)).
Proof.
  intros Hok. unfold main_loop. unfold_M.
  destruct (String.eqb cmd "WAIT") eqn:Ew.
  - apply String.eqb_eq in Ew as ->. simpl.
    change (when false (set_pending_reps ∅) s) with s.
    destruct args as [|replica [|? ?]]; simpl; try done.
    destruct (contains replica (replicas s)) eqn:Hc; simpl.
    + destruct (contains replica (triggered_reps s)); simpl.
      * apply session_ok_clear. apply (session_ok_fields s); by globals.
      * destruct Hok as [Ht Hp]. split; [done|]. simpl.
        apply union_subseteq. split; [|done].
        apply singleton_subseteq_l, elem_of_dom. by apply contains_lookup.
    + apply (session_ok_fields s); by globals.
  - simpl. change (when true (set_pending_reps ∅) s) with (set_pending_reps ∅ s).
    set (s0 := set_pending_reps ∅ s).
    assert (H0 : session_ok s0) by (by apply session_ok_clear).
    assert (Hp0 : pending_reps s0 = ∅) by done.
    clearbody s0.
    destruct (String.eqb cmd "DEBUG"); [simpl; by apply (session_ok_fields s0)|].
    destruct (String.eqb cmd "START").
    { destruct args as [|a [|b [|c [|? ?]]]]; simpl; try done; by apply startReplicaMon_ok. }
    destruct (String.eqb cmd "CHANGES").
    { destruct args as [|replica [|? ?]]; simpl; try done.
      destruct (contains replica (replicas s0)); simpl.
      - destruct (triggered_reps s0 !! replica) as [t|] eqn:Et; simpl.
        + destruct (reportRecursiveChanges_effect t "" s0) as (_ & Hr & Hp & Htr & _).
          destruct H0 as [Ht Hpend]. split.
          * intros r. globals. rewrite Htr.
            destruct (decide (replica = r)) as [->|Hne];
              [by rewrite lookup_delete_eq|by rewrite lookup_delete_ne].
          * globals. by rewrite Hp, Hr.
        + apply (session_ok_fields s0); by globals.
      - apply (session_ok_fields s0); by globals. }
    destruct (String.eqb cmd "RESET").
    { destruct args as [|replica [|? ?]]; simpl; try done.
      destruct (replicas s0 !! replica) as [e|]; simpl.
      - unfold unschedule. destruct (decide (watch e ∈ observer s0)); simpl; [|done].
        destruct H0 as [Ht Hpend]. split.
        + intros r. simpl. destruct (decide (replica = r)) as [->|Hne];
            [by rewrite lookup_delete_eq|by rewrite lookup_delete_ne].
        + simpl. rewrite Hp0. apply empty_subseteq.
      - apply (session_ok_fields s0); by globals. }
    simpl. apply (session_ok_fields s0); by globals.
Qed.

Lemma step_ok schedule_raises c line s :
  session_ok s -> session_ok (final (step schedule_raises c line s)).
Proof.
  intros Hok. unfold step, recvCmd. unfold_M.
  destruct (negb _); simpl; [apply (session_ok_fields s); by globals|].
  set (cmd := hd "" _). set (args := map Py.unquote _). set (s0 := when _ _ _).
  assert (H0 : session_ok s0) by (apply (session_ok_fields s); unfold s0; by globals).
  clearbody s0 cmd args. destruct c.
  - unfold main_handshake. unfold_M. destruct (negb _); simpl.
    + apply (session_ok_fields s0); by globals.
    + destruct args as [|v [|? ?]]; simpl; try done.
      unfold when. destruct (negb _); [|done]. apply (session_ok_fields s0); by globals.
  - by apply main_loop_ok.
  - unfold startReplicaMon_loop. unfold_M.
    repeat (destruct (String.eqb _ _); simpl; try done);
      apply (session_ok_fields s0); by globals.
Qed.

Lemma run_ok schedule_raises evs : forall c s,
  session_ok s -> session_ok (final (run schedule_raises c evs s)).
Proof.
  induction evs as [|[line|replica path] evs IH]; intros c s Hok; simpl; [done| |].
  - unfold_M. pose proof (step_ok schedule_raises c line s Hok) as Hs.
    destruct (step schedule_raises c line s) as [c' s'|k s']; [by apply IH|done].
  - unfold_M. apply IH. by apply deliver_ok.
Qed.

Lemma program_ok schedule_raises debug_flag evs :
  session_ok (final (program schedule_raises debug_flag evs)).
Proof.
  assert (H0 : session_ok (main_begin (initial debug_flag))).
  { unfold main_begin. apply (session_ok_fields (initial debug_flag)); [|by globals..].
    split; [intros r; simpl; by rewrite lookup_empty|simpl; apply empty_subseteq]. }
  pose proof (run_ok schedule_raises evs Handshaking _ H0) as H.
  pose proof (program_final schedule_raises debug_flag evs) as Hf. cbn zeta in Hf.
  destruct Hf as (Hr & _ & Hp & Ht & _).
  apply (session_ok_fields _ _ H); [done|by rewrite Hp|by rewrite Hr].
Qed.

(** X18. Whatever the client sends and whatever the watcher reports,
    every entry of [triggered_reps] stays a well-formed tree: no key twice
    on a level and no branch without a marker below it. *)
Theorem trees_stay_well_formed schedule_raises debug_flag evs replica :
  entry_ok (triggered_reps (final (program schedule_raises debug_flag evs)) !! replica).
Proof. by destruct (program_ok schedule_raises debug_flag evs) as [H _]. Qed.

(** X19. Whatever the client sends and whatever the watcher reports,
    only registered replicas are waited on; so a pushed [CHANGES] always
    names a registered replica. *)
Theorem only_registered_replicas_are_waited_on schedule_raises debug_flag evs :
  pending_reps (final (program schedule_raises debug_flag evs))
  ⊆ dom (replicas (final (program schedule_raises debug_flag evs))).
Proof. by destruct (program_ok schedule_raises debug_flag evs) as [_ H]. Qed.

(** ** How the [finally] block ends *)

Lemma unschedule_each_gone keys : forall s,
  (exists r e, r ∈ keys /\ replicas s !! r = Some e /\ watch e ∉ observer s) ->
  exists s', unschedule_each keys s = Exit (Raised "KeyError") s'.
Proof.
  induction keys as [|key keys IH]; intros s (r & e & Hin & He & Hw).
  - by apply elem_of_nil in Hin.
  - simpl. unfold_M.
    destruct (replicas s !! key) as [e0|] eqn:E0; simpl; [|by eexists].
    unfold unschedule. destruct (decide (watch e0 ∈ observer s)) as [Hs|Hs]; simpl;
      [|by eexists].
    apply elem_of_cons in Hin as [->|Hin]; [congruence|].
    apply IH. exists r, e. split_and!; try done.
    simpl. rewrite elem_of_difference. by intros [? _].
Qed.

Lemma unschedule_each_shared keys : forall s,
  NoDup keys ->
  (exists r1 r2 e1 e2,
     r1 <> r2 /\ r1 ∈ keys /\ r2 ∈ keys
     /\ replicas s !! r1 = Some e1 /\ replicas s !! r2 = Some e2
     /\ watch e1 = watch e2) ->
  exists s', unschedule_each keys s = Exit (Raised "KeyError") s'.
Proof.
  induction keys as [|key keys IH]; intros s Hnd (r1 & r2 & e1 & e2 & Hne & H1 & H2 & L1 & L2 & Hw).
  - by apply elem_of_nil in H1.
  - apply NoDup_cons in Hnd as [Hkey Hnd]. simpl. unfold_M.
    destruct (replicas s !! key) as [e0|] eqn:E0; simpl; [|by eexists].
    unfold unschedule. destruct (decide (watch e0 ∈ observer s)) as [Hs|Hs]; simpl;
      [|by eexists].
    assert (Hgone : forall r e, r ∈ keys -> replicas s !! r = Some e -> watch e = watch e0 ->
              exists s', unschedule_each keys
                           (set_observer (fun o => o ∖ {[watch e0]}) s)
                         = Exit (Raised "KeyError") s').
    { intros r e Hr Le Hwe. apply unschedule_each_gone. exists r, e.
      split_and!; try done. simpl. rewrite elem_of_difference, elem_of_singleton.
      intros [_ ?]. done. }
    apply elem_of_cons in H1 as [->|H1]; apply elem_of_cons in H2 as [->|H2]; try done.
    + apply (Hgone r2 e2); [done..|]. congruence.
    + apply (Hgone r1 e1); [done..|]. congruence.
    + apply IH; [done|]. exists r1, r2, e1, e2. by split_and!.
Qed.

Lemma unschedule_each_apart keys : forall s,
  NoDup keys ->
  (forall r, r ∈ keys -> exists e, replicas s !! r = Some e /\ watch e ∈ observer s) ->
  (forall r1 r2 e1 e2, r1 ∈ keys -> r2 ∈ keys ->
     replicas s !! r1 = Some e1 -> replicas s !! r2 = Some e2 ->
     watch e1 = watch e2 -> r1 = r2) ->
  exists s',
    unschedule_each keys s = Ret () s'
    /\ forall r e, r ∈ keys -> replicas s !! r = Some e -> watch e ∉ observer s'.
Proof.
  induction keys as [|key keys IH]; intros s Hnd Hsch Hinj.
  - eexists. split; [reflexivity|]. intros r e Hr. by apply elem_of_nil in Hr.
  - apply NoDup_cons in Hnd as [Hkey Hnd]. simpl. unfold_M.
    destruct (Hsch key) as (e0 & E0 & Hs); [left|]. rewrite E0. simpl.
    unfold unschedule. rewrite decide_True by done. simpl.
    set (s1 := set_observer (fun o => o ∖ {[watch e0]}) s).
    destruct (IH s1) as (s' & Hrun & Hrel); [done| |by (intros; eapply Hinj; by try right)|].
    + intros r Hr. destruct (Hsch r) as (e & Le & He); [by right|].
      exists e. split; [done|]. simpl. rewrite elem_of_difference, elem_of_singleton.
      split; [done|]. intros Hw.
      assert (r = key) by (eapply (Hinj r key); [by right|left|done..]). by subst.
    + exists s'. split; [done|]. intros r e Hr Le.
      apply elem_of_cons in Hr as [->|Hr]; [|by eapply Hrel].
      assert (e = e0) by congruence. subst.
      pose proof (unschedule_each_frame keys s1) as Hf. cbn zeta in Hf.
      rewrite Hrun in Hf. simpl in Hf. destruct Hf as (_ & _ & _ & _ & _ & _ & Ho).
      intros Hw. apply Ho in Hw. simpl in Hw.
      apply elem_of_difference in Hw as [_ Hw]. apply Hw. by apply elem_of_singleton.
Qed.

(** The [finally] block, on a session whose registered watches are all
    scheduled. *)
Lemma finally_block_outcome s :
  dict_ok s ->
  (watches_scheduled s -> ~ watch_shared s ->
   exists s', finally_block s = Ret () s' /\ watches_released s')
  /\ (watch_shared s -> exists s', finally_block s = Exit (Raised "KeyError") s').
Proof.
  intros [Hnd Hkeys]. unfold finally_block. split.
  - intros Hsch Hapart.
    destruct (unschedule_each_apart (replicas_order s) s Hnd) as (s' & Hrun & Hrel).
    + intros r [e He]%Hkeys. exists e. split; [done|]. by eapply Hsch.
    + intros r1 r2 e1 e2 _ _ L1 L2 Hw. destruct (decide (r1 = r2)) as [|Hne]; [done|].
      destruct Hapart. by exists r1, r2, e1, e2.
    + exists s'. split; [done|]. intros r e He.
      pose proof (unschedule_each_frame (replicas_order s) s) as Hf. cbn zeta in Hf.
      rewrite Hrun in Hf. simpl in Hf. destruct Hf as (Hr & _).
      rewrite Hr in He. apply (Hrel r e); [|done]. apply Hkeys. by eexists.
  - intros (r1 & r2 & e1 & e2 & Hne & L1 & L2 & Hw).
    apply unschedule_each_shared; [done|]. exists r1, r2, e1, e2.
    split_and!; try done; apply Hkeys; by eexists.
Qed.

(** ** The keys of [replicas] along a run *)

Lemma dok_same s s' :
  replicas s' = replicas s -> replicas_order s' = replicas_order s ->
  dict_ok s -> dict_ok s'.
Proof. unfold dict_ok. by intros -> ->. Qed.

Lemma dok_sendCmd cmd args s : dict_ok s -> dict_ok (sendCmd cmd args s).
Proof. apply dok_same; by globals. Qed.
Lemma dok_sendAck s : dict_ok s -> dict_ok (sendAck s).
Proof. apply dok_same; by globals. Qed.
Lemma dok_warn msg s : dict_ok s -> dict_ok (warn msg s).
Proof. apply dok_same; by globals. Qed.
Lemma dok_when b msg s : dict_ok s -> dict_ok (when b (_debug msg) s).
Proof. apply dok_same; by globals. Qed.
Lemma dok_emit e s : dict_ok s -> dict_ok (emit e s).
Proof. done. Qed.
Lemma dok_set_pending_reps p s : dict_ok s -> dict_ok (set_pending_reps p s).
Proof. done. Qed.
Lemma dok_set_triggered_reps f s : dict_ok s -> dict_ok (set_triggered_reps f s).
Proof. done. Qed.
Lemma dok_set_observer f s : dict_ok s -> dict_ok (set_observer f s).
Proof. done. Qed.
Lemma dok_schedule w s : dict_ok s -> dict_ok (schedule w s).
Proof. done. Qed.
Lemma dok_set_in_debug b s : dict_ok s -> dict_ok (set_in_debug b s).
Proof. done. Qed.

Lemma dok_replicas_setitem replica e s :
  dict_ok s -> dict_ok (replicas_setitem replica e s).
Proof.
  intros [Hnd Hkeys]. unfold dict_ok, replicas_setitem. simpl.
  destruct (contains replica (replicas s)) eqn:Hc.
  - apply contains_lookup in Hc. split; [done|]. intros r.
    rewrite lookup_insert_is_Some, Hkeys. split; [|by intros [<-|[_ ?]]].
    intros Hr. destruct (decide (replica = r)); [by left|by right].
  - assert (Hnew : replica ∉ replicas_order s).
    { intros Hin%Hkeys. apply contains_lookup in Hin. congruence. }
    split.
    + apply NoDup_app. split_and!; [done| |apply NoDup_singleton].
      intros r Hr ->%list_elem_of_singleton. done.
    + intros r. rewrite elem_of_app, list_elem_of_singleton, lookup_insert_is_Some, Hkeys.
      split.
      * intros [Hr| ->]; [|by left]. destruct (decide (replica = r)); [by left|by right].
      * intros [<-|[_ ?]]; [by right|by left].
Qed.

Lemma dok_replicas_delitem replica s :
  dict_ok s -> dict_ok (replicas_delitem replica s).
Proof.
  intros [Hnd Hkeys]. unfold dict_ok, replicas_delitem. simpl. split.
  - by apply NoDup_filter.
  - intros r. rewrite list_elem_of_filter, lookup_delete_is_Some, Hkeys.
    split; intros [? ?]; split; try done; congruence.
Qed.

Lemma dok_report t local_path s :
  dict_ok s -> dict_ok (reportRecursiveChanges local_path t s).
Proof.
  revert local_path s. induction t as [|d IH] using node_ind; intros local_path s Hs.
  - by apply dok_sendCmd.
  - revert s Hs. induction IH as [|[tok n] d Hn _ IHd]; intros s Hs; [done|].
    rewrite reportRecursiveChanges_cons. apply IHd. by apply Hn.
Qed.

Lemma dok_triggerReplica replica toks s :
  dict_ok s -> dict_ok (triggerReplica replica toks s).
Proof.
  intros Hs. unfold triggerReplica, injectCmd. apply dok_set_triggered_reps.
  destruct (decide _); [|done].
  by apply dok_set_pending_reps, dok_emit, dok_sendCmd.
Qed.

Ltac dok :=
  repeat match goal with
    | |- dict_ok _ => assumption
    | |- dict_ok (sendAck _) => apply dok_sendAck
    | |- dict_ok (warn _ _) => apply dok_warn
    | |- dict_ok (when _ (_debug _) _) => apply dok_when
    | |- dict_ok (set_pending_reps _ _) => apply dok_set_pending_reps
    | |- dict_ok (replicas_setitem _ _ _) => apply dok_replicas_setitem
    | |- dict_ok (replicas_delitem _ _) => apply dok_replicas_delitem
    | |- dict_ok (schedule _ _) => apply dok_schedule
    | |- dict_ok (set_triggered_reps _ _) => apply dok_set_triggered_reps
    | |- dict_ok (set_observer _ _) => apply dok_set_observer
    | |- dict_ok (set_in_debug _ _) => apply dok_set_in_debug
    | |- dict_ok (reportRecursiveChanges _ _ _) => apply dok_report
    | |- dict_ok (triggerReplica _ _ _) => apply dok_triggerReplica
    | |- dict_ok (sendCmd _ _ _) => apply dok_sendCmd
    | |- dict_ok (emit _ _) => apply dok_emit
    end.

Lemma dok_deliver replica path s : dict_ok s -> dict_ok (deliver replica path s).
Proof.
  intros Hs. unfold deliver. destruct (_ !! _); [|done].
  unfold dispatch. destruct (negb _); by dok.
Qed.

Lemma dok_startReplicaMon schedule_raises replica fspath path s :
  dict_ok s -> dict_ok (final (startReplicaMon schedule_raises replica fspath path s)).
Proof.
  intros Hs. unfold startReplicaMon. unfold_M.
  destruct (contains replica (replicas s)); simpl; [by dok|].
  destruct (schedule_raises _); simpl; by dok.
Qed.

Lemma dok_main_loop schedule_raises cmd args s :
  dict_ok s -> dict_ok (final (main_loop schedule_raises cmd args s)).
Proof.
  intros Hs. unfold main_loop. unfold_M. simpl.
  set (s0 := when (negb (String.eqb cmd "WAIT")) (set_pending_reps ∅) s).
  assert (H0 : dict_ok s0) by (unfold s0, when; by destruct (negb _)).
  clearbody s0.
  destruct (String.eqb cmd "DEBUG"); [simpl; by dok|].
  destruct (String.eqb cmd "START").
  { destruct args as [|a [|b [|c [|? ?]]]]; simpl; try done; by apply dok_startReplicaMon. }
  destruct (String.eqb cmd "WAIT").
  { destruct args as [|replica [|? ?]]; simpl; try done.
    destruct (contains replica (replicas s0)); simpl; [|by dok].
    destruct (contains replica (triggered_reps s0)); simpl; by dok. }
  destruct (String.eqb cmd "CHANGES").
  { destruct args as [|replica [|? ?]]; simpl; try done.
    destruct (contains replica (replicas s0)); simpl; [|by dok].
    destruct (triggered_reps s0 !! replica); simpl; by dok. }
  destruct (String.eqb cmd "RESET").
  { destruct args as [|replica [|? ?]]; simpl; try done.
    destruct (replicas s0 !! replica) as [e|]; simpl; [|by dok].
    unfold unschedule. destruct (decide (watch e ∈ observer s0)); simpl; by dok. }
  simpl. by dok.
Qed.

Lemma dok_step schedule_raises c line s :
  dict_ok s -> dict_ok (final (step schedule_raises c line s)).
Proof.
  intros Hs. unfold step, recvCmd. unfold_M.
  destruct (negb _); simpl; [by dok|].
  set (cmd := hd "" _). set (args := map Py.unquote _).
  match goal with |- dict_ok (final (_ ?x)) =>
    assert (H0 : dict_ok x) by dok; set (s0 := x) in * end.
  clearbody cmd args s0. destruct c.
  - unfold main_handshake. unfold_M. destruct (negb _); simpl; [by dok|].
    destruct args as [|v [|? ?]]; simpl; try done.
    unfold when. destruct (negb _); by dok.
  - by apply dok_main_loop.
  - unfold startReplicaMon_loop. unfold_M.
    repeat (destruct (String.eqb _ _); simpl; try done); by dok.
Qed.

Lemma dok_run schedule_raises evs : forall c s,
  dict_ok s -> dict_ok (final (run schedule_raises c evs s)).
Proof.
  induction evs as [|[line|replica path] evs IH]; intros c s Hs; simpl; [done| |].
  - unfold_M. pose proof (dok_step schedule_raises c line s Hs) as H.
    destruct (step schedule_raises c line s); [by apply IH|done].
  - unfold_M. apply IH. by apply dok_deliver.
Qed.

(** X20. The end of the input stream, wherever the main thread waits for
    a command. When every registered replica has its watch scheduled and
    no two of them hold the same watch, the [finally] block unschedules
    each and the process ends by [sys.exit(0)] with no registered replica
    left with a scheduled watch. When two registered tokens hold one
    watch (two [START]s on one root), the second [unschedule] raises
    [KeyError] and the process ends by that exception instead. *)
Theorem end_of_stream_unschedules schedule_raises debug_flag evs c s0 line :
  run schedule_raises Handshaking evs (main_begin (initial debug_flag)) = Ret c s0 ->
  Py.endswith_char (ascii_of_nat 10) line = false ->
  (watches_scheduled s0 -> ~ watch_shared s0 ->
   exists s,
     program schedule_raises debug_flag (evs ++ [Readline line]) = Exit (SysExit 0) s
     /\ watches_released s /\ replicas s = replicas s0)
  /\ (watch_shared s0 ->
      exists s,
        program schedule_raises debug_flag (evs ++ [Readline line])
        = Exit (Raised "KeyError") s).
Proof.
  intros Hrun Hline.
  assert (Hd0 : dict_ok s0).
  { pose proof (dok_run schedule_raises evs Handshaking (main_begin (initial debug_flag))) as H.
    rewrite Hrun in H. apply H. unfold main_begin. apply dok_sendCmd.
    split; [constructor|]. intros r. simpl. rewrite lookup_empty.
    split; [by intros ?%elem_of_nil|by intros [? ?]]. }
  unfold program. rewrite run_app, Hrun. simpl. unfold_M.
  destruct (step_end_of_stream schedule_raises c line s0 Hline) as (s1 & -> & Hr & Hk & Ho).
  assert (Hd1 : dict_ok s1) by (by apply (dok_same s0)).
  destruct (finally_block_outcome s1 Hd1) as [Hfine Hshared]. simpl. split.
  - intros Hsch Hapart. destruct Hfine as (s & Hs & Hrel).
    + intros r e. rewrite Hr, Ho. apply Hsch.
    + intros (r1 & r2 & e1 & e2 & ? & ? & ? & ?). apply Hapart.
      exists r1, r2, e1, e2. by rewrite <- Hr.
    + exists s. rewrite Hs. split_and!; try done.
      pose proof (unschedule_each_frame (replicas_order s1) s1) as Hf. cbn zeta in Hf.
      unfold finally_block in Hs. rewrite Hs in Hf. simpl in Hf.
      destruct Hf as (-> & _). done.
  - intros (r1 & r2 & e1 & e2 & ? & ? & ? & ?). destruct Hshared as (s & Hs).
    + exists r1, r2, e1, e2. by rewrite Hr.
    + exists s. by rewrite Hs.
Qed.

Lemma end_of_stream_unschedules_witness :
  (exists s0 s,
     run (fun _ => None) Handshaking
       [line_of "VERSION 1"; line_of "START r1 /tmp/a"; line_of "DONE"]
       (main_begin (initial false)) = Ret MainLoop s0
     /\ Py.endswith_char (ascii_of_nat 10) "" = false
     /\ watches_scheduled s0 /\ ~ watch_shared s0
     /\ program (fun _ => None) false
          ([line_of "VERSION 1"; line_of "START r1 /tmp/a"; line_of "DONE"]
           ++ [Readline ""]) = Exit (SysExit 0) s
     /\ watches_released s)
  /\ (exists s0 s,
        run (fun _ => None) Handshaking
          [line_of "VERSION 1"; line_of "START r1 /tmp/a"; line_of "DONE";
           line_of "START r2 /tmp/a"; line_of "DONE"]
          (main_begin (initial false)) = Ret MainLoop s0
        /\ watch_shared s0
        /\ program (fun _ => None) false
             ([line_of "VERSION 1"; line_of "START r1 /tmp/a"; line_of "DONE";
               line_of "START r2 /tmp/a"; line_of "DONE"] ++ [Readline ""])
           = Exit (Raised "KeyError") s).
Proof.
  split.
  - eexists.
    assert (Hrun : run (fun _ => None) Handshaking
                     [line_of "VERSION 1"; line_of "START r1 /tmp/a"; line_of "DONE"]
                     (main_begin (initial false)) = Ret MainLoop _)
      by (vm_compute; reflexivity).
    match type of Hrun with _ = Ret _ ?x => set (s0 := x) in * end.
    assert (Hreg : forall r e, replicas s0 !! r = Some e ->
                     r = "r1" /\ e = ReplicaEntry "/tmp/a/" "/tmp/a/").
    { intros r e. change (replicas s0) with ({["r1" := ReplicaEntry "/tmp/a/" "/tmp/a/"]}
                                             : gmap string replica_entry).
      intros [<- <-]%lookup_singleton_Some. done. }
    assert (Hsch : watches_scheduled s0).
    { intros r e [_ ->]%Hreg. apply (bool_decide_unpack _). vm_compute. exact I. }
    assert (Hapart : ~ watch_shared s0).
    { intros (r1 & r2 & e1 & e2 & Hne & [-> _]%Hreg & [-> _]%Hreg & _). done. }
    destruct (proj1 (end_of_stream_unschedules (fun _ => None) false _ _ _ "" Hrun eq_refl)
                Hsch Hapart) as (s & Hs & Hrel & _).
    exists s. split_and!; try done.
  - eexists.
    assert (Hrun : run (fun _ => None) Handshaking
                     [line_of "VERSION 1"; line_of "START r1 /tmp/a"; line_of "DONE";
                      line_of "START r2 /tmp/a"; line_of "DONE"]
                     (main_begin (initial false)) = Ret MainLoop _)
      by (vm_compute; reflexivity).
    match type of Hrun with _ = Ret _ ?x => set (s0 := x) in * end.
    assert (Hshared : watch_shared s0).
    { exists "r1", "r2", (ReplicaEntry "/tmp/a/" "/tmp/a/"), (ReplicaEntry "/tmp/a/" "/tmp/a/").
      split_and!; [discriminate|reflexivity..]. }
    destruct (proj2 (end_of_stream_unschedules (fun _ => None) false _ _ _ "" Hrun eq_refl)
                Hshared) as (s & Hs).
    exists s. split_and!; done.
Defined.

(** ** The debug flag changes the log only *)

Lemma without_log_app tr1 tr2 :
  without_log (tr1 ++ tr2) = without_log tr1 ++ without_log tr2.
Proof. induction tr1 as [|[] tr1 IH]; simpl; by rewrite ?IH. Qed.

Lemma sbl_refl s : same_but_log s s.
Proof. by repeat split. Qed.

Lemma sbl_sym s1 s2 : same_but_log s1 s2 -> same_but_log s2 s1.
Proof. intros (? & ? & ? & ? & ? & ?). by repeat split. Qed.

Lemma sbl_trans s1 s2 s3 : same_but_log s1 s2 -> same_but_log s2 s3 -> same_but_log s1 s3.
Proof.
  intros (? & ? & ? & ? & ? & ?) (? & ? & ? & ? & ? & ?). repeat split; by etrans.
Qed.

Lemma sbl_emit e s1 s2 : same_but_log s1 s2 -> same_but_log (emit e s1) (emit e s2).
Proof.
  intros (? & ? & ? & ? & ? & Htr). repeat split; try done.
  unfold emit. cbn [trace]. by rewrite !without_log_app, Htr.
Qed.

Lemma sbl_log_l msg s1 s2 : same_but_log s1 s2 -> same_but_log (emit (StderrWrite msg) s1) s2.
Proof.
  intros (? & ? & ? & ? & ? & Htr). repeat split; try done.
  unfold emit. cbn [trace]. rewrite without_log_app, Htr. simpl. apply app_nil_r.
Qed.

Lemma sbl_when b1 b2 m1 m2 s1 s2 :
  same_but_log s1 s2 -> same_but_log (when b1 (_debug m1) s1) (when b2 (_debug m2) s2).
Proof.
  intros H. unfold when, _debug. destruct b1, b2; try done.
  - by apply sbl_log_l, sbl_sym, sbl_log_l, sbl_sym.
  - by apply sbl_log_l.
  - by apply sbl_sym, sbl_log_l, sbl_sym.
Qed.

Lemma sbl_warn m s1 s2 : same_but_log s1 s2 -> same_but_log (warn m s1) (warn m s2).
Proof. apply sbl_emit. Qed.

Lemma sbl_sendCmd cmd args s1 s2 :
  same_but_log s1 s2 -> same_but_log (sendCmd cmd args s1) (sendCmd cmd args s2).
Proof. intros H. unfold sendCmd. by apply sbl_emit, sbl_when. Qed.

Lemma sbl_sendAck s1 s2 : same_but_log s1 s2 -> same_but_log (sendAck s1) (sendAck s2).
Proof. apply sbl_sendCmd. Qed.

Lemma sbl_set_pending_reps p s1 s2 :
  same_but_log s1 s2 -> same_but_log (set_pending_reps p s1) (set_pending_reps p s2).
Proof. intros (? & ? & ? & ? & ? & ?). by repeat split. Qed.

Lemma sbl_set_replicas f s1 s2 :
  same_but_log s1 s2 -> same_but_log (set_replicas f s1) (set_replicas f s2).
Proof. intros (? & ? & ? & ? & ? & ?). repeat split; simpl; congruence. Qed.

Lemma sbl_set_replicas_order f s1 s2 :
  same_but_log s1 s2 -> same_but_log (set_replicas_order f s1) (set_replicas_order f s2).
Proof. intros (? & ? & ? & ? & ? & ?). repeat split; simpl; congruence. Qed.

Lemma sbl_replicas_setitem replica e s1 s2 :
  same_but_log s1 s2 ->
  same_but_log (replicas_setitem replica e s1) (replicas_setitem replica e s2).
Proof.
  intros (Hr & Hk & ? & ? & ? & ?). repeat split; simpl; rewrite ?Hr, ?Hk; congruence.
Qed.

Lemma sbl_replicas_delitem replica s1 s2 :
  same_but_log s1 s2 ->
  same_but_log (replicas_delitem replica s1) (replicas_delitem replica s2).
Proof. intros (? & ? & ? & ? & ? & ?). repeat split; simpl; congruence. Qed.

Lemma sbl_set_triggered_reps f s1 s2 :
  same_but_log s1 s2 -> same_but_log (set_triggered_reps f s1) (set_triggered_reps f s2).
Proof. intros (? & ? & ? & ? & ? & ?). repeat split; simpl; congruence. Qed.

Lemma sbl_set_observer f s1 s2 :
  same_but_log s1 s2 -> same_but_log (set_observer f s1) (set_observer f s2).
Proof. intros (? & ? & ? & ? & ? & ?). repeat split; simpl; congruence. Qed.

Lemma sbl_schedule w s1 s2 :
  same_but_log s1 s2 -> same_but_log (schedule w s1) (schedule w s2).
Proof. apply sbl_set_observer. Qed.

Lemma sbl_set_in_debug b1 b2 s1 s2 :
  same_but_log s1 s2 -> same_but_log (set_in_debug b1 s1) (set_in_debug b2 s2).
Proof. intros (? & ? & ? & ? & ? & ?). by repeat split. Qed.

Lemma sbl_report t : forall local_path s1 s2,
  same_but_log s1 s2 ->
  same_but_log (reportRecursiveChanges local_path t s1) (reportRecursiveChanges local_path t s2).
Proof.
  induction t as [|d IH] using node_ind; intros local_path s1 s2 H.
  - by apply sbl_sendCmd.
  - revert s1 s2 H. induction IH as [|[tok n] d Hn _ IHd]; intros s1 s2 H; [done|].
    rewrite !reportRecursiveChanges_cons. apply IHd. by apply Hn.
Qed.

Ltac sbl :=
  repeat match goal with
    | |- same_but_log _ _ => assumption
    | |- same_but_log (sendCmd _ _ _) (sendCmd _ _ _) => apply sbl_sendCmd
    | |- same_but_log (sendAck _) (sendAck _) => apply sbl_sendAck
    | |- same_but_log (warn _ _) (warn _ _) => apply sbl_warn
    | |- same_but_log (when _ (_debug _) _) (when _ (_debug _) _) => apply sbl_when
    | |- same_but_log (set_pending_reps _ _) (set_pending_reps _ _) =>
        apply sbl_set_pending_reps
    | |- same_but_log (set_replicas _ _) (set_replicas _ _) => apply sbl_set_replicas
    | |- same_but_log (set_replicas_order _ _) (set_replicas_order _ _) =>
        apply sbl_set_replicas_order
    | |- same_but_log (replicas_setitem _ _ _) (replicas_setitem _ _ _) =>
        apply sbl_replicas_setitem
    | |- same_but_log (replicas_delitem _ _) (replicas_delitem _ _) =>
        apply sbl_replicas_delitem
    | |- same_but_log (schedule _ _) (schedule _ _) => apply sbl_schedule
    | |- same_but_log (set_triggered_reps _ _) (set_triggered_reps _ _) =>
        apply sbl_set_triggered_reps
    | |- same_but_log (set_observer _ _) (set_observer _ _) => apply sbl_set_observer
    | |- same_but_log (set_in_debug _ _) (set_in_debug _ _) => apply sbl_set_in_debug
    | |- same_but_log (reportRecursiveChanges _ _ _) (reportRecursiveChanges _ _ _) =>
        apply sbl_report
    | |- same_but_log (emit _ _) (emit _ _) => apply sbl_emit
    end.

Lemma sbl_triggerReplica replica toks s1 s2 :
  same_but_log s1 s2 ->
  same_but_log (triggerReplica replica toks s1) (triggerReplica replica toks s2).
Proof.
  intros H. pose proof H as (Hr & Hk & Hp & Ht & Ho & Htr). unfold triggerReplica.
  rewrite Hp. destruct (decide _).
  - apply sbl_sym in H.
    assert (H' : same_but_log
                   (set_pending_reps ∅ (injectCmd "CHANGES" (ArgList [replica]) s1))
                   (set_pending_reps ∅ (injectCmd "CHANGES" (ArgList [replica]) s2))).
    { unfold injectCmd. apply sbl_sym in H. sbl. }
    destruct H' as (? & ? & ? & Ht' & ? & ?). repeat split; try done.
    cbn [triggered_reps set_triggered_reps]. by rewrite Ht'.
  - repeat split; try done. cbn [triggered_reps set_triggered_reps]. by rewrite Ht.
Qed.

Lemma sbl_dispatch root replica path s1 s2 :
  same_but_log s1 s2 ->
  same_but_log (dispatch root replica path s1) (dispatch root replica path s2).
Proof.
  intros H. unfold dispatch. destruct (negb _); [by sbl|].
  apply sbl_triggerReplica. by sbl.
Qed.

Lemma sbl_deliver replica path s1 s2 :
  same_but_log s1 s2 -> same_but_log (deliver replica path s1) (deliver replica path s2).
Proof.
  intros H. pose proof H as (Hr & _). unfold deliver. rewrite Hr.
  destruct (_ !! _); [by apply sbl_dispatch|done].
Qed.

Ltac same := first [ done | split; [done|by sbl] ].

Lemma same_startReplicaMon schedule_raises replica fspath path s1 s2 :
  same_but_log s1 s2 ->
  same_outcome (startReplicaMon schedule_raises replica fspath path s1)
               (startReplicaMon schedule_raises replica fspath path s2).
Proof.
  intros H. pose proof H as (Hr & Hk & Hp & Ht & Ho & Htr).
  unfold startReplicaMon. unfold_M. rewrite Hr.
  destruct (contains replica (replicas s2)); simpl; [same|].
  destruct (schedule_raises _); simpl; same.
Qed.

Lemma same_main_loop schedule_raises cmd args s1 s2 :
  same_but_log s1 s2 ->
  same_outcome (main_loop schedule_raises cmd args s1)
               (main_loop schedule_raises cmd args s2).
Proof.
  intros H. unfold main_loop. unfold_M.
  destruct (String.eqb cmd "WAIT") eqn:Ew.
  - apply String.eqb_eq in Ew as ->. simpl.
    change (when false (set_pending_reps ∅) ?s) with s.
    pose proof H as (Hr & Hk & Hp & Ht & Ho & Htr).
    destruct args as [|replica [|? ?]]; simpl; try same.
    rewrite Hr. destruct (contains replica (replicas s2)); simpl; [|same].
    rewrite Ht. destruct (contains replica (triggered_reps s2)); simpl; [same|].
    rewrite Hp. same.
  - simpl. change (when true (set_pending_reps ∅) ?s) with (set_pending_reps ∅ s).
    apply (sbl_set_pending_reps ∅) in H.
    set (a := set_pending_reps ∅ s1) in *. set (b := set_pending_reps ∅ s2) in *.
    clearbody a b. pose proof H as (Hr & Hk & Hp & Ht & Ho & Htr).
    destruct (String.eqb cmd "DEBUG"); [simpl; same|].
    destruct (String.eqb cmd "START").
    { destruct args as [|x [|y [|z [|? ?]]]]; simpl; try same;
        by apply same_startReplicaMon. }
    destruct (String.eqb cmd "CHANGES").
    { destruct args as [|replica [|? ?]]; simpl; try same.
      rewrite Hr. destruct (contains replica (replicas b)); simpl; [|same].
      rewrite Ht. destruct (triggered_reps b !! replica); simpl; same. }
    destruct (String.eqb cmd "RESET").
    { destruct args as [|replica [|? ?]]; simpl; try same.
      rewrite Hr. destruct (replicas b !! replica) as [e|]; simpl; [|same].
      unfold unschedule. rewrite Ho.
      destruct (decide (watch e ∈ observer b)); simpl; same. }
    simpl. same.
Qed.

Lemma same_step schedule_raises c line s1 s2 :
  same_but_log s1 s2 ->
  same_outcome (step schedule_raises c line s1) (step schedule_raises c line s2).
Proof.
  intros H. unfold step, recvCmd. unfold_M.
  destruct (negb _); simpl; [same|].
  set (cmd := hd "" _). set (args := map Py.unquote _).
  match goal with |- same_outcome (_ ?x) (_ ?y) =>
    assert (H0 : same_but_log x y) by sbl; set (a := x) in *; set (b := y) in * end.
  clearbody cmd args a b. destruct c.
  - unfold main_handshake. unfold_M. destruct (negb _); simpl; [same|].
    destruct args as [|v [|? ?]]; simpl; try same.
    split; [done|]. unfold when. destruct (negb _); by sbl.
  - by apply same_main_loop.
  - unfold startReplicaMon_loop. unfold_M.
    repeat (destruct (String.eqb _ _); simpl; try same).
Qed.

Lemma same_run schedule_raises evs : forall c s1 s2,
  same_but_log s1 s2 ->
  same_outcome (run schedule_raises c evs s1) (run schedule_raises c evs s2).
Proof.
  induction evs as [|[line|replica path] evs IH]; intros c s1 s2 H; simpl; [done| |].
  - unfold_M. pose proof (same_step schedule_raises c line s1 s2 H) as Hs.
    destruct (step schedule_raises c line s1), (step schedule_raises c line s2);
      simpl in Hs; try done.
    destruct Hs as [-> Hs]. by apply IH.
  - unfold_M. apply IH. by apply sbl_deliver.
Qed.

Lemma same_unschedule_each keys : forall s1 s2,
  same_but_log s1 s2 ->
  same_outcome (unschedule_each keys s1) (unschedule_each keys s2).
Proof.
  induction keys as [|replica keys IH]; intros s1 s2 H; simpl; [same|].
  unfold_M. pose proof H as (Hr & Hk & Hp & Ht & Ho & Htr). rewrite Hr.
  destruct (replicas s2 !! replica) as [e|]; simpl; [|same].
  unfold unschedule. rewrite Ho.
  destruct (decide (watch e ∈ observer s2)); simpl; [|same].
  apply IH. by sbl.
Qed.

Lemma same_at_exit k s1 s2 :
  same_but_log s1 s2 -> same_outcome (at_exit k s1) (at_exit k s2).
Proof.
  intros H. destruct k; simpl; [|same|]; unfold finally_block;
    pose proof H as (_ & -> & _); by apply same_unschedule_each.
Qed.

(** X21. Starting the script with [--debug] changes what is logged and
    nothing else: against the same commands and file events the process
    ends or goes on in the same way, with the same registry, trees,
    pending set and watches, and with the same writes, flushes and reads
    on the standard streams. *)
Theorem debug_flag_changes_the_log_only schedule_raises evs :
  same_outcome (program schedule_raises true evs) (program schedule_raises false evs).
Proof.
  unfold program.
  assert (H0 : same_but_log (main_begin (initial true)) (main_begin (initial false))).
  { unfold main_begin. apply sbl_sym, sbl_trans with (sendCmd "VERSION" (ArgList ["1"]) (initial false));
      [apply sbl_refl|].
    unfold sendCmd. apply sbl_emit, sbl_when. by repeat split. }
  pose proof (same_run schedule_raises evs Handshaking _ _ H0) as H.
  destruct (run _ _ _ (main_begin (initial true))), (run _ _ _ (main_begin (initial false)));
    simpl in H; try done.
  destruct H as [-> H].
  pose proof (same_at_exit k0 _ _ H) as He.
  destruct (at_exit k0 s), (at_exit k0 s0); simpl in *; try done.
  by destruct He.
Qed.

(** ** Commands as lines *)

(** What [recvCmd] leaves behind when it returns. *)
Lemma recvCmd_returns line s v s' :
  recvCmd line s = Ret v s' ->
  stdout_writes (trace s') = stdout_writes (trace s)
  /\ replicas s' = replicas s /\ pending_reps s' = pending_reps s
  /\ triggered_reps s' = triggered_reps s /\ observer s' = observer s.
Proof.
  unfold recvCmd. destruct (negb _); [done|]. intros [= _ <-].
  rewrite stdout_when_debug. globals. unfold emit. cbn [trace].
  rewrite !stdout_writes_app. simpl. by rewrite !app_nil_r.
Qed.

Lemma step_after_recvCmd schedule_raises c line s cmd args s0 :
  recvCmd line s = Ret (cmd, args) s0 ->
  step schedule_raises c line s
  = match c with
    | Handshaking => main_handshake cmd args
    | MainLoop => main_loop schedule_raises cmd args
    | ReplicaStart => startReplicaMon_loop cmd args
    end s0.
Proof. intros H. unfold step. unfold_M. by rewrite H. Qed.


(** X23. In the registration sub-loop every [DIR] is answered by one
    [OK] and [DONE] by nothing: after the [DIR] lines for any paths and
    the [DONE], the main thread is back in the main loop, standard output
    holds one more [OK] per [DIR], and the registry, the trees, the
    pending set and the watches are as before. *)
Theorem subloop_acknowledges_each_DIR schedule_raises paths : forall s,
  Forall (fun p => p <> "") paths ->
  exists s',
    run schedule_raises ReplicaStart (subloop_lines paths) s = Ret MainLoop s'
    /\ stdout_writes (trace s')
       = stdout_writes (trace s) ++ replicate (length paths) ("OK" +:+ nl)
    /\ replicas s' = replicas s /\ pending_reps s' = pending_reps s
    /\ triggered_reps s' = triggered_reps s /\ observer s' = observer s.
Proof.
  unfold subloop_lines.
  induction paths as [|p paths IH]; intros s Hall.
  - simpl. unfold_M.
    assert (H0 : exists s0, recvCmd ("DONE" +:+ nl) s = Ret ("DONE", []) s0)
      by (eexists; reflexivity).
    destruct H0 as [s0 H0]. unfold line_of.
    rewrite (step_after_recvCmd _ _ _ _ _ _ _ H0).
    apply recvCmd_returns in H0 as (Hout & Hr & Hp & Ht & Ho).
    eexists. split; [reflexivity|]. by rewrite app_nil_r.
  - inversion Hall as [|? ? Hp Hps]; subst. simpl. unfold_M.
    destruct (recvCmd_raw_cmd "DIR" [p] nl s) as [s0 H0]; try done.
    { simpl. congruence. }
    rewrite (step_after_recvCmd _ _ _ _ _ _ _ H0).
    apply recvCmd_returns in H0 as (Hout & Hr & Hpe & Ht & Ho).
    unfold startReplicaMon_loop at 1. unfold_M. simpl.
    destruct (IH (sendAck s0) Hps) as (s' & Hrun & Hout' & Hr' & Hp' & Ht' & Ho').
    exists s'. split; [exact Hrun|].
    rewrite Hout', Hr', Hp', Ht', Ho', sendAck_stdout, Hout. globals.
    split_and!; try done. by rewrite <- app_assoc.
Qed.

Lemma subloop_acknowledges_each_DIR_witness :
  Forall (fun p => p <> "") ["/tmp/a/x"; "/tmp/a/y z"]
  /\ exists s',
       run (fun _ => None) ReplicaStart
         [line_of "DIR /tmp/a/x"; line_of "DIR /tmp/a/y%20z"; line_of "DONE"] session_r1
       = Ret MainLoop s'
       /\ stdout_writes (trace s') = ["OK" +:+ nl; "OK" +:+ nl].
Proof.
  assert (H : Forall (fun p => p <> "") ["/tmp/a/x"; "/tmp/a/y z"])
    by (repeat constructor; discriminate).
  split; [exact H|].
  destruct (subloop_acknowledges_each_DIR (fun _ => None) _ session_r1 H)
    as (s' & Hrun & Hout & _).
  exists s'. split; [exact Hrun|exact Hout].
Defined.

(** ** What reaches standard output *)

Lemma forall_chars_app p a b :
  forall_chars p (a +:+ b) = forall_chars p a && forall_chars p b.
Proof.
  induction a as [|c a IH]; [done|]. rewrite append_cons. simpl.
  by rewrite IH, andb_assoc.
Qed.

Lemma visible_not_newline s :
  forall_chars visible s = true -> forall_chars not_newline s = true.
Proof.
  induction s as [|c s IH]; [done|]. simpl. intros [Hc Hs]%andb_true_iff.
  rewrite (IH Hs), andb_true_r. revert Hc.
  destruct c as [[] [] [] [] [] [] [] []]; (discriminate || reflexivity).
Qed.

Lemma raw_cmd_no_newline cmd args :
  forall_chars not_newline cmd = true ->
  forall_chars not_newline (raw_cmd_of cmd args) = true.
Proof.
  unfold raw_cmd_of. generalize (iterate args). intros l. revert cmd.
  induction l as [|a l IH]; intros cmd Hcmd; [done|]. simpl. apply IH.
  rewrite !forall_chars_app, Hcmd. simpl.
  by rewrite (visible_not_newline _ (quote_visible a)).
Qed.

Lemma protocol_line_raw cmd args :
  cmd ∈ reply_words -> protocol_line (raw_cmd_of cmd args +:+ nl).
Proof.
  intros Hcmd. exists cmd, args. split_and!; [done..|].
  apply raw_cmd_no_newline. unfold reply_words in Hcmd.
  repeat (apply elem_of_cons in Hcmd as [->|Hcmd]; [reflexivity|]).
  by apply elem_of_nil in Hcmd.
Qed.

Lemma wok_same s s' :
  stdout_writes (trace s') = stdout_writes (trace s) -> writes_ok s -> writes_ok s'.
Proof. unfold writes_ok. by intros ->. Qed.

Lemma wok_sendCmd cmd args s :
  cmd ∈ reply_words -> writes_ok s -> writes_ok (sendCmd cmd args s).
Proof.
  intros Hcmd Hs. unfold writes_ok. rewrite sendCmd_stdout.
  apply Forall_app. split; [done|]. constructor; [by apply protocol_line_raw|constructor].
Qed.

Lemma wok_sendAck s : writes_ok s -> writes_ok (sendAck s).
Proof. apply wok_sendCmd. unfold reply_words. right. left. Qed.

Lemma wok_warn msg s : writes_ok s -> writes_ok (warn msg s).
Proof. apply wok_same, stdout_warn. Qed.

Lemma wok_when b msg s : writes_ok s -> writes_ok (when b (_debug msg) s).
Proof. apply wok_same, stdout_when_debug. Qed.

Lemma wok_emit e s :
  (forall text, e <> StdoutWrite text) -> writes_ok s -> writes_ok (emit e s).
Proof.
  intros He. apply wok_same. unfold emit. cbn [trace]. rewrite stdout_writes_app.
  destruct e; simpl; rewrite ?app_nil_r; try done. by destruct (He text).
Qed.

Lemma wok_set_pending_reps p s : writes_ok s -> writes_ok (set_pending_reps p s).
Proof. done. Qed.
Lemma wok_set_replicas f s : writes_ok s -> writes_ok (set_replicas f s).
Proof. done. Qed.
Lemma wok_set_replicas_order f s : writes_ok s -> writes_ok (set_replicas_order f s).
Proof. done. Qed.
Lemma wok_replicas_setitem replica e s : writes_ok s -> writes_ok (replicas_setitem replica e s).
Proof. done. Qed.
Lemma wok_replicas_delitem replica s : writes_ok s -> writes_ok (replicas_delitem replica s).
Proof. done. Qed.
Lemma wok_schedule w s : writes_ok s -> writes_ok (schedule w s).
Proof. done. Qed.
Lemma wok_set_triggered_reps f s : writes_ok s -> writes_ok (set_triggered_reps f s).
Proof. done. Qed.
Lemma wok_set_observer f s : writes_ok s -> writes_ok (set_observer f s).
Proof. done. Qed.
Lemma wok_set_in_debug b s : writes_ok s -> writes_ok (set_in_debug b s).
Proof. done. Qed.

Lemma wok_report t local_path s :
  writes_ok s -> writes_ok (reportRecursiveChanges local_path t s).
Proof.
  intros Hs. unfold writes_ok.
  destruct (reportRecursiveChanges_effect t local_path s) as (-> & _).
  apply Forall_app. split; [done|]. apply Forall_forall.
  intros text (p & -> & _)%list_elem_of_fmap.
  apply (protocol_line_raw "RECURSIVE" (ArgList [p])).
  unfold reply_words. do 4 right. left.
Qed.

Lemma wok_triggerReplica replica toks s :
  writes_ok s -> writes_ok (triggerReplica replica toks s).
Proof.
  intros Hs. unfold writes_ok.
  destruct (triggerReplica_effect replica toks s) as (_ & _ & -> & _).
  apply Forall_app. split; [done|]. destruct (decide _); [|constructor].
  constructor; [|constructor].
  apply (protocol_line_raw "CHANGES" (ArgList [replica])).
  unfold reply_words. do 3 right. left.
Qed.

Ltac reply_word := unfold reply_words; repeat first [ by left | right ].

Ltac wok :=
  repeat match goal with
    | |- writes_ok _ => assumption
    | |- writes_ok (sendAck _) => apply wok_sendAck
    | |- writes_ok (warn _ _) => apply wok_warn
    | |- writes_ok (when _ (_debug _) _) => apply wok_when
    | |- writes_ok (set_pending_reps _ _) => apply wok_set_pending_reps
    | |- writes_ok (set_replicas _ _) => apply wok_set_replicas
    | |- writes_ok (set_replicas_order _ _) => apply wok_set_replicas_order
    | |- writes_ok (replicas_setitem _ _ _) => apply wok_replicas_setitem
    | |- writes_ok (replicas_delitem _ _) => apply wok_replicas_delitem
    | |- writes_ok (schedule _ _) => apply wok_schedule
    | |- writes_ok (set_triggered_reps _ _) => apply wok_set_triggered_reps
    | |- writes_ok (set_observer _ _) => apply wok_set_observer
    | |- writes_ok (set_in_debug _ _) => apply wok_set_in_debug
    | |- writes_ok (reportRecursiveChanges _ _ _) => apply wok_report
    | |- writes_ok (triggerReplica _ _ _) => apply wok_triggerReplica
    | |- writes_ok (sendCmd _ _ _) => apply wok_sendCmd; [reply_word|]
    | |- writes_ok (emit _ _) => apply wok_emit; [done|]
    end.

Lemma wok_dispatch root replica path s : writes_ok s -> writes_ok (dispatch root replica path s).
Proof. intros Hs. unfold dispatch. destruct (negb _); by wok. Qed.

Lemma wok_deliver replica path s : writes_ok s -> writes_ok (deliver replica path s).
Proof. intros Hs. unfold deliver. destruct (_ !! _); [by apply wok_dispatch|done]. Qed.

Lemma wok_startReplicaMon schedule_raises replica fspath path s :
  writes_ok s -> writes_ok (final (startReplicaMon schedule_raises replica fspath path s)).
Proof.
  intros Hs. unfold startReplicaMon. unfold_M.
  destruct (contains replica (replicas s)); simpl; [by wok|].
  destruct (schedule_raises _); simpl; by wok.
Qed.

Lemma wok_main_loop schedule_raises cmd args s :
  writes_ok s -> writes_ok (final (main_loop schedule_raises cmd args s)).
Proof.
  intros Hs. unfold main_loop. unfold_M. simpl.
  set (s0 := when (negb (String.eqb cmd "WAIT")) (set_pending_reps ∅) s).
  assert (H0 : writes_ok s0) by (unfold s0, when; by destruct (negb _)).
  clearbody s0.
  destruct (String.eqb cmd "DEBUG"); [simpl; by wok|].
  destruct (String.eqb cmd "START").
  { destruct args as [|a [|b [|c [|? ?]]]]; simpl; try done; by apply wok_startReplicaMon. }
  destruct (String.eqb cmd "WAIT").
  { destruct args as [|replica [|? ?]]; simpl; try done.
    destruct (contains replica (replicas s0)); simpl; [|by wok].
    destruct (contains replica (triggered_reps s0)); simpl; by wok. }
  destruct (String.eqb cmd "CHANGES").
  { destruct args as [|replica [|? ?]]; simpl; try done.
    destruct (contains replica (replicas s0)); simpl; [|by wok].
    destruct (triggered_reps s0 !! replica); simpl; by wok. }
  destruct (String.eqb cmd "RESET").
  { destruct args as [|replica [|? ?]]; simpl; try done.
    destruct (replicas s0 !! replica) as [e|]; simpl; [|by wok].
    unfold unschedule. destruct (decide (watch e ∈ observer s0)); simpl; by wok. }
  simpl. by wok.
Qed.

Lemma wok_step schedule_raises c line s :
  writes_ok s -> writes_ok (final (step schedule_raises c line s)).
Proof.
  intros Hs. unfold step, recvCmd. unfold_M.
  destruct (negb _); simpl; [by wok|].
  set (cmd := hd "" _). set (args := map Py.unquote _).
  match goal with |- writes_ok (final (_ ?x)) =>
    assert (H0 : writes_ok x) by wok; set (s0 := x) in * end.
  clearbody cmd args s0. destruct c.
  - unfold main_handshake. unfold_M. destruct (negb _); simpl; [by wok|].
    destruct args as [|v [|? ?]]; simpl; try done.
    unfold when. destruct (negb _); by wok.
  - by apply wok_main_loop.
  - unfold startReplicaMon_loop. unfold_M.
    repeat (destruct (String.eqb _ _); simpl; try done); by wok.
Qed.

Lemma wok_run schedule_raises evs : forall c s,
  writes_ok s -> writes_ok (final (run schedule_raises c evs s)).
Proof.
  induction evs as [|[line|replica path] evs IH]; intros c s Hs; simpl; [done| |].
  - unfold_M. pose proof (wok_step schedule_raises c line s Hs) as H.
    destruct (step schedule_raises c line s); [by apply IH|done].
  - unfold_M. apply IH. by apply wok_deliver.
Qed.

(** X24. Every text the script writes to standard output is one
    complete line of the protocol: one of its six reply words, then the
    arguments, each quoted and set off by a space, then the newline, and
    no newline anywhere before it. *)
Theorem stdout_is_whole_protocol_lines schedule_raises debug_flag evs :
  Forall protocol_line
    (stdout_writes (trace (final (program schedule_raises debug_flag evs)))).
Proof.
  assert (H0 : writes_ok (main_begin (initial debug_flag))).
  { unfold main_begin. apply wok_sendCmd; [reply_word|]. constructor. }
  pose proof (wok_run schedule_raises evs Handshaking _ H0) as H.
  pose proof (program_final schedule_raises debug_flag evs) as Hf. cbn zeta in Hf.
  destruct Hf as (_ & _ & _ & _ & _ & -> & _). exact H.
Qed.
